(** * obsidian-bibliography: the plugin of [src/main.ts], embedded and verified

    The development follows the source file top to bottom:

    - JavaScript strings, as lists of UTF-16 code units, with the string
      methods the plugin calls;
    - a backtracking matcher for the fragment of regular expressions that
      the plugin's five patterns are written in;
    - JavaScript values (what [any] ranges over once JSON and [undefined]
      are in play), [ToString], own-property reads and writes;
    - [formatReference], the markdown post-processor, the two payload
      normalizers, [getSuggestions] / [dispatchSuggestions] and
      [onChooseSuggestion];
    - the theorems. *)

From Stdlib Require Import List NArith ZArith Bool String Ascii Lia Arith.
From Stdlib Require Import DecimalString.
Import ListNotations.

Set Warnings "-register-all".

Set Implicit Arguments.

(* ================================================================== *)
(** ** JavaScript strings *)

(** A string is its sequence of UTF-16 code units. *)
Definition jsstring := list N.

(** A source literal made of ASCII characters. *)
Definition lit (s : string) : jsstring :=
  map N_of_ascii (list_ascii_of_string s).

(** The line feed, written ['\n'] in the source. *)
Definition LF : N := 10%N.
Definition CR : N := 13%N.

Fixpoint jseqb (a b : jsstring) : bool :=
  match a, b with
  | [], [] => true
  | x :: a', y :: b' => N.eqb x y && jseqb a' b'
  | _, _ => false
  end.

(** [String.prototype.startsWith]. *)
Fixpoint startsWith (s p : jsstring) {struct p} : bool :=
  match p, s with
  | [], _ => true
  | x :: p', y :: s' => N.eqb x y && startsWith s' p'
  | _ :: _, [] => false
  end.

(** [String.prototype.endsWith]. *)
Definition endsWith (s p : jsstring) : bool :=
  startsWith (rev s) (rev p).

(** [Array.prototype.join] on an array of strings. *)
Fixpoint join (sep : jsstring) (l : list jsstring) : jsstring :=
  match l with
  | [] => []
  | [x] => x
  | x :: l' => x ++ sep ++ join sep l'
  end.

(** [Array.prototype.slice(start, end)] for non-negative indices. *)
Definition slice {A} (l : list A) (from to : nat) : list A :=
  firstn (to - from) (skipn from l).

(** [String.prototype.substring(start, end)] for non-negative indices with
    [start <= end]. *)
Definition substring (s : jsstring) (from to : nat) : jsstring :=
  slice s from to.

(** [Array.prototype.contains] is the host's alias of [includes]. *)
Definition contains (l : list jsstring) (x : jsstring) : bool :=
  existsb (jseqb x) l.

(** *** Character classes *)

(** Line terminators: LF, CR, U+2028, U+2029. *)
Definition is_line_terminator (c : N) : bool :=
  (N.eqb c 10 || N.eqb c 13 || N.eqb c 8232 || N.eqb c 8233)%N.

(** What [\s] matches and what [trim] removes: the white space code points
    (TAB, VT, FF, SP, NBSP, ZWNBSP and the space separators) and the line
    terminators. *)
Definition is_space (c : N) : bool :=
  (N.eqb c 9 || N.eqb c 11 || N.eqb c 12 || N.eqb c 32 || N.eqb c 160
   || N.eqb c 5760 || (N.leb 8192 c && N.leb c 8202) || N.eqb c 8239
   || N.eqb c 8287 || N.eqb c 12288 || N.eqb c 65279
   || is_line_terminator c)%N.

(** [\d]. *)
Definition is_digit (c : N) : bool := (N.leb 48 c && N.leb c 57)%N.

(** [\w]; the [i] flag adds nothing to it without the [u] flag. *)
Definition is_word (c : N) : bool :=
  ((N.leb 65 c && N.leb c 90) || (N.leb 97 c && N.leb c 122)
   || is_digit c || N.eqb c 95)%N.

(** [.] without the [s] flag. *)
Definition is_dot (c : N) : bool := negb (is_line_terminator c).

Definition is_char (x : N) (c : N) : bool := N.eqb c x.

(** A pattern character under the [i] flag (no [u] flag): code units are
    compared after upper-casing, and a code unit outside ASCII is never
    mapped into ASCII, so an ASCII letter matches its two cases only. *)
Definition is_char_i (x : N) (c : N) : bool :=
  if (N.leb 97 x && N.leb x 122)%N then (N.eqb c x || N.eqb c (x - 32))%N
  else if (N.leb 65 x && N.leb x 90)%N then (N.eqb c x || N.eqb c (x + 32))%N
  else N.eqb c x.

(** [String.prototype.trim]. *)
Fixpoint trimStart (s : jsstring) : jsstring :=
  match s with
  | c :: s' => if is_space c then trimStart s' else s
  | [] => []
  end.

Definition trim (s : jsstring) : jsstring :=
  rev (trimStart (rev (trimStart s))).

(** [sectionInfo.text.split(/\r?\n/)]: the separator is a line feed with
    the carriage return in front of it, if there is one. [cur] is the
    current line, reversed. *)
Fixpoint split_lines_from (cur : jsstring) (s : jsstring) : list jsstring :=
  match s with
  | [] => [rev cur]
  | c :: s' =>
      if N.eqb c LF then rev cur :: split_lines_from [] s'
      else if N.eqb c CR then
        match s' with
        | d :: s'' =>
            if N.eqb d LF then rev cur :: split_lines_from [] s''
            else split_lines_from (c :: cur) s'
        | [] => split_lines_from (c :: cur) s'
        end
      else split_lines_from (c :: cur) s'
  end.

Definition split_lines (s : jsstring) : list jsstring := split_lines_from [] s.

(* ================================================================== *)
(** ** Regular expressions *)

(** The fragment the plugin's patterns use. Unnamed capture groups, whose
    captures the plugin never reads, are plain sub-expressions. A
    quantifier other than [?] is only ever applied to a single character
    class, which is what [Star] carries; [x+] is [Cat x (Star _ x)] and
    [x{n}] is [n] copies of [x]. None of the optional groups can match the
    empty string. *)
Inductive regex : Type :=
| Eps                                   (* the empty pattern *)
| Bol                                   (* ^ without the m flag *)
| Eol                                   (* $ without the m flag *)
| Cls (p : N -> bool)                   (* one code unit of a class *)
| Cat (r1 r2 : regex)
| Opt (r : regex)                       (* r? *)
| Star (greedy : bool) (p : N -> bool)  (* c* and c*? *)
| Grp (name : string) (r : regex).      (* (?<name>r) *)

Definition captures := list (string * jsstring).

Section Matcher.
Variable A : Type.

(** A continuation receives the index reached, the input left and the
    captures made. *)
Definition cont := nat -> jsstring -> captures -> option A.

(** [c*]: the longest run first, then shorter ones. *)
Fixpoint star_greedy (p : N -> bool) (i : nat) (s : jsstring)
         (k : nat -> jsstring -> option A) : option A :=
  match s with
  | c :: s' =>
      if p c then
        match star_greedy p (S i) s' k with
        | Some x => Some x
        | None => k i s
        end
      else k i s
  | [] => k i s
  end.

(** [c*?]: the shortest run first, then longer ones. *)
Fixpoint star_lazy (p : N -> bool) (i : nat) (s : jsstring)
         (k : nat -> jsstring -> option A) : option A :=
  match k i s with
  | Some x => Some x
  | None =>
      match s with
      | c :: s' => if p c then star_lazy p (S i) s' k else None
      | [] => None
      end
  end.

(** The backtracking matcher: [s] is the input from index [i] on. *)
Fixpoint rmatch (r : regex) (i : nat) (s : jsstring) (caps : captures)
         (k : cont) : option A :=
  match r with
  | Eps => k i s caps
  | Bol => if Nat.eqb i 0 then k i s caps else None
  | Eol => match s with [] => k i s caps | _ :: _ => None end
  | Cls p =>
      match s with
      | c :: s' => if p c then k (S i) s' caps else None
      | [] => None
      end
  | Cat r1 r2 =>
      rmatch r1 i s caps (fun j s' caps' => rmatch r2 j s' caps' k)
  | Opt r1 =>
      match rmatch r1 i s caps k with
      | Some x => Some x
      | None => k i s caps
      end
  | Star true p => star_greedy p i s (fun j s' => k j s' caps)
  | Star false p => star_lazy p i s (fun j s' => k j s' caps)
  | Grp name r1 =>
      rmatch r1 i s caps
        (fun j s' caps' => k j s' ((name, firstn (j - i) s) :: caps'))
  end.
End Matcher.

(** A match: where it starts, where it ends, and its named groups. *)
Record match_result : Type := MatchResult {
  m_start : nat;
  m_end : nat;
  m_groups : captures
}.

Definition accept (i : nat) : cont match_result :=
  fun j _ caps => Some (MatchResult i j caps).

(** [RegExp.prototype.exec] without the [g] and [y] flags: the first
    index, from [i] on, at which the pattern matches. *)
Fixpoint search (r : regex) (i : nat) (s : jsstring) : option match_result :=
  match rmatch r i s [] (accept i) with
  | Some m => Some m
  | None =>
      match s with
      | [] => None
      | _ :: s' => search r (S i) s'
      end
  end.

(** [String.prototype.match] with a pattern that has no [g] flag. *)
Definition str_match (s : jsstring) (r : regex) : option match_result :=
  search r 0 s.

(** [match.groups.name]. *)
Fixpoint group (caps : captures) (name : string) : option jsstring :=
  match caps with
  | [] => None
  | (n, v) :: caps' => if String.eqb n name then Some v else group caps' name
  end.

(** [String.prototype.replace(pattern, '')] with a pattern that has no [g]
    flag: the first match is cut out. *)
Definition replace_empty (s : jsstring) (r : regex) : jsstring :=
  match search r 0 s with
  | Some m => firstn (m_start m) s ++ skipn (m_end m) s
  | None => s
  end.

(** Pattern builders: a sequence, a literal, a literal under the [i] flag,
    [r{n}] and [r+] for a character class. *)
Definition Seq (l : list regex) : regex := fold_right Cat Eps l.
Definition Lit (s : string) : regex := Seq (map (fun c => Cls (is_char c)) (lit s)).
Definition Liti (s : string) : regex := Seq (map (fun c => Cls (is_char_i c)) (lit s)).
Definition Rep (n : nat) (r : regex) : regex := Seq (repeat r n).
Definition Plus (greedy : bool) (p : N -> bool) : regex := Cat (Cls p) (Star greedy p).

Definition is_nonspace (c : N) : bool := negb (is_space c).

(** The patterns of the source, in the order they appear there. *)

(** [/^\^{3}\s*/], the opening fence. *)
Definition fenceOpenPattern : regex :=
  Seq [Bol; Rep 3 (Lit "^"); Star true is_space].

(** [/\s*\^{3}$/], the closing fence. *)
Definition fenceClosePattern : regex :=
  Seq [Star true is_space; Rep 3 (Lit "^"); Eol].

(** [/^(:?https?:\/\/arxiv\.org\/\w{3}\/)?(:?arXiv:)?(?<identifier>\d{4}\.\d{5})(:?.pdf)?$/i].
    The groups that open with [(:?] are capture groups that start with an
    optional colon; in the last one the dot is the wildcard. *)
Definition arxivPattern : regex :=
  Seq [Bol;
       Opt (Seq [Opt (Liti ":"); Liti "http"; Opt (Liti "s");
                 Liti "://arxiv.org/"; Rep 3 (Cls is_word); Liti "/"]);
       Opt (Seq [Opt (Liti ":"); Liti "arXiv:"]);
       Grp "identifier"
           (Seq [Rep 4 (Cls is_digit); Liti "."; Rep 5 (Cls is_digit)]);
       Opt (Seq [Opt (Liti ":"); Cls is_dot; Liti "pdf"]);
       Eol].

(** [/^(?<first>.+?)\s+(?<last>[^\s]+)$/]. *)
Definition arxivAuthorPattern : regex :=
  Seq [Bol;
       Grp "first" (Plus false is_dot);
       Plus true is_space;
       Grp "last" (Plus true is_nonspace);
       Eol].

(** [/^(?:https?:\/\/(?:dx\.)?doi\.org\/)?(?:doi:)?(?<identifier>10\.\d{4}\/ ... )/],
    where the identifier group closes after a greedy [.] star and nothing
    anchors the end. *)
Definition doiPattern : regex :=
  Seq [Bol;
       Opt (Seq [Lit "http"; Opt (Lit "s"); Lit "://"; Opt (Lit "dx.");
                 Lit "doi.org/"]);
       Opt (Lit "doi:");
       Grp "identifier"
           (Seq [Lit "10."; Rep 4 (Cls is_digit); Lit "/"; Star true is_dot])].

(* ================================================================== *)
(** ** JavaScript values *)

(** Numbers, as far as the plugin computes with them: integers (exact
    below 2^53, printed in plain decimal below 10^21) and [NaN]. JSON
    numbers with a fraction or an exponent are outside the model. *)
Inductive number : Type :=
| Int (z : Z)
| NaN.

(** What a variable of type [any] holds here: [undefined], and what
    [JSON.parse] and the object and array literals of the source build.
    The properties of an object are listed in the order [for ... in]
    enumerates them, which for the keys of this program is the order in
    which they were added. *)
Inductive value : Type :=
| VUndef
| VNull
| VBool (b : bool)
| VNum (n : number)
| VStr (s : jsstring)
| VArr (elems : list value)
| VObj (props : list (jsstring * value)).

Definition object := list (jsstring * value).

(** Code that may throw. The modelled code itself only ever raises a
    [TypeError]; [response.json()] rejects with a [SyntaxError] and the
    vault with a plain [Error]. *)
Inductive error : Type :=
| TypeError
| SyntaxError
| Error.

Inductive result (A : Type) : Type :=
| Ok (a : A)
| Throw (e : error).
Arguments Ok {A} a.
Arguments Throw {A} e.

Definition bind {A B} (m : result A) (f : A -> result B) : result B :=
  match m with
  | Ok a => f a
  | Throw e => Throw e
  end.

Notation "x <- m ;; f" := (bind m (fun x => f))
  (at level 61, m at next level, right associativity).

Fixpoint mapM {A B} (f : A -> result B) (l : list A) : result (list B) :=
  match l with
  | [] => Ok []
  | x :: l' => y <- f x ;; ys <- mapM f l' ;; Ok (y :: ys)
  end.

(** *** ToString *)

Definition digit_string (n : N) : jsstring :=
  lit (NilEmpty.string_of_uint (N.to_uint n)).

(** The decimal digits, which is what a Number prints for an integer
    that it holds exactly (see [safe_integer]). *)
Definition number_to_string (n : number) : jsstring :=
  match n with
  | Int (Zneg p) => lit "-" ++ digit_string (Npos p)
  | Int z => digit_string (Z.to_N z)
  | NaN => lit "NaN"
  end.

(** [ToString], which is what a template literal and [+] with a string
    apply to an operand. An array prints as its elements joined by commas,
    [null] and [undefined] elements as nothing; an object prints as
    [[object Object]]. This is the text of a conversion that completes:
    on an object with an own property [toString] it throws instead (see
    [convertible] and [printable]). *)
Fixpoint to_string (v : value) : jsstring :=
  match v with
  | VUndef => lit "undefined"
  | VNull => lit "null"
  | VBool true => lit "true"
  | VBool false => lit "false"
  | VNum n => number_to_string n
  | VStr s => s
  | VArr l =>
      join (lit ",")
           (map (fun x => match x with
                          | VUndef | VNull => []
                          | _ => to_string x
                          end) l)
  | VObj _ => lit "[object Object]"
  end.

(** *** Properties *)

(** Reads are reads of own properties: the modelled code reads by fixed
    names that no built-in prototype defines, by the keys a [for ... in]
    has just enumerated, or by index; the one read under a key that comes
    from the payload is [DOI_TYPE_LOOKUP[payload.type]] (see
    [plain_key]). *)
Fixpoint get_own (o : object) (k : jsstring) : value :=
  match o with
  | [] => VUndef
  | (k', v) :: o' => if jseqb k' k then v else get_own o' k
  end.

Fixpoint has_own (o : object) (k : jsstring) : bool :=
  match o with
  | [] => false
  | (k', _) :: o' => jseqb k' k || has_own o' k
  end.

(** [o.k = v]: an existing property keeps its place, a new one goes
    last. The names that the program assigns under are written in the
    source; none is an index or [__proto__]. *)
Fixpoint set_own (o : object) (k : jsstring) (v : value) : object :=
  match o with
  | [] => [(k, v)]
  | (k', v') :: o' =>
      if jseqb k' k then (k', v) :: o' else (k', v') :: set_own o' k v
  end.

Definition keys (o : object) : list jsstring := map fst o.

(** [v.name] and [v['name']]: reading from [undefined] or [null] throws. *)
Definition get (v : value) (name : string) : result value :=
  match v with
  | VUndef | VNull => Throw TypeError
  | VObj o => Ok (get_own o (lit name))
  | _ => Ok VUndef
  end.

(** [v[n]] for an index [n]. *)
Definition get_index (v : value) (n : nat) : result value :=
  match v with
  | VUndef | VNull => Throw TypeError
  | VArr l => Ok (nth n l VUndef)
  | VStr s => Ok (match nth_error s n with
                  | Some c => VStr [c]
                  | None => VUndef
                  end)
  | VObj o => Ok (get_own o (digit_string (N.of_nat n)))
  | _ => Ok VUndef
  end.

(** The values a [for ... of] goes through: the elements of an array, the
    code points of a string; nothing else here is iterable. *)
Definition is_high_surrogate (c : N) : bool := (N.leb 55296 c && N.leb c 56319)%N.
Definition is_low_surrogate (c : N) : bool := (N.leb 56320 c && N.leb c 57343)%N.

Fixpoint code_points (s : jsstring) : list value :=
  match s with
  | [] => []
  | c :: s' =>
      match s' with
      | d :: s'' =>
          if is_high_surrogate c && is_low_surrogate d
          then VStr [c; d] :: code_points s''
          else VStr [c] :: code_points s'
      | [] => [VStr [c]]
      end
  end.

Definition iterate (v : value) : result (list value) :=
  match v with
  | VArr l => Ok l
  | VStr s => Ok (code_points s)
  | _ => Throw TypeError
  end.

(** [v == w] for a string literal [w] that is not the text of a number
    (so that [ToNumber w] is [NaN]). *)
Definition loose_eq_word (v : value) (w : string) : bool :=
  match v with
  | VStr s => jseqb s (lit w)
  | VArr _ | VObj _ => jseqb (to_string v) (lit w)
  | _ => false
  end.

(* ================================================================== *)
(** ** The plugin *)

(** Lookup to go from doi reference types to bibtex reference types. *)
Definition DOI_TYPE_LOOKUP : object :=
  [(lit "article-journal", VStr (lit "article"));
   (lit "monograph", VStr (lit "book"));
   (lit "report", VStr (lit "techreport"))].

(** List of fields that should be linked via Obsidian. *)
Definition LINKED_FIELDS : list jsstring := [lit "journal"; lit "publisher"].

(** A [Reference] is an object; [authors] holds an array whose elements
    are [{first, last}] objects. *)
Definition Reference := object.

(** *** formatReference *)

(** [`[[${author.last}, ${author.first}]]`]. *)
Definition format_author (author : value) : result jsstring :=
  l <- get author "last" ;;
  f <- get author "first" ;;
  Ok (lit "[[" ++ to_string l ++ lit ", " ++ to_string f ++ lit "]]").

(** [reference.authors.map(...)]: only an array has a [map] to call. *)
Definition format_authors (authors : value) : result (list jsstring) :=
  match authors with
  | VArr l => mapM format_author l
  | _ => Throw TypeError
  end.

(** The value of a field, linked if necessary. *)
Definition field_value (link : bool) (key : jsstring) (v : value) : jsstring :=
  if link && contains LINKED_FIELDS key
  then lit "[[" ++ to_string v ++ lit "]]"
  else to_string v.

(** The body of the [for (let key in reference)] loop: [None] is
    [continue]. *)
Definition field_line (reference : Reference) (link : bool) (key : jsstring)
  : option jsstring :=
  if jseqb key (lit "authors") || jseqb key (lit "type") then None
  else Some (key ++ lit " = { "
                 ++ field_value link key (get_own reference key)
                 ++ lit " }").

Fixpoint field_lines (reference : Reference) (link : bool)
         (ks : list jsstring) : list jsstring :=
  match ks with
  | [] => []
  | key :: ks' =>
      match field_line reference link key with
      | Some line => line :: field_lines reference link ks'
      | None => field_lines reference link ks'
      end
  end.

Definition formatReference (reference : Reference) (link : bool)
  : result jsstring :=
  authors <- format_authors (get_own reference (lit "authors")) ;;
  let lines :=
    [lit "@" ++ to_string (get_own reference (lit "type")) ++ lit "{CITEKEY";
     lit "author = { " ++ join (lit " and ") authors ++ lit " }"]
    ++ field_lines reference link (keys reference) in
  Ok (join ([44; LF; 32; 32]%N) lines ++ [LF; 125%N]).

(* ================================================================== *)
(** ** The markdown post-processor *)

(** The part of the DOM the plugin reads and writes: elements and text. *)
Inductive node : Type :=
| Element (tag : jsstring) (children : list node)
| Text (data : jsstring).

Definition set_children (el : node) (cs : list node) : node :=
  match el with
  | Element t _ => Element t cs
  | Text _ => el
  end.

Record MarkdownSectionInformation : Type := {
  text : jsstring;
  lineStart : nat;
  lineEnd : nat
}.

(** [lines.slice(sectionInfo.lineStart, sectionInfo.lineEnd + 1).join('\n')]. *)
Definition section_text (sectionInfo : MarkdownSectionInformation) : jsstring :=
  let lines := split_lines (text sectionInfo) in
  join [LF] (slice lines (lineStart sectionInfo) (lineEnd sectionInfo + 1)).

(** Drop the leading and trailing ^^^ from the markdown to process. *)
Definition strip_fence (text : jsstring) : jsstring :=
  replace_empty (replace_empty text fenceOpenPattern) fenceClosePattern.

(** What the element holds after [el.innerHTML = ''], the two [createEl]
    calls and [code.innerText = text]; the [Text] node stands for the
    string assigned to [innerText]. *)
Definition code_block (text : jsstring) : list node :=
  [Element (lit "pre") [Element (lit "code") [Text text]]].

(** [postprocessor(el, ctx)], with [ctx.getSectionInfo(el)] as its second
    argument; the result is [el] as the call leaves it. *)
Definition postprocessor (el : node)
           (sectionInfo : option MarkdownSectionInformation) : node :=
  match sectionInfo with
  | None => el
  | Some info =>
      let text := section_text info in
      if negb (startsWith text (lit "^^^")) || negb (endsWith text (lit "^^^"))
      then el
      else set_children el (code_block (strip_fence text))
  end.

(* ================================================================== *)
(** ** The payload normalizers *)

(** *** parseInt and addition *)

Definition digit_value (radix : N) (c : N) : option N :=
  let d := (if is_digit c then Some (c - 48)
            else if N.leb 97 c && N.leb c 122 then Some (c - 87)
            else if N.leb 65 c && N.leb c 90 then Some (c - 55)
            else None)%N in
  match d with
  | Some n => if N.ltb n radix then Some n else None
  | None => None
  end.

(** The digits at the front of [s], most significant first; [acc] is what
    has been read, if anything has. *)
Fixpoint parse_digits (radix : N) (acc : option N) (s : jsstring) : option N :=
  match s with
  | c :: s' =>
      match digit_value radix c with
      | Some d =>
          parse_digits radix
            (Some (match acc with Some a => a * radix + d | None => d end)%N) s'
      | None => acc
      end
  | [] => acc
  end.

(** [parseInt(s)] with no radix: leading white space, a sign, [0x] for
    base sixteen, then digits up to the first character that is none. *)
Definition parseInt (s : jsstring) : number :=
  let s1 := trimStart s in
  let '(negative, s2) :=
    match s1 with
    | 45%N :: t => (true, t)
    | 43%N :: t => (false, t)
    | _ => (false, s1)
    end in
  let '(radix, s3) :=
    match s2 with
    | 48%N :: 120%N :: t => (16%N, t)
    | 48%N :: 88%N :: t => (16%N, t)
    | _ => (10%N, s2)
    end in
  match parse_digits radix None s3 with
  | Some n => Int (if negative then - Z.of_N n else Z.of_N n)
  | None => NaN
  end.

(** [a + b] on numbers. *)
Definition number_add (a b : number) : number :=
  match a, b with
  | Int x, Int y => Int (x + y)
  | _, _ => NaN
  end.

(** *** The DOM of a parsed response *)

(** The descendants of a node, in document order. *)
Fixpoint descendants (n : node) : list node :=
  match n with
  | Element _ cs => flat_map (fun c => c :: descendants c) cs
  | Text _ => []
  end.

Definition has_tag (tag : string) (n : node) : bool :=
  match n with
  | Element t _ => jseqb t (lit tag)
  | Text _ => false
  end.

Definition getElementsByTagName (n : node) (tag : string) : list node :=
  filter (has_tag tag) (descendants n).

Fixpoint textContent (n : node) : jsstring :=
  match n with
  | Element _ cs => List.concat (map textContent cs)
  | Text d => d
  end.

(** [match.groups.name] as a value. *)
Definition group_value (m : match_result) (name : string) : value :=
  match group (m_groups m) name with
  | Some s => VStr s
  | None => VUndef
  end.

(** [v.substring(from, to)]: only a string has the method. *)
Definition substring_of (v : value) (from to : nat) : result jsstring :=
  match v with
  | VStr s => Ok (substring s from to)
  | _ => Throw TypeError
  end.

(** *** arXiv *)

(** The body of the loop over the [author] elements of an entry. *)
Definition arxiv_author (author : node) : value :=
  match str_match (trim (textContent author)) arxivAuthorPattern with
  | Some authorMatch =>
      VObj [(lit "first", group_value authorMatch "first");
            (lit "last", group_value authorMatch "last")]
  | None => VNull
  end.

(** The body of the loop over the [entry] elements of the payload. *)
Definition arxiv_entry (identifier : value) (entry : node) : result Reference :=
  let authors := map arxiv_author (getElementsByTagName entry "author") in
  yy <- substring_of identifier 0 2 ;;
  title <- match getElementsByTagName entry "title" with
           | t :: _ => Ok (textContent t)
           | [] => Throw TypeError
           end ;;
  Ok [(lit "type", VStr (lit "article"));
      (lit "authors", VArr authors);
      (lit "year", VNum (number_add (Int 2000) (parseInt yy)));
      (lit "title", VStr title);
      (lit "journal", VStr (lit "arXiv"));
      (lit "arxiv", identifier);
      (lit "pages", identifier)].

(** The suggestions the arXiv callback hands to [dispatchSuggestions];
    [payload] is the document [DOMParser] made of the response. *)
Definition arxiv_suggestions (identifier : value) (payload : node)
  : result (list Reference) :=
  mapM (arxiv_entry identifier) (getElementsByTagName payload "entry").

(** *** DOI *)

(** [DOI_TYPE_LOOKUP[key]], as a read of the table itself: a key that
    names a property of [Object.prototype] finds that property instead,
    which no [value] stands for (see [plain_key]). *)
Definition doi_type (key : value) : value :=
  get_own DOI_TYPE_LOOKUP (to_string key).

(** The body of the loop over [payload.author]. *)
Definition doi_author (author : value) : result value :=
  given <- get author "given" ;;
  family <- get author "family" ;;
  Ok (VObj [(lit "first", given); (lit "last", family)]).

(** The fields added according to the type. *)
Definition doi_type_fields (type payload : value) (suggestion : Reference)
  : result Reference :=
  if loose_eq_word type "article" then
    journal <- get payload "container-title" ;;
    volume <- get payload "volume" ;;
    page <- get payload "page" ;;
    journal_issue <- get payload "journal-issue" ;;
    issue <- get journal_issue "issue" ;;
    Ok (set_own (set_own (set_own (set_own suggestion
          (lit "journal") journal)
          (lit "volume") volume)
          (lit "pages") page)
          (lit "number") issue)
  else if loose_eq_word type "book" then
    publisher <- get payload "publisher" ;;
    Ok (set_own suggestion (lit "publisher") publisher)
  else if loose_eq_word type "techreport" then
    institution <- get payload "institution" ;;
    Ok (set_own suggestion (lit "institution") institution)
  else Ok suggestion.

(** The suggestion the DOI callback hands to [dispatchSuggestions];
    [payload] is what [response.json()] gave. *)
Definition doi_suggestion (identifier : value) (payload : value)
  : result Reference :=
  payload_author <- get payload "author" ;;
  items <- iterate payload_author ;;
  authors <- mapM doi_author items ;;
  payload_type <- get payload "type" ;;
  let type := doi_type payload_type in
  title <- get payload "title" ;;
  issued <- get payload "issued" ;;
  date_parts <- get issued "date-parts" ;;
  date_part <- get_index date_parts 0 ;;
  year <- get_index date_part 0 ;;
  doi_type_fields type payload
    [(lit "title", title);
     (lit "authors", VArr authors);
     (lit "type", type);
     (lit "year", year);
     (lit "doi", identifier)].

Definition doi_suggestions (identifier : value) (payload : value)
  : result (list Reference) :=
  suggestion <- doi_suggestion identifier payload ;;
  Ok [suggestion].

(* ================================================================== *)
(** ** The suggestion modal *)

(** The fields of [ReferenceModal] that the methods read and write;
    [lastQuery] starts as [null]. *)
Record ReferenceModal : Type := {
  lastQuery : option jsstring;
  lastSuggestions : list Reference;
  emptyStateText : jsstring
}.

(** The function handed to [then]: which of the two it is, and the
    [query] and [identifier] it has closed over. *)
Inductive callback : Type :=
| ArxivCallback (query : jsstring) (identifier : value)
| DoiCallback (query : jsstring) (identifier : value).

(** A call of [fetch(url, { headers: { Accept } }).then(callback)]. *)
Record request : Type := {
  url : jsstring;
  accept_header : option jsstring;
  then_ : callback
}.

(** What a call of [getSuggestions] returns, how it leaves the modal, and
    the request it has sent, if it has sent one. *)
Record outcome : Type := {
  returned : list Reference;
  after : ReferenceModal;
  fetched : option request
}.

Definition with_emptyStateText (this : ReferenceModal) (t : jsstring)
  : ReferenceModal :=
  {| lastQuery := lastQuery this;
     lastSuggestions := lastSuggestions this;
     emptyStateText := t |}.

(** [query && query == this.lastQuery]. *)
Definition is_last_query (this : ReferenceModal) (query : jsstring) : bool :=
  match query, lastQuery this with
  | _ :: _, Some q => jseqb query q
  | _, _ => false
  end.

Definition getSuggestions (this : ReferenceModal) (query : jsstring) : outcome :=
  (* Return suggestions if the query is equal to the last query. *)
  if is_last_query this query then
    {| returned := lastSuggestions this; after := this; fetched := None |}
  else
    let this := with_emptyStateText this (lit "Fetching results...") in
    (* See whether the string matches any of the patterns. *)
    let arxivMatch := str_match query arxivPattern in
    let doiMatch := str_match query doiPattern in
    match arxivMatch, doiMatch with
    | Some arxivMatch, _ =>
        let identifier := group_value arxivMatch "identifier" in
        {| returned := [];
           after := this;
           fetched :=
             Some {| url := lit "https://export.arxiv.org/api/query?id_list="
                            ++ to_string identifier;
                     accept_header := None;
                     then_ := ArxivCallback query identifier |} |}
    | None, Some doiMatch =>
        let identifier := group_value doiMatch "identifier" in
        {| returned := [];
           after := this;
           fetched :=
             Some {| url := lit "https://data.crossref.org/"
                            ++ to_string identifier;
                     accept_header := Some (lit "application/json");
                     then_ := DoiCallback query identifier |} |}
    | None, None =>
        {| returned := [];
           after := with_emptyStateText this (lit "Pattern not recognised");
           fetched := None |}
    end.

(** [dispatchSuggestions] as far as the modal goes; the [input] event it
    sends is counted in the event loop below. *)
Definition dispatchSuggestions (this : ReferenceModal) (query : jsstring)
           (suggestions : list Reference) : ReferenceModal :=
  {| lastQuery := Some query;
     lastSuggestions := suggestions;
     emptyStateText := lit "No results found" |}.

(** *** Responses and the event loop *)

(** A response, as the two callbacks read it: the document [DOMParser]
    makes of its text, and what [json()] gives for it. *)
Record response : Type := {
  document : node;
  json : result value
}.

(** The callback up to its call of [dispatchSuggestions]: the arguments of
    that call. *)
Definition run_callback (cb : callback) (r : response)
  : result (jsstring * list Reference) :=
  match cb with
  | ArxivCallback query identifier =>
      suggestions <- arxiv_suggestions identifier (document r) ;;
      Ok (query, suggestions)
  | DoiCallback query identifier =>
      payload <- json r ;;
      suggestions <- doi_suggestions identifier payload ;;
      Ok (query, suggestions)
  end.

(** The modal in the event loop: the requests that have been sent and not
    settled, oldest first, and the number of [input] events sent. *)
Record world : Type := {
  modal : ReferenceModal;
  pending : list request;
  input_events : nat
}.

(** What can happen next: the host calls [getSuggestions], or one of the
    pending requests settles, with a response or with a network failure. *)
Inductive event : Type :=
| Call (query : jsstring)
| Fulfil (n : nat) (r : response)
| Fail (n : nat).

Fixpoint remove_nth {A} (n : nat) (l : list A) : list A :=
  match n, l with
  | _, [] => []
  | O, _ :: l' => l'
  | S n', x :: l' => x :: remove_nth n' l'
  end.

Definition step (w : world) (e : event) : world :=
  match e with
  | Call query =>
      let o := getSuggestions (modal w) query in
      {| modal := after o;
         pending := pending w ++ match fetched o with
                                 | Some rq => [rq]
                                 | None => []
                                 end;
         input_events := input_events w |}
  | Fulfil n r =>
      match nth_error (pending w) n with
      | None => w
      | Some rq =>
          match run_callback (then_ rq) r with
          | Ok (query, suggestions) =>
              {| modal := dispatchSuggestions (modal w) query suggestions;
                 pending := remove_nth n (pending w);
                 input_events := S (input_events w) |}
          | Throw _ =>
              {| modal := modal w;
                 pending := remove_nth n (pending w);
                 input_events := input_events w |}
          end
      end
  | Fail n =>
      {| modal := modal w;
         pending := remove_nth n (pending w);
         input_events := input_events w |}
  end.

Definition run (w : world) (es : list event) : world := fold_left step es w.

(** A modal that has just been opened. *)
Definition opened (emptyText : jsstring) : world :=
  {| modal := {| lastQuery := None;
                 lastSuggestions := [];
                 emptyStateText := emptyText |};
     pending := [];
     input_events := 0 |}.

(* ================================================================== *)
(** ** Choosing a suggestion *)

Record BibliographyPluginSettings : Type := {
  bibliographyFolder : jsstring
}.

Definition DEFAULT_SETTINGS : BibliographyPluginSettings :=
  {| bibliographyFolder := lit "bibliography" |}.

(** What [instanceof] tells apart among the files of the vault. *)
Inductive TAbstractFile : Type :=
| TFolder
| TFile.

(** The calls that change the vault. *)
Inductive vault_call : Type :=
| CreateFolder (path : jsstring)
| Create (path : jsstring) (data : jsstring).

(** The loop of [onChooseSuggestion] that fills [lines]. Its [var value]
    belongs to the whole function, so [reference[value]] reads the
    property named by what the previous round left in [value]
    ([undefined] at first). The state is [value] and [lines]. *)
Definition lines_round (reference : Reference) (st : value * list jsstring)
           (key : jsstring) : value * list jsstring :=
  let '(value, lines) := st in
  if jseqb key (lit "authors") then (value, lines)
  else
    let value := get_own reference (to_string value) in
    let value :=
      if contains LINKED_FIELDS key
      then VStr (lit "[[" ++ to_string value ++ lit "]]")
      else value in
    (value,
     lines ++ [lit "  " ++ key ++ lit " = { " ++ to_string value ++ lit " },"]).

Definition lines_loop (reference : Reference) : list jsstring :=
  snd (fold_left (lines_round reference) (keys reference) (VUndef, [])).

(** [`^^^\n${formatReference(reference, true)}\n^^^`] around a formatted
    reference. *)
Definition fenced (formatted : jsstring) : jsstring :=
  lit "^^^" ++ [LF] ++ formatted ++ [LF] ++ lit "^^^".

Section Vault.
(** The vault of the host and the three of its methods that are called. *)
Variable vault : Type.
Variable getAbstractFileByPath : vault -> jsstring -> option TAbstractFile.
Variable createFolder : vault -> jsstring -> result vault.
Variable create : vault -> jsstring -> jsstring -> result vault.

(** The path of the note. *)
Definition item_path (settings : BibliographyPluginSettings)
           (reference : Reference) : jsstring :=
  let itemPath := to_string (get_own reference (lit "title")) ++ lit ".md" in
  match bibliographyFolder settings with
  | [] => itemPath
  | folderPath => folderPath ++ lit "/" ++ itemPath
  end.

(** Create the folder if necessary: the calls made and the vault after
    them. *)
Definition ensure_folder (settings : BibliographyPluginSettings) (v : vault)
  : list vault_call * result vault :=
  match bibliographyFolder settings with
  | [] => ([], Ok v)
  | folderPath =>
      match getAbstractFileByPath v folderPath with
      | Some TFolder => ([], Ok v)
      | _ => ([CreateFolder folderPath], createFolder v folderPath)
      end
  end.

(** Create the item if it doesn't already exist. [loop] is the loop
    that fills [lines]; it runs before [formatReference] is called. *)
Definition create_item (loop : Reference -> list jsstring)
           (itemPath : jsstring) (v : vault) (reference : Reference)
  : list vault_call * result vault :=
  match getAbstractFileByPath v itemPath with
  | Some TFile => ([], Ok v)
  | _ =>
      let lines := loop reference in
      match formatReference reference true with
      | Ok formatted =>
          ([Create itemPath (fenced formatted)],
           create v itemPath (fenced formatted))
      | Throw e => ([], Throw e)
      end
  end.

(** The async body of [onChooseSuggestion] around the loop: the calls
    it makes on the vault, in order, and the vault it leaves or the
    error that rejects it. *)
Definition choose_with (loop : Reference -> list jsstring)
           (settings : BibliographyPluginSettings)
           (v : vault) (reference : Reference)
  : list vault_call * result vault :=
  let itemPath := item_path settings reference in
  match ensure_folder settings v with
  | (calls, Ok v1) =>
      let '(calls', r) := create_item loop itemPath v1 reference in
      (calls ++ calls', r)
  | (calls, Throw e) => (calls, Throw e)
  end.

Definition onChooseSuggestion := choose_with lines_loop.
End Vault.

(* ================================================================== *)
(** ** Loading the settings *)

(** The own properties of an object, without the order in which it
    enumerates them. *)
Definition properties := jsstring -> option value.

(** [{}]. *)
Definition empty_object : properties := fun _ => None.

(** The object gets the own property, or a new value for it. *)
Definition define_property (o : properties) (k : jsstring) (v : value)
  : properties :=
  fun k' => if jseqb k k' then Some v else o k'.

(** [target[k] = v], as [Object.assign] does it, on an object that an
    object literal made and that holds data properties only. The key
    [__proto__] reaches the setter that [Object.prototype] has under this
    name: it gives the target another prototype, or does nothing, and the
    target gets no property. Under every other key the target gets the
    own property. *)
Definition assign_property (target : properties) (k : jsstring) (v : value)
  : properties :=
  if jseqb k (lit "__proto__") then target else define_property target k v.

(** The elements of an array, or the characters of a string, under their
    indices. *)
Fixpoint indexed (i : nat) (l : list value) : object :=
  match l with
  | [] => []
  | x :: l' => (digit_string (N.of_nat i), x) :: indexed (S i) l'
  end.

(** The own enumerable properties of a value that [Object.assign] copies
    from: those of an object, the elements of an array and the characters
    of a string under their indices, and none for [null], [undefined],
    numbers and booleans. *)
Definition own_properties (source : value) : object :=
  match source with
  | VObj o => o
  | VArr l => indexed 0 l
  | VStr s => indexed 0 (map (fun c => VStr [c]) s)
  | _ => []
  end.

(** [Object.assign(target, ...sources)]: every source in turn assigns its
    properties to the target. *)
Definition assign_from (target : properties) (source : value) : properties :=
  fold_left (fun t kv => assign_property t (fst kv) (snd kv))
            (own_properties source) target.

Definition Object_assign (target : properties) (sources : list value)
  : properties :=
  fold_left assign_from sources target.

(** The settings as the object they are. *)
Definition settings_object (settings : BibliographyPluginSettings) : object :=
  [(lit "bibliographyFolder", VStr (bibliographyFolder settings))].

(** [loadSettings], with what [loadData()] resolves to as its argument
    ([null] when nothing has been saved); the result is [this.settings]. *)
Definition loadSettings (data : value) : properties :=
  Object_assign empty_object [VObj (settings_object DEFAULT_SETTINGS); data].

(* ================================================================== *)
(** ** Vocabulary of the statements *)

(** A string that does not begin, or does not end, with white space. *)
Definition starts_clean (s : jsstring) : bool :=
  match s with
  | c :: _ => negb (is_space c)
  | [] => true
  end.

Definition ends_clean (s : jsstring) : bool := starts_clean (rev s).

Definition carets : jsstring := lit "^^^".

(** What a successful run of the matcher on [r] consumes and captures:
    from index [i] with input [s] and captures [c] it reaches index [j]
    with input [s'] and captures [c']. The order in which the matcher
    tries the alternatives plays no part here. *)
Fixpoint den (r : regex) (i : nat) (s : jsstring) (c : captures)
         (j : nat) (s' : jsstring) (c' : captures) : Prop :=
  match r with
  | Eps => j = i /\ s' = s /\ c' = c
  | Bol => i = 0 /\ j = i /\ s' = s /\ c' = c
  | Eol => s = [] /\ j = i /\ s' = s /\ c' = c
  | Cls p => exists ch, s = ch :: s' /\ p ch = true /\ j = S i /\ c' = c
  | Cat r1 r2 =>
      exists j1 s1 c1, den r1 i s c j1 s1 c1 /\ den r2 j1 s1 c1 j s' c'
  | Opt r1 => den r1 i s c j s' c' \/ (j = i /\ s' = s /\ c' = c)
  | Star _ p =>
      exists w, s = w ++ s' /\ forallb p w = true
                /\ j = i + List.length w /\ c' = c
  | Grp name r1 =>
      exists c1, den r1 i s c j s' c1 /\ c' = (name, firstn (j - i) s) :: c1
  end.

(** A pattern without a named group. *)
Fixpoint groupless (r : regex) : bool :=
  match r with
  | Cat r1 r2 => groupless r1 && groupless r2
  | Opt r1 => groupless r1
  | Grp _ _ => false
  | _ => true
  end.

(** An arXiv identifier, [YYMM.NNNNN]: the digits [y1 y2] of the year,
    two more digits, a dot and five digits. *)
Definition arxiv_identifier (y1 y2 : N) (id : jsstring) : Prop :=
  exists m1 m2 n1 n2 n3 n4 n5,
    id = [y1; y2; m1; m2; 46; n1; n2; n3; n4; n5]%N
    /\ forallb is_digit [y1; y2; m1; m2; n1; n2; n3; n4; n5] = true.

(** The numeric value of a digit. *)
Definition digit_of (c : N) : Z := Z.of_N c - 48.

(** A field is linked when linking is asked for and the key is one of the
    two in [LINKED_FIELDS]. *)
Definition linked (link : bool) (key : jsstring) : Prop :=
  link = true /\ (key = lit "journal" \/ key = lit "publisher").

(** The keys that get a line of their own. *)
Definition is_field (key : jsstring) : bool :=
  negb (jseqb key (lit "authors") || jseqb key (lit "type")).

(** An author as the text shows it, whatever [link] is. *)
Definition author_shown (author : value) (shown : jsstring) : Prop :=
  exists l f,
    get author "last" = Ok l /\ get author "first" = Ok f
    /\ shown = lit "[[" ++ to_string l ++ lit ", " ++ to_string f ++ lit "]]".

(** The authors of a Crossref payload as the DOI normalizer stores them:
    [given] as [first] and [family] as [last], one object for each element
    of [payload.author]. *)
Definition doi_authors (payload : value) (authors : list value) : Prop :=
  exists payload_author items,
    get payload "author" = Ok payload_author
    /\ iterate payload_author = Ok items
    /\ Forall2 (fun author o =>
                  exists given family,
                    get author "given" = Ok given
                    /\ get author "family" = Ok family
                    /\ o = VObj [(lit "first", given); (lit "last", family)])
               items authors.

(** [payload.issued['date-parts'][0][0]]. *)
Definition doi_year (payload : value) (year : value) : Prop :=
  exists issued date_parts date_part,
    get payload "issued" = Ok issued
    /\ get issued "date-parts" = Ok date_parts
    /\ get_index date_parts 0 = Ok date_part
    /\ get_index date_part 0 = Ok year.

(** [payload['journal-issue'].issue]. *)
Definition doi_issue (payload : value) (issue : value) : Prop :=
  exists journal_issue,
    get payload "journal-issue" = Ok journal_issue
    /\ get journal_issue "issue" = Ok issue.

(** The query is answered from the cache: it is not empty and it is the
    query the last suggestions were fetched for. *)
Definition cached (this : ReferenceModal) (query : jsstring) : Prop :=
  query <> [] /\ lastQuery this = Some query.

(** A DOI as the DOI pattern captures it: [10.], four digits, a slash and
    the rest of the line. *)
Definition doi_identifier (id : jsstring) : Prop :=
  exists d1 d2 d3 d4 rest,
    id = [49; 48; 46; d1; d2; d3; d4; 47]%N ++ rest
    /\ forallb is_digit [d1; d2; d3; d4] = true
    /\ forallb is_dot rest = true.

Definition arxiv_endpoint : jsstring :=
  lit "https://export.arxiv.org/api/query?id_list=".

Definition crossref_endpoint : jsstring := lit "https://data.crossref.org/".

(* ================================================================== *)
(** ** Examples *)

(** A reference as the arXiv normalizer builds it. *)
Definition ex_author : value :=
  VObj [(lit "first", VStr (lit "Ada")); (lit "last", VStr (lit "Lovelace"))].

Definition ex_reference : Reference :=
  [(lit "type", VStr (lit "article"));
   (lit "authors", VArr [ex_author]);
   (lit "year", VNum (Int 2021));
   (lit "title", VStr (lit "Notes"));
   (lit "journal", VStr (lit "arXiv"));
   (lit "arxiv", VStr (lit "2101.00001"));
   (lit "pages", VStr (lit "2101.00001"))].

Definition ex_formatted : jsstring :=
  Eval vm_compute in
    match formatReference ex_reference true with
    | Ok s => s
    | Throw _ => []
    end.

(** The note written for it, as the one section of its file. *)
Definition ex_section : MarkdownSectionInformation :=
  {| text := fenced ex_formatted; lineStart := 0; lineEnd := 9 |}.

Definition ex_el : node := Element (lit "div") [Text (fenced ex_formatted)].

(** A section that is a fence with white space around its body, and one
    that is not a fence. *)
Definition ex_fence_section : MarkdownSectionInformation :=
  {| text := lit "intro" ++ [CR; LF] ++ lit "^^^  " ++ [LF] ++ lit "a b"
             ++ [LF] ++ lit " ^^^" ++ [LF] ++ lit "outro";
     lineStart := 1; lineEnd := 3 |}.

Definition ex_plain_section : MarkdownSectionInformation :=
  {| text := lit "^^^ a b"; lineStart := 0; lineEnd := 0 |}.

(** An entry of an arXiv response whose second author goes by one name. *)
Definition ex_entry : node :=
  Element (lit "entry")
    [Element (lit "title") [Text (lit "Notes")];
     Element (lit "author") [Element (lit "name") [Text (lit "Ada Lovelace")]];
     Element (lit "author") [Element (lit "name") [Text (lit "Plato")]]].

Definition ex_mononym : node :=
  Element (lit "author") [Element (lit "name") [Text (lit "Plato")]].

Definition ex_entry_reference : Reference :=
  [(lit "type", VStr (lit "article"));
   (lit "authors", VArr [ex_author; VNull]);
   (lit "year", VNum (Int 2021));
   (lit "title", VStr (lit "Notes"));
   (lit "journal", VStr (lit "arXiv"));
   (lit "arxiv", VStr (lit "2101.00001"));
   (lit "pages", VStr (lit "2101.00001"))].

(** A modal that has just been opened, a query, and the response of the
    arXiv API to it. *)
Definition ex_modal : ReferenceModal := modal (opened (lit "No results found.")).

Definition ex_arxiv_query : jsstring := lit "https://arxiv.org/abs/2101.00001".

Definition ex_arxiv_request : request :=
  {| url := lit "https://export.arxiv.org/api/query?id_list=2101.00001";
     accept_header := None;
     then_ := ArxivCallback ex_arxiv_query (VStr (lit "2101.00001")) |}.

Definition ex_arxiv_response : response :=
  {| document :=
       Element []
         [Element (lit "feed")
            [Element (lit "title") [Text (lit "ArXiv Query")]; ex_entry]];
     json := Throw SyntaxError |}.

Definition ex_arxiv_match : match_result :=
  MatchResult 0 32 [("identifier"%string, lit "2101.00001")].

(** A Crossref payload of a type the lookup does not know, as the
    Crossref API names journal articles. *)
Definition ex_doi_payload : value :=
  VObj [(lit "type", VStr (lit "journal-article"));
        (lit "title", VStr (lit "Notes"));
        (lit "author",
         VArr [VObj [(lit "given", VStr (lit "Ada"));
                     (lit "family", VStr (lit "Lovelace"))]]);
        (lit "issued",
         VObj [(lit "date-parts", VArr [VArr [VNum (Int 1843); VNum (Int 9)]])]);
        (lit "container-title", VStr (lit "Scientific Memoirs"));
        (lit "volume", VStr (lit "3"));
        (lit "page", VStr (lit "666-731"));
        (lit "journal-issue", VObj [(lit "issue", VStr (lit "1"))])].

Definition ex_doi_reference : Reference :=
  [(lit "title", VStr (lit "Notes"));
   (lit "authors", VArr [ex_author]);
   (lit "type", VUndef);
   (lit "year", VNum (Int 1843));
   (lit "doi", VStr (lit "10.1000/182"))].

(** The same payload under the type name the lookup knows. *)
Definition ex_csl_payload : value :=
  VObj (set_own (match ex_doi_payload with VObj o => o | _ => [] end)
                (lit "type") (VStr (lit "article-journal"))).

Definition ex_csl_reference : Reference :=
  [(lit "title", VStr (lit "Notes"));
   (lit "authors", VArr [ex_author]);
   (lit "type", VStr (lit "article"));
   (lit "year", VNum (Int 1843));
   (lit "doi", VStr (lit "10.1000/182"));
   (lit "journal", VStr (lit "Scientific Memoirs"));
   (lit "volume", VStr (lit "3"));
   (lit "pages", VStr (lit "666-731"));
   (lit "number", VStr (lit "1"))].

(** The modal once the response to the arXiv query has been dispatched,
    and while two requests are on their way. *)
Definition ex_answered : world :=
  run (opened (lit "No results found."))
      [Call ex_arxiv_query; Fulfil 0 ex_arxiv_response].

Definition ex_second_query : jsstring := lit "arXiv:2101.00002".

Definition ex_two_calls : list event :=
  [Call ex_arxiv_query; Call ex_second_query].

Definition ex_doi_query : jsstring := lit "doi:10.1000/182".

(** A vault that keeps the kind of what is at each path, and creates
    whatever it is asked to create. *)
Definition ex_vault : Type := list (jsstring * TAbstractFile).

Fixpoint ex_getAbstractFileByPath (v : ex_vault) (path : jsstring)
  : option TAbstractFile :=
  match v with
  | [] => None
  | (p, f) :: v' => if jseqb p path then Some f else ex_getAbstractFileByPath v' path
  end.

Definition ex_createFolder (v : ex_vault) (path : jsstring) : result ex_vault :=
  Ok ((path, TFolder) :: v).

Definition ex_create (v : ex_vault) (path data : jsstring) : result ex_vault :=
  Ok ((path, TFile) :: v).

(* ================================================================== *)
(** ** Vocabulary of the further statements *)

(** White space removed at the end, as [trimStart] removes it at the
    start. *)
Definition trimEnd (s : jsstring) : jsstring := rev (trimStart (rev s)).

(** What is left of a text once a closing fence, if it ends in one, has
    been taken off together with the white space before it. *)
Definition drop_close (u : jsstring) : jsstring :=
  if endsWith u (lit "^^^")
  then trimEnd (firstn (List.length u - 3) u)
  else u.

(** A text with every carriage-return-line-feed pair turned into a line
    feed. *)
Fixpoint normalize_newlines (s : jsstring) : jsstring :=
  match s with
  | [] => []
  | c :: s' =>
      if N.eqb c CR then
        match s' with
        | d :: s'' =>
            if N.eqb d LF then LF :: normalize_newlines s''
            else c :: normalize_newlines s'
        | [] => [c]
        end
      else c :: normalize_newlines s'
  end.

(** A text holds a carriage return right before a line feed. *)
Fixpoint has_crlf (s : jsstring) : bool :=
  match s with
  | [] => false
  | c :: s' =>
      match s' with
      | d :: _ => (N.eqb c CR && N.eqb d LF) || has_crlf s'
      | [] => false
      end
  end.

(** The ways to write an arXiv identifier that the arXiv pattern is meant
    for: bare, behind [arXiv:], or as the address of its abstract or PDF
    page (any three word characters for [abs] or [pdf]); and what may
    follow it: nothing, or any character but a line terminator and then
    [pdf]. *)
Definition arxiv_prefix (p : jsstring) : Prop :=
  p = [] \/ p = lit "arXiv:"
  \/ exists a b c,
      forallb is_word [a; b; c] = true
      /\ (p = lit "https://arxiv.org/" ++ [a; b; c] ++ lit "/"
          \/ p = lit "http://arxiv.org/" ++ [a; b; c] ++ lit "/").

Definition pdf_suffix (x : jsstring) : Prop :=
  x = [] \/ exists c, is_dot c = true /\ x = c :: lit "pdf".

(** The ways to write a DOI that the DOI pattern is meant for. *)
Definition doi_prefix (p : jsstring) : Prop :=
  In p [[]; lit "doi:";
        lit "https://doi.org/"; lit "http://doi.org/";
        lit "https://dx.doi.org/"; lit "http://dx.doi.org/"].

(** What follows the first name in the author pattern. *)
Definition author_rest : regex :=
  Seq [Plus true is_space; Grp "last" (Plus true is_nonspace); Eol].

(** An author element as the note shows it, when its text matches the
    author pattern. *)
Definition author_link (author : node) : jsstring :=
  match str_match (trim (textContent author)) arxivAuthorPattern with
  | Some m =>
      lit "[[" ++ to_string (group_value m "last") ++ lit ", "
          ++ to_string (group_value m "first") ++ lit "]]"
  | None => []
  end.

(** The query of a callback. *)
Definition callback_query (cb : callback) : jsstring :=
  match cb with
  | ArxivCallback query _ => query
  | DoiCallback query _ => query
  end.

(** A request as [getSuggestions] sends them: for a query that matches
    the pattern of its callback, to the endpoint of that pattern, for the
    identifier captured. *)
Definition request_sound (rq : request) : Prop :=
  match then_ rq with
  | ArxivCallback query identifier =>
      exists m y1 y2 id,
        str_match query arxivPattern = Some m
        /\ group_value m "identifier" = VStr id
        /\ arxiv_identifier y1 y2 id
        /\ identifier = VStr id
        /\ url rq = arxiv_endpoint ++ id
        /\ accept_header rq = None
  | DoiCallback query identifier =>
      exists m id,
        str_match query arxivPattern = None
        /\ str_match query doiPattern = Some m
        /\ group_value m "identifier" = VStr id
        /\ doi_identifier id
        /\ identifier = VStr id
        /\ url rq = crossref_endpoint ++ id
        /\ accept_header rq = Some (lit "application/json")
  end.

(** A cache as the callbacks fill it: empty, or for a query that matches
    one of the patterns. *)
Definition cache_sound (this : ReferenceModal) : Prop :=
  match lastQuery this with
  | None => lastSuggestions this = []
  | Some query =>
      str_match query arxivPattern <> None
      \/ str_match query doiPattern <> None
  end.

Definition world_sound (w : world) : Prop :=
  Forall request_sound (pending w) /\ cache_sound (modal w).

(** A line break after a text: a line feed, where the text does not end
    in a carriage return, or a carriage return and a line feed. *)
Definition line_break (a sep : jsstring) : Prop :=
  (sep = [LF] /\ forall a', a <> a' ++ [CR]) \/ sep = [CR; LF].

(** An element of [payload.author] as the note shows it. *)
Definition doi_author_link (author : value) : jsstring :=
  match get author "family", get author "given" with
  | Ok family, Ok given =>
      lit "[[" ++ to_string family ++ lit ", " ++ to_string given ++ lit "]]"
  | _, _ => []
  end.

(** [ToString] completes on a value unless it comes to an object with an
    own property [toString]: no value here can be called, so that
    property is no method, and the conversion throws a [TypeError]. An
    array converts its elements, [null] and [undefined] apart. *)
Fixpoint convertible (v : value) : bool :=
  match v with
  | VArr l => forallb convertible l
  | VObj o => negb (has_own o (lit "toString"))
  | _ => true
  end.

(** The integers that a Number holds exactly and prints digit by digit. *)
Definition safe_integer (n : number) : bool :=
  match n with
  | Int z => (Z.abs z <? 2 ^ 53)%Z
  | NaN => true
  end.

(** The values on which [to_string] is what [ToString] gives: those that
    convert, with no number in them beyond the safe integers. *)
Fixpoint printable (v : value) : bool :=
  match v with
  | VNum n => safe_integer n
  | VArr l => forallb printable l
  | VObj o => negb (has_own o (lit "toString"))
  | _ => true
  end.

(** The values that [formatReference] converts to strings: the type, the
    names of the authors and the fields. *)
Definition author_names (author : value) : list value :=
  match author with
  | VObj o => [get_own o (lit "last"); get_own o (lit "first")]
  | _ => []
  end.

Definition printed (reference : Reference) : list value :=
  get_own reference (lit "type")
  :: match get_own reference (lit "authors") with
     | VArr authors => flat_map author_names authors
     | _ => []
     end
  ++ map (get_own reference) (filter is_field (keys reference)).

(** The names under which every object finds a property of
    [Object.prototype]. *)
Definition Object_prototype_keys : list jsstring :=
  [lit "constructor"; lit "__defineGetter__"; lit "__defineSetter__";
   lit "hasOwnProperty"; lit "__lookupGetter__"; lit "__lookupSetter__";
   lit "isPrototypeOf"; lit "propertyIsEnumerable"; lit "toString";
   lit "valueOf"; lit "__proto__"; lit "toLocaleString"].

(** A Crossref type for which [DOI_TYPE_LOOKUP[type]] reads the table and
    nothing else: it converts to a property key, and the key is not a
    name that the table inherits. *)
Definition plain_key (key : value) : Prop :=
  printable key = true /\ ~ In (to_string key) Object_prototype_keys.

(* ================================================================== *)
(** ** Further examples *)

(** A world with one request on its way, for the arXiv and for the DOI
    query, and responses that make the callbacks throw. *)
Definition ex_pending : world :=
  step (opened (lit "No results found.")) (Call ex_arxiv_query).

Definition ex_untitled_entry : node :=
  Element (lit "entry")
    [Element (lit "author") [Element (lit "name") [Text (lit "Ada Lovelace")]]].

Definition ex_untitled_response : response :=
  {| document := Element [] [Element (lit "feed") [ex_entry; ex_untitled_entry]];
     json := Throw SyntaxError |}.

Definition ex_doi_pending : world :=
  step (opened (lit "No results found.")) (Call ex_doi_query).

Definition ex_doi_request : request :=
  {| url := lit "https://data.crossref.org/10.1000/182";
     accept_header := Some (lit "application/json");
     then_ := DoiCallback ex_doi_query (VStr (lit "10.1000/182")) |}.

Definition ex_issueless_payload : value :=
  VObj [(lit "type", VStr (lit "article-journal"));
        (lit "title", VStr (lit "Notes"));
        (lit "author", VArr []);
        (lit "issued", VObj [(lit "date-parts", VArr [VArr [VNum (Int 1843)]])])].


(* ================================================================== *)
(** * Properties *)

Unset Implicit Arguments.

(** ** Strings *)

Lemma jseqb_refl (a : jsstring) : jseqb a a = true.
Proof.
  induction a as [|x a IH]; simpl; [reflexivity|].
  now rewrite N.eqb_refl, IH.
Qed.

Lemma jseqb_eq (a b : jsstring) : jseqb a b = true <-> a = b.
Proof.
  split; [|intros ->; apply jseqb_refl].
  revert b; induction a as [|x a IH]; intros [|y b]; simpl; try easy.
  intros H. apply andb_true_iff in H as [Hx Hab].
  apply N.eqb_eq in Hx. f_equal; auto.
Qed.

Lemma jseqb_neq (a b : jsstring) : jseqb a b = false <-> a <> b.
Proof.
  rewrite <- jseqb_eq. destruct (jseqb a b); split; congruence.
Qed.

Lemma startsWith_app (p s : jsstring) : startsWith (p ++ s) p = true.
Proof.
  induction p as [|x p IH]; simpl; [reflexivity|].
  now rewrite N.eqb_refl, IH.
Qed.

Lemma endsWith_app (s p : jsstring) : endsWith (s ++ p) p = true.
Proof.
  unfold endsWith. rewrite rev_app_distr. apply startsWith_app.
Qed.

Lemma ends_clean_snoc (s : jsstring) (c : N) :
  ends_clean (s ++ [c]) = negb (is_space c).
Proof.
  unfold ends_clean. now rewrite rev_app_distr.
Qed.

Lemma ends_clean_suffix (a c : jsstring) :
  c <> [] -> ends_clean (a ++ c) = true -> forallb is_space c = false.
Proof.
  intros Hc. destruct (exists_last Hc) as (c' & x & ->).
  rewrite app_assoc, ends_clean_snoc, forallb_app. simpl.
  intros H. apply negb_true_iff in H. rewrite H.
  now rewrite andb_false_r.
Qed.

(** ** The matcher *)

Section MatcherFacts.
Variable A : Type.
Variable p : N -> bool.
Variable k : nat -> jsstring -> option A.

(** A greedy star takes the whole run when what follows then matches. *)
Lemma star_greedy_longest (w t : jsstring) (i : nat) (x : A) :
  forallb p w = true ->
  match t with c :: _ => p c = false | [] => True end ->
  k (i + List.length w) t = Some x ->
  star_greedy p i (w ++ t) k = Some x.
Proof.
  revert i. induction w as [|c w IH]; intros i Hw Ht Hk.
  - simpl in *. rewrite Nat.add_0_r in Hk.
    destruct t as [|c t]; simpl; [assumption|]. now rewrite Ht.
  - simpl in Hw. apply andb_true_iff in Hw as [Hc Hw].
    simpl. rewrite Hc. rewrite (IH (S i)); auto.
    simpl in Hk. now rewrite Nat.add_succ_r in Hk.
Qed.

(** Only the values of the continuation matter. *)
Lemma star_greedy_ext (k' : nat -> jsstring -> option A) (s : jsstring) (i : nat) :
  (forall j t, k j t = k' j t) ->
  star_greedy p i s k = star_greedy p i s k'.
Proof.
  intros E. revert i. induction s as [|c s IH]; intros i; simpl.
  - apply E.
  - rewrite IH, E. reflexivity.
Qed.

(** A greedy star fails when what follows matches after no run. *)
Lemma star_greedy_none (s : jsstring) (i : nat) :
  (forall w t, s = w ++ t -> forallb p w = true ->
               k (i + List.length w) t = None) ->
  star_greedy p i s k = None.
Proof.
  revert i. induction s as [|c s IH]; intros i H.
  - simpl. specialize (H [] [] eq_refl eq_refl).
    simpl in H. now rewrite Nat.add_0_r in H.
  - assert (H0 : k i (c :: s) = None).
    { specialize (H [] (c :: s) eq_refl eq_refl).
      simpl in H. now rewrite Nat.add_0_r in H. }
    simpl. destruct (p c) eqn:Hc; [|assumption].
    rewrite IH; [assumption|].
    intros w t -> Hw. specialize (H (c :: w) t eq_refl).
    simpl in H. rewrite Hc, Hw in H. specialize (H eq_refl).
    now rewrite Nat.add_succ_r in H.
Qed.
End MatcherFacts.

(** The search stops where the pattern matches. *)
Lemma search_found (r : regex) (s : jsstring) (i : nat) (m : match_result) :
  rmatch r i s [] (accept i) = Some m -> search r i s = Some m.
Proof.
  intros H. destruct s; simpl; now rewrite H.
Qed.

(** The search moves past a prefix in which the pattern matches nowhere. *)
Lemma search_skip (r : regex) (pre t : jsstring) (i : nat) :
  (forall a c, pre = a ++ c -> c <> [] ->
               rmatch r (i + List.length a) (c ++ t) [] (accept (i + List.length a))
               = None) ->
  search r i (pre ++ t) = search r (i + List.length pre) t.
Proof.
  revert i. induction pre as [|x pre IH]; intros i H.
  - simpl. now rewrite Nat.add_0_r.
  - assert (H0 := H [] (x :: pre) eq_refl ltac:(discriminate)).
    simpl in H0. rewrite Nat.add_0_r in H0.
    change ((x :: pre) ++ t) with (x :: pre ++ t).
    cbn [search]. rewrite H0. rewrite IH.
    + simpl. now rewrite Nat.add_succ_r.
    + intros a c -> Hc. specialize (H (x :: a) c eq_refl Hc).
      simpl in H. now rewrite Nat.add_succ_r in H.
Qed.

(** ** The fences *)

(** What follows the white space in the closing fence. *)
Lemma close_tail (i j : nat) (t : jsstring) :
  rmatch (Seq [Rep 3 (Lit "^"); Eol]) j t [] (accept i)
  = if jseqb t carets then Some (MatchResult i (j + 3) []) else None.
Proof.
  destruct t as [|a [|b [|c [|d t]]]]; cbn; try reflexivity;
    unfold is_char;
    repeat match goal with
           | |- context [N.eqb ?x 94] => destruct (N.eqb x 94); cbn
           end; try reflexivity.
  now replace (j + 3) with (S (S (S j))) by lia.
Qed.

Lemma rmatch_close (i : nat) (s : jsstring) :
  rmatch fenceClosePattern i s [] (accept i)
  = star_greedy is_space i s
      (fun j t => if jseqb t carets then Some (MatchResult i (j + 3) []) else None).
Proof.
  change (rmatch fenceClosePattern i s [] (accept i))
    with (star_greedy is_space i s
            (fun j t => rmatch (Seq [Rep 3 (Lit "^"); Eol]) j t [] (accept i))).
  apply star_greedy_ext. intros j t. apply close_tail.
Qed.

(** The closing pattern matches white space followed by the carets. *)
Lemma close_matches (i : nat) (w : jsstring) :
  forallb is_space w = true ->
  rmatch fenceClosePattern i (w ++ carets) [] (accept i)
  = Some (MatchResult i (i + List.length w + 3) []).
Proof.
  intros Hw. rewrite rmatch_close.
  apply star_greedy_longest; auto; reflexivity.
Qed.

(** It matches nothing else. *)
Lemma close_fails (i : nat) (s : jsstring) :
  (forall w, s = w ++ carets -> forallb is_space w = false) ->
  rmatch fenceClosePattern i s [] (accept i) = None.
Proof.
  intros H. rewrite rmatch_close. apply star_greedy_none.
  intros w t -> Hw. destruct (jseqb t carets) eqn:Ht; [|reflexivity].
  apply jseqb_eq in Ht. subst t. rewrite (H w eq_refl) in Hw. discriminate.
Qed.

(** Cutting the closing fence off a body that does not end in white
    space gives the body back. *)
Lemma strip_close (b w : jsstring) :
  ends_clean b = true -> forallb is_space w = true ->
  replace_empty (b ++ w ++ carets) fenceClosePattern = b.
Proof.
  intros Hb Hw. unfold replace_empty.
  rewrite search_skip.
  - simpl (0 + _).
    erewrite search_found by (apply close_matches; exact Hw).
    cbn [m_start m_end]. rewrite firstn_app, firstn_all, Nat.sub_diag.
    cbn [firstn]. rewrite app_nil_r.
    rewrite skipn_all2; [now rewrite app_nil_r|].
    rewrite !length_app. simpl. lia.
  - intros a c -> Hc. apply close_fails. intros w' E.
    rewrite app_assoc in E. apply app_inv_tail in E. subst w'.
    rewrite forallb_app, (ends_clean_suffix a c Hc Hb). reflexivity.
Qed.

(** Cutting the opening fence takes the white space after it along. *)
Lemma strip_open (w t : jsstring) :
  forallb is_space w = true -> starts_clean t = true ->
  replace_empty (carets ++ w ++ t) fenceOpenPattern = t.
Proof.
  intros Hw Ht. unfold replace_empty.
  assert (E : search fenceOpenPattern 0 (carets ++ w ++ t)
              = Some (MatchResult 0 (3 + List.length w) [])).
  { cbn [carets lit list_ascii_of_string map app search].
    change (rmatch fenceOpenPattern 0
              (N_of_ascii "^" :: N_of_ascii "^" :: N_of_ascii "^" :: w ++ t) []
              (accept 0))
      with (star_greedy is_space 3 (w ++ t)
              (fun j _ => Some (MatchResult 0 j []))).
    rewrite (star_greedy_longest _ is_space
               (fun j _ => Some (MatchResult 0 j []))
               w t 3 (MatchResult 0 (3 + List.length w) [])); auto.
    destruct t as [|c t]; [exact I|].
    simpl in Ht. now apply negb_true_iff in Ht. }
  rewrite E. cbn [m_start m_end firstn app].
  change (carets ++ w ++ t) with (lit "^^^" ++ w ++ t).
  rewrite app_assoc, skipn_app.
  rewrite skipn_all2 by (rewrite length_app; simpl; lia).
  rewrite length_app. simpl List.length.
  replace (3 + List.length w - (3 + List.length w)) with 0 by lia.
  reflexivity.
Qed.

(** The two cuts, on a fenced body with white space on either side. *)
Lemma strip_fence_body (w1 b w2 : jsstring) :
  forallb is_space w1 = true -> forallb is_space w2 = true ->
  starts_clean b = true -> ends_clean b = true ->
  strip_fence (carets ++ w1 ++ b ++ w2 ++ carets) = b.
Proof.
  intros H1 H2 Hs He. unfold strip_fence.
  destruct b as [|c b].
  - change ([] ++ w2 ++ carets) with (w2 ++ carets).
    replace (w1 ++ w2 ++ carets) with ((w1 ++ w2) ++ carets)
      by now rewrite <- app_assoc.
    rewrite strip_open; [|now rewrite forallb_app, H1, H2|reflexivity].
    apply (strip_close [] []); reflexivity.
  - rewrite strip_open; auto. now apply strip_close.
Qed.

(** ** What a match consumes and captures *)

Section StarInversion.
Variable A : Type.
Variable p : N -> bool.
Variable k : nat -> jsstring -> option A.

Lemma star_greedy_inv (s : jsstring) (i : nat) (x : A) :
  star_greedy p i s k = Some x ->
  exists w t, s = w ++ t /\ forallb p w = true
              /\ k (i + List.length w) t = Some x.
Proof.
  revert i. induction s as [|c s IH]; intros i H; simpl in H.
  - exists [], []. simpl. now rewrite Nat.add_0_r.
  - destruct (p c) eqn:Hc.
    + destruct (star_greedy p (S i) s k) eqn:Hs.
      * injection H as ->. apply IH in Hs as (w & t & -> & Hw & Hk).
        exists (c :: w), t. simpl. rewrite Hc, Hw.
        now rewrite Nat.add_succ_r.
      * exists [], (c :: s). simpl. now rewrite Nat.add_0_r.
    + exists [], (c :: s). simpl. now rewrite Nat.add_0_r.
Qed.

Lemma star_lazy_inv (s : jsstring) (i : nat) (x : A) :
  star_lazy p i s k = Some x ->
  exists w t, s = w ++ t /\ forallb p w = true
              /\ k (i + List.length w) t = Some x.
Proof.
  revert i. induction s as [|c s IH]; intros i H; simpl in H.
  - exists [], []. simpl. rewrite Nat.add_0_r.
    destruct (k i []); [auto|discriminate].
  - destruct (k i (c :: s)) eqn:Hk.
    + injection H as ->. exists [], (c :: s). simpl.
      now rewrite Nat.add_0_r.
    + destruct (p c) eqn:Hc; [|discriminate].
      apply IH in H as (w & t & -> & Hw & Hk').
      exists (c :: w), t. simpl. rewrite Hc, Hw.
      now rewrite Nat.add_succ_r.
Qed.
End StarInversion.

(** Whatever the matcher returns, it returns through its continuation,
    called where [den] says. *)
Lemma rmatch_inv (A : Type) (r : regex) :
  forall (i : nat) (s : jsstring) (c : captures) (k : cont A) (x : A),
    rmatch r i s c k = Some x ->
    exists j s' c', den r i s c j s' c' /\ k j s' c' = Some x.
Proof.
  induction r as [| | |p|r1 IH1 r2 IH2|r1 IH1|g p|name r1 IH1];
    intros i s c k x H; cbn [rmatch] in H.
  - exists i, s, c. simpl. auto.
  - destruct (Nat.eqb i 0) eqn:Hi; [|discriminate].
    apply Nat.eqb_eq in Hi. exists i, s, c. simpl. auto.
  - destruct s; [|discriminate]. exists i, [], c. simpl. auto.
  - destruct s as [|ch s]; [discriminate|].
    destruct (p ch) eqn:Hp; [|discriminate].
    exists (S i), s, c. split; [|assumption]. exists ch. auto.
  - apply IH1 in H as (j1 & s1 & c1 & D1 & H).
    apply IH2 in H as (j & s' & c' & D2 & H).
    exists j, s', c'. split; [|assumption]. exists j1, s1, c1. auto.
  - destruct (rmatch r1 i s c k) eqn:H1.
    + injection H as ->. apply IH1 in H1 as (j & s' & c' & D & H).
      exists j, s', c'. simpl. auto.
    + exists i, s, c. simpl. auto.
  - destruct g.
    + apply star_greedy_inv in H as (w & t & -> & Hw & H).
      exists (i + List.length w), t, c. split; [|assumption].
      exists w. auto.
    + apply star_lazy_inv in H as (w & t & -> & Hw & H).
      exists (i + List.length w), t, c. split; [|assumption].
      exists w. auto.
  - apply IH1 in H as (j & s' & c' & D & H).
    exists j, s', ((name, firstn (j - i) s) :: c'). split; [|assumption].
    exists c'. auto.
Qed.

(** A match found by the search is a match of the pattern somewhere. *)
Lemma search_inv (r : regex) (s : jsstring) :
  forall (i : nat) (m : match_result),
    search r i s = Some m ->
    exists i' s0 j s' c',
      den r i' s0 [] j s' c' /\ m = MatchResult i' j c'.
Proof.
  induction s as [|ch s IH]; intros i m H; simpl in H.
  - destruct (rmatch r i [] [] (accept i)) eqn:E; [|discriminate].
    injection H as ->. apply rmatch_inv in E as (j & s' & c' & D & E).
    injection E as <-. now exists i, [], j, s', c'.
  - destruct (rmatch r i (ch :: s) [] (accept i)) eqn:E.
    + injection H as ->. apply rmatch_inv in E as (j & s' & c' & D & E).
      injection E as <-. now exists i, (ch :: s), j, s', c'.
    + now apply IH in H.
Qed.

(** A pattern without groups leaves the captures alone. *)
Lemma den_groupless (r : regex) :
  groupless r = true ->
  forall i s c j s' c', den r i s c j s' c' -> c' = c.
Proof.
  induction r as [| | |p|r1 IH1 r2 IH2|r1 IH1|g p|name r1 IH1];
    intros G i s c j s' c' D; simpl in *.
  - tauto.
  - tauto.
  - tauto.
  - destruct D as (ch & _ & _ & _ & D). exact D.
  - apply andb_true_iff in G as [G1 G2].
    destruct D as (j1 & s1 & c1 & D1 & D2).
    apply IH1 in D1; auto. apply IH2 in D2; auto. congruence.
  - destruct D as [D|D]; [eapply IH1; eauto|tauto].
  - destruct D as (w & _ & _ & _ & D). exact D.
  - discriminate.
Qed.

(** ** The arXiv pattern captures an arXiv identifier *)

Lemma den_identifier (o1 o2 o3 : regex) (i j : nat) (s s' : jsstring)
      (c' : captures) :
  groupless o1 = true -> groupless o2 = true -> groupless o3 = true ->
  den (Seq [Bol; o1; o2;
            Grp "identifier"
                (Seq [Rep 4 (Cls is_digit); Liti "."; Rep 5 (Cls is_digit)]);
            o3; Eol]) i s [] j s' c' ->
  exists y1 y2 id, arxiv_identifier y1 y2 id /\ c' = [("identifier"%string, id)].
Proof.
  intros G1 G2 G3 D. cbn [Seq fold_right den] in D.
  destruct D as (j0 & s0 & c0 & (_ & -> & -> & ->) & D).
  destruct D as (j1 & s1 & c1 & D1 & D).
  apply (den_groupless _ G1) in D1. subst c1.
  destruct D as (j2 & s2 & c2 & D2 & D).
  apply (den_groupless _ G2) in D2. subst c2.
  destruct D as (j3 & s3 & c3 & (c & DG & ->) & D).
  destruct D as (j4 & s4 & c4 & D3 & D).
  apply (den_groupless _ G3) in D3. subst c4.
  destruct D as (j5 & s5 & c5 & (_ & _ & _ & ->) & (_ & _ & ->)).
  cbn in DG.
  repeat match goal with
         | H : exists _, _ |- _ => destruct H
         | H : _ /\ _ |- _ => destruct H
         end.
  subst.
  match goal with
  | H : N.eqb ?x 46 = true |- _ => apply N.eqb_eq in H; subst x
  end.
  match goal with
  | |- context [firstn ?n _] => replace n with 10 by lia
  end.
  cbn [firstn].
  do 3 eexists. split; [|reflexivity].
  do 7 eexists. split; [reflexivity|].
  cbn [forallb].
  repeat match goal with
         | H : is_digit _ = true |- _ => rewrite H; clear H
         end.
  reflexivity.
Qed.

Lemma arxiv_match_identifier (query : jsstring) (m : match_result) :
  str_match query arxivPattern = Some m ->
  exists y1 y2 id,
    arxiv_identifier y1 y2 id /\ group_value m "identifier" = VStr id.
Proof.
  intros H. apply search_inv in H as (i & s0 & j & s' & c' & D & ->).
  unfold arxivPattern in D.
  apply den_identifier in D as (y1 & y2 & id & Hid & ->); try reflexivity.
  now exists y1, y2, id.
Qed.

(** ** Helpers on the error monad *)

Lemma bind_Ok (A B : Type) (m : result A) (f : A -> result B) (b : B) :
  bind m f = Ok b -> exists a, m = Ok a /\ f a = Ok b.
Proof.
  destruct m as [a|e]; simpl; [|discriminate]. intros H. now exists a.
Qed.

Lemma mapM_Ok (A B : Type) (f : A -> result B) (l : list A) (l' : list B) :
  mapM f l = Ok l' -> Forall2 (fun x y => f x = Ok y) l l'.
Proof.
  revert l'. induction l as [|x l IH]; intros l' H; simpl in H.
  - injection H as <-. constructor.
  - apply bind_Ok in H as (y & Hy & H).
    apply bind_Ok in H as (ys & Hys & H).
    injection H as <-. constructor; auto.
Qed.

Lemma mapM_total (A B : Type) (f : A -> result B) (l : list A) :
  Forall (fun x => exists y, f x = Ok y) l -> exists l', mapM f l = Ok l'.
Proof.
  induction 1 as [|x l (y & Hy) _ (l' & Hl')]; simpl.
  - now exists [].
  - rewrite Hy, Hl'. simpl. now exists (y :: l').
Qed.

(** ** Digits *)

Lemma digit_cases (c : N) :
  is_digit c = true ->
  (c = 48 \/ c = 49 \/ c = 50 \/ c = 51 \/ c = 52 \/ c = 53 \/ c = 54
   \/ c = 55 \/ c = 56 \/ c = 57)%N.
Proof.
  unfold is_digit. intros H. apply andb_true_iff in H as [H1 H2].
  apply N.leb_le in H1, H2. lia.
Qed.

(** [parseInt] of two digits is their value in base ten. *)
Lemma parseInt_two_digits (y1 y2 : N) :
  is_digit y1 = true -> is_digit y2 = true ->
  parseInt [y1; y2] = Int (10 * digit_of y1 + digit_of y2).
Proof.
  intros H1 H2.
  destruct (digit_cases _ H1) as [->|[->|[->|[->|[->|[->|[->|[->|[->| ->]]]]]]]]];
    destruct (digit_cases _ H2) as [->|[->|[->|[->|[->|[->|[->|[->|[->| ->]]]]]]]]];
    reflexivity.
Qed.

(** ** formatReference *)

(** The text that [formatReference] returns, line by line. *)
Lemma formatReference_lines (r : Reference) (link : bool) (s : jsstring) :
  formatReference r link = Ok s ->
  exists authors,
    format_authors (get_own r (lit "authors")) = Ok authors
    /\ s = join [44; LF; 32; 32]%N
             ((lit "@" ++ to_string (get_own r (lit "type")) ++ lit "{CITEKEY")
              :: (lit "author = { " ++ join (lit " and ") authors ++ lit " }")
              :: field_lines r link (keys r))
           ++ [LF; 125%N].
Proof.
  unfold formatReference. intros H.
  apply bind_Ok in H as (authors & Ha & H). injection H as <-.
  now exists authors.
Qed.

(** It begins with [@] and ends with a closing brace. *)
Lemma formatReference_clean (r : Reference) (link : bool) (s : jsstring) :
  formatReference r link = Ok s ->
  starts_clean s = true /\ ends_clean s = true.
Proof.
  intros H. apply formatReference_lines in H as (authors & _ & ->). split.
  - reflexivity.
  - change [LF; 125%N] with ([LF] ++ [125%N]).
    rewrite app_assoc. now rewrite ends_clean_snoc.
Qed.

(** The fenced text of a note passes the test of the post-processor. *)
Lemma fenced_is_fence (s : jsstring) :
  startsWith (fenced s) (lit "^^^") = true
  /\ endsWith (fenced s) (lit "^^^") = true.
Proof.
  split.
  - apply (startsWith_app (lit "^^^")).
  - unfold fenced. rewrite !app_assoc. apply endsWith_app.
Qed.

(** C1. Round trip between the formatter and the renderer: the note body
    written on selection, ['^^^\n' + formatReference(r, true) + '\n^^^'],
    stripped of its fences the way the post-processor strips them, is
    [formatReference(r, true)] again; and a section that holds this body
    is rendered as a [pre]/[code] pair with exactly that text. *)
Theorem formatter_renderer_roundtrip (r : Reference) (formatted : jsstring) :
  formatReference r true = Ok formatted ->
  strip_fence (fenced formatted) = formatted
  /\ forall el info,
       section_text info = fenced formatted ->
       postprocessor el (Some info) = set_children el (code_block formatted).
Proof.
  intros H. apply formatReference_clean in H as [Hs He].
  assert (E : strip_fence (fenced formatted) = formatted).
  { apply (strip_fence_body [LF] formatted [LF]); auto. }
  split; [exact E|].
  intros el info Ht. unfold postprocessor. rewrite Ht.
  destruct (fenced_is_fence formatted) as [-> ->]. simpl negb. cbn [orb].
  now rewrite E.
Qed.

Lemma formatter_renderer_roundtrip_witness :
  formatReference ex_reference true = Ok ex_formatted
  /\ strip_fence (fenced ex_formatted) = ex_formatted
  /\ postprocessor ex_el (Some ex_section)
     = Element (lit "div")
         [Element (lit "pre") [Element (lit "code") [Text ex_formatted]]].
Proof.
  assert (H : formatReference ex_reference true = Ok ex_formatted)
    by reflexivity.
  split; [exact H|].
  destruct (formatter_renderer_roundtrip ex_reference ex_formatted H)
    as [E P].
  split; [exact E|].
  apply (P ex_el ex_section). reflexivity.
Defined.

(** ** The post-processor *)

(** C4. The post-processor changes nothing unless the section is a caret
    fence: without section information, or when the text of the section
    (its lines [lineStart] to [lineEnd], joined by line feeds) does not
    both start and end with [^^^], the element is returned as it was;
    when the text is such a fence, the content of the element becomes a
    single [pre] holding a single [code] holding the body of the fence,
    which, for a fence with white space around a body that neither
    begins nor ends with white space, is that body. *)
Theorem postprocessor_only_rewrites_fences
        (el : node) (sectionInfo : option MarkdownSectionInformation) :
  match sectionInfo with
  | None => postprocessor el sectionInfo = el
  | Some info =>
      let t := section_text info in
      (startsWith t (lit "^^^") && endsWith t (lit "^^^") = false ->
       postprocessor el sectionInfo = el)
      /\ (startsWith t (lit "^^^") && endsWith t (lit "^^^") = true ->
          postprocessor el sectionInfo
          = set_children el
              [Element (lit "pre")
                 [Element (lit "code") [Text (strip_fence t)]]]
          /\ forall w1 body w2,
               t = lit "^^^" ++ w1 ++ body ++ w2 ++ lit "^^^" ->
               forallb is_space w1 = true -> forallb is_space w2 = true ->
               starts_clean body = true -> ends_clean body = true ->
               strip_fence t = body)
  end.
Proof.
  destruct sectionInfo as [info|]; [|reflexivity].
  cbv zeta. unfold postprocessor.
  destruct (startsWith (section_text info) (lit "^^^"));
    destruct (endsWith (section_text info) (lit "^^^")); cbn [negb orb andb];
    split; intros H; try discriminate; try reflexivity.
  split; [reflexivity|].
  intros w1 body w2 -> H1 H2 Hs He. now apply strip_fence_body.
Qed.

Lemma postprocessor_only_rewrites_fences_witness :
  postprocessor ex_el (Some ex_plain_section) = ex_el
  /\ postprocessor ex_el (Some ex_fence_section)
     = Element (lit "div")
         [Element (lit "pre") [Element (lit "code") [Text (lit "a b")]]].
Proof.
  split.
  - apply (postprocessor_only_rewrites_fences ex_el (Some ex_plain_section)).
    reflexivity.
  - destruct (postprocessor_only_rewrites_fences ex_el (Some ex_fence_section))
      as [_ H].
    destruct (H eq_refl) as [-> B].
    rewrite (B (lit "  " ++ [LF]) (lit "a b") ([LF] ++ lit " "));
      reflexivity.
Defined.

(** ** Linking *)

Lemma field_lines_map (r : Reference) (link : bool) (ks : list jsstring) :
  field_lines r link ks
  = map (fun key => key ++ lit " = { "
                        ++ field_value link key (get_own r key) ++ lit " }")
        (filter is_field ks).
Proof.
  induction ks as [|key ks IH]; [reflexivity|].
  cbn [field_lines filter]. unfold field_line, is_field.
  destruct (jseqb key (lit "authors") || jseqb key (lit "type"));
    cbn [negb map]; now rewrite IH.
Qed.

Lemma contains_linked (key : jsstring) :
  contains LINKED_FIELDS key = true
  <-> key = lit "journal" \/ key = lit "publisher".
Proof.
  unfold contains, LINKED_FIELDS. cbn [existsb].
  rewrite orb_false_r, orb_true_iff, !jseqb_eq. reflexivity.
Qed.

Lemma field_value_linked (link : bool) (key : jsstring) (v : value) :
  (field_value link key v = lit "[[" ++ to_string v ++ lit "]]"
   <-> linked link key)
  /\ (~ linked link key -> field_value link key v = to_string v).
Proof.
  unfold field_value, linked.
  destruct (link && contains LINKED_FIELDS key) eqn:E.
  - apply andb_true_iff in E as [-> E]. apply contains_linked in E.
    split; [tauto|]. intros H. exfalso. apply H. auto.
  - split; [|reflexivity]. split.
    + intros H. apply (f_equal (@List.length N)) in H.
      rewrite !length_app in H. simpl in H. lia.
    + intros [-> H]. apply contains_linked in H. rewrite H in E.
      discriminate.
Qed.

Lemma format_authors_shown (authors : value) (formatted : list jsstring) :
  format_authors authors = Ok formatted ->
  exists l, authors = VArr l /\ Forall2 author_shown l formatted.
Proof.
  destruct authors as [| | | | |l|]; try discriminate. simpl.
  intros H. exists l. split; [reflexivity|].
  apply mapM_Ok in H. induction H as [|a t l ts Ha _ IH]; constructor; auto.
  unfold format_author in Ha.
  apply bind_Ok in Ha as (la & Hl & Ha).
  apply bind_Ok in Ha as (fi & Hf & Ha).
  injection Ha as <-. now exists la, fi.
Qed.

(** C5. Optional cross-reference linking is exactly the wrapping of the
    linked fields: whenever [formatReference(r, link)] returns, every
    author appears as ['[[last, first]]'], whatever [link] is; every key
    other than ['authors'] and ['type'] gives one line
    ['key = { value }'], in the order of the keys, and no other key does;
    and the value in that line is wrapped in ['[[...]]'] if and only if
    [link] is true and the key is ['journal'] or ['publisher'], and is
    the plain value otherwise. *)
Theorem formatReference_linking (r : Reference) (link : bool) (s : jsstring) :
  formatReference r link = Ok s ->
  exists authors formatted,
    get_own r (lit "authors") = VArr authors
    /\ Forall2 author_shown authors formatted
    /\ s = join [44; LF; 32; 32]%N
             ((lit "@" ++ to_string (get_own r (lit "type")) ++ lit "{CITEKEY")
              :: (lit "author = { " ++ join (lit " and ") formatted ++ lit " }")
              :: map (fun key =>
                        key ++ lit " = { "
                            ++ field_value link key (get_own r key)
                            ++ lit " }")
                     (filter is_field (keys r)))
           ++ [LF; 125%N]
    /\ ~ In (lit "authors") (filter is_field (keys r))
    /\ ~ In (lit "type") (filter is_field (keys r))
    /\ forall key v,
         (field_value link key v = lit "[[" ++ to_string v ++ lit "]]"
          <-> link = true /\ (key = lit "journal" \/ key = lit "publisher"))
         /\ (~ (link = true /\ (key = lit "journal" \/ key = lit "publisher"))
             -> field_value link key v = to_string v).
Proof.
  intros H. apply formatReference_lines in H as (formatted & Ha & ->).
  apply format_authors_shown in Ha as (authors & Ha & Hf).
  exists authors, formatted. rewrite field_lines_map.
  split; [exact Ha|]. split; [exact Hf|]. split; [reflexivity|].
  split; [|split].
  - intros Hin. apply filter_In in Hin as [_ Hin]. discriminate.
  - intros Hin. apply filter_In in Hin as [_ Hin]. discriminate.
  - intros key v. apply field_value_linked.
Qed.

Lemma formatReference_linking_witness :
  exists authors formatted,
    get_own ex_reference (lit "authors") = VArr authors
    /\ Forall2 author_shown authors formatted
    /\ (field_value true (lit "journal") (VStr (lit "arXiv"))
        = lit "[[arXiv]]"
        <-> true = true
            /\ (lit "journal" = lit "journal"
                \/ lit "journal" = lit "publisher")).
Proof.
  destruct (formatReference_linking ex_reference true ex_formatted eq_refl)
    as (authors & formatted & Ha & Hf & _ & _ & _ & Hv).
  exists authors, formatted. repeat split; auto;
    apply (Hv (lit "journal") (VStr (lit "arXiv"))).
Defined.

(** ** Authors that are [null] *)

Lemma format_author_cases (author : value) :
  (exists t, format_author author = Ok t)
  \/ format_author author = Throw TypeError.
Proof.
  destruct author; cbn;
    first [right; reflexivity | left; eexists; reflexivity].
Qed.

Lemma format_author_null (author : value) (t : jsstring) :
  format_author author = Ok t -> author <> VNull /\ author <> VUndef.
Proof.
  destruct author; simpl; intros H; try discriminate; split; discriminate.
Qed.

Lemma mapM_format_author_null (l : list value) :
  In VNull l -> mapM format_author l = Throw TypeError.
Proof.
  induction l as [|a l IH]; intros H; [destruct H|].
  destruct H as [->|H]; [reflexivity|].
  cbn [mapM]. destruct (format_author_cases a) as [(t & ->)| ->];
    [|reflexivity].
  cbn [bind]. now rewrite (IH H).
Qed.

(** C9. [formatReference] reads [last] and [first] from every element of
    the authors list without a null check: it returns only if no element
    of [reference.authors] is [null] (or [undefined]), and it throws a
    [TypeError] if one is. The arXiv normalizer can break this
    precondition: for an author whose text does not match the author
    pattern it pushes [null] into the authors of the reference it
    builds. *)
Theorem formatReference_null_author :
  (forall r link s,
      formatReference r link = Ok s ->
      exists authors,
        get_own r (lit "authors") = VArr authors
        /\ ~ In VNull authors /\ ~ In VUndef authors)
  /\ (forall r link authors,
         get_own r (lit "authors") = VArr authors ->
         In VNull authors ->
         formatReference r link = Throw TypeError)
  /\ (forall identifier entry r author,
         arxiv_entry identifier entry = Ok r ->
         In author (getElementsByTagName entry "author") ->
         str_match (trim (textContent author)) arxivAuthorPattern = None ->
         exists authors,
           get_own r (lit "authors") = VArr authors /\ In VNull authors).
Proof.
  split; [|split].
  - intros r link s H.
    apply formatReference_lines in H as (formatted & Ha & _).
    destruct (get_own r (lit "authors")) as [| | | | |l|]; try discriminate.
    exists l. split; [reflexivity|].
    simpl in Ha. apply mapM_Ok in Ha.
    split; intros Hin.
    + induction Ha as [|a t l ts Hat _ IH]; [destruct Hin|].
      destruct Hin as [->|Hin]; [discriminate|auto].
    + induction Ha as [|a t l ts Hat _ IH]; [destruct Hin|].
      destruct Hin as [->|Hin]; [discriminate|auto].
  - intros r link authors Ha Hin. unfold formatReference. rewrite Ha.
    cbn [format_authors]. now rewrite (mapM_format_author_null _ Hin).
  - intros identifier entry r author H Hin Hm. unfold arxiv_entry in H.
    apply bind_Ok in H as (yy & _ & H).
    apply bind_Ok in H as (title & _ & H).
    injection H as <-.
    exists (map arxiv_author (getElementsByTagName entry "author")).
    split; [reflexivity|].
    apply in_map_iff. exists author. split; [|exact Hin].
    unfold arxiv_author. now rewrite Hm.
Qed.

Lemma formatReference_null_author_witness :
  arxiv_entry (VStr (lit "2101.00001")) ex_entry = Ok ex_entry_reference
  /\ (exists authors,
         get_own ex_entry_reference (lit "authors") = VArr authors
         /\ In VNull authors)
  /\ formatReference ex_entry_reference true = Throw TypeError
  /\ (exists authors,
         get_own ex_reference (lit "authors") = VArr authors
         /\ ~ In VNull authors /\ ~ In VUndef authors).
Proof.
  destruct formatReference_null_author as (Hok & Hnull & Harxiv).
  split; [reflexivity|]. split; [|split].
  - apply (Harxiv (VStr (lit "2101.00001")) ex_entry ex_entry_reference
             ex_mononym).
    + reflexivity.
    + right. left. reflexivity.
    + reflexivity.
  - apply (Hnull ex_entry_reference true [ex_author; VNull]).
    + reflexivity.
    + right. left. reflexivity.
  - apply (Hok ex_reference true ex_formatted). reflexivity.
Defined.

(** ** The arXiv normalizer *)

(** What [getSuggestions] sends for a query that matches the arXiv
    pattern. *)
Lemma getSuggestions_arxiv (this : ReferenceModal) (query : jsstring)
      (m : match_result) (rq : request) :
  str_match query arxivPattern = Some m ->
  fetched (getSuggestions this query) = Some rq ->
  rq = {| url := lit "https://export.arxiv.org/api/query?id_list="
                 ++ to_string (group_value m "identifier");
          accept_header := None;
          then_ := ArxivCallback query (group_value m "identifier") |}.
Proof.
  intros Hm Hf. unfold getSuggestions in Hf.
  destruct (is_last_query this query); [discriminate|].
  rewrite Hm in Hf. now injection Hf as <-.
Qed.

Lemma arxiv_entry_fields (y1 y2 : N) (id : jsstring) (entry : node)
      (r : Reference) :
  arxiv_identifier y1 y2 id ->
  arxiv_entry (VStr id) entry = Ok r ->
  get_own r (lit "type") = VStr (lit "article")
  /\ get_own r (lit "journal") = VStr (lit "arXiv")
  /\ get_own r (lit "arxiv") = VStr id
  /\ get_own r (lit "pages") = VStr id
  /\ (exists t rest,
         getElementsByTagName entry "title" = t :: rest
         /\ get_own r (lit "title") = VStr (textContent t))
  /\ get_own r (lit "year")
     = VNum (Int (2000 + (10 * digit_of y1 + digit_of y2))).
Proof.
  intros (m1 & m2 & n1 & n2 & n3 & n4 & n5 & -> & Hd) H.
  cbn [forallb] in Hd.
  apply andb_true_iff in Hd as [Hy1 Hd]. apply andb_true_iff in Hd as [Hy2 _].
  unfold arxiv_entry in H. cbn [substring_of bind] in H.
  destruct (getElementsByTagName entry "title") as [|t rest] eqn:Ht;
    [discriminate|].
  cbn [bind] in H. injection H as <-.
  change (substring [y1; y2; m1; m2; 46%N; n1; n2; n3; n4; n5] 0 2)
    with [y1; y2].
  rewrite (parseInt_two_digits _ _ Hy1 Hy2).
  repeat split. now exists t, rest.
Qed.

(** The arXiv callback returns when every entry has a title. *)
Lemma arxiv_suggestions_returns (id : jsstring) (payload : node) :
  (forall entry,
      In entry (getElementsByTagName payload "entry") ->
      getElementsByTagName entry "title" <> []) ->
  exists suggestions, arxiv_suggestions (VStr id) payload = Ok suggestions.
Proof.
  intros H. apply mapM_total. apply Forall_forall. intros entry Hin.
  specialize (H entry Hin). unfold arxiv_entry. cbn [substring_of bind].
  destruct (getElementsByTagName entry "title"); [congruence|].
  cbn [bind]. eauto.
Qed.

(** C6. arXiv payload normalization produces a fixed record shape: for a
    query that matches the arXiv pattern, the identifier captured is of
    the form [YYMM.NNNNN], and every entry of the response gives a
    reference of type ['article'] and journal ['arXiv'], whose [arxiv]
    and [pages] are the identifier, whose title is the text of the first
    [title] element of the entry, and whose year is 2000 plus the number
    that the first two digits of the identifier spell; the suggestions
    are dispatched for the query that was asked. *)
Theorem arxiv_normalization
        (this : ReferenceModal) (query : jsstring) (m : match_result)
        (rq : request) (resp : response)
        (dispatched : jsstring) (suggestions : list Reference) :
  str_match query arxivPattern = Some m ->
  fetched (getSuggestions this query) = Some rq ->
  run_callback (then_ rq) resp = Ok (dispatched, suggestions) ->
  exists y1 y2 id,
    group_value m "identifier" = VStr id
    /\ arxiv_identifier y1 y2 id
    /\ dispatched = query
    /\ Forall2
         (fun entry r =>
            get_own r (lit "type") = VStr (lit "article")
            /\ get_own r (lit "journal") = VStr (lit "arXiv")
            /\ get_own r (lit "arxiv") = VStr id
            /\ get_own r (lit "pages") = VStr id
            /\ (exists t rest,
                   getElementsByTagName entry "title" = t :: rest
                   /\ get_own r (lit "title") = VStr (textContent t))
            /\ get_own r (lit "year")
               = VNum (Int (2000 + (10 * digit_of y1 + digit_of y2))))
         (getElementsByTagName (document resp) "entry") suggestions.
Proof.
  intros Hm Hf Hr.
  rewrite (getSuggestions_arxiv this query m rq Hm Hf) in Hr. cbn [then_ run_callback] in Hr.
  destruct (arxiv_match_identifier query m Hm) as (y1 & y2 & id & Hid & Hg).
  rewrite Hg in Hr.
  apply bind_Ok in Hr as (l & Hl & Hr). injection Hr as <- <-.
  exists y1, y2, id. repeat split; auto.
  apply mapM_Ok in Hl. revert Hl. apply Forall2_impl.
  intros entry r. apply (arxiv_entry_fields _ _ _ _ _ Hid).
Qed.

Lemma arxiv_normalization_witness :
  exists y1 y2 id,
    group_value ex_arxiv_match "identifier" = VStr id
    /\ arxiv_identifier y1 y2 id
    /\ Forall2
         (fun entry r =>
            get_own r (lit "type") = VStr (lit "article")
            /\ get_own r (lit "year")
               = VNum (Int (2000 + (10 * digit_of y1 + digit_of y2))))
         (getElementsByTagName (document ex_arxiv_response) "entry")
         [ex_entry_reference].
Proof.
  destruct (arxiv_normalization ex_modal ex_arxiv_query ex_arxiv_match
              ex_arxiv_request ex_arxiv_response ex_arxiv_query
              [ex_entry_reference] eq_refl eq_refl eq_refl)
    as (y1 & y2 & id & Hg & Hid & _ & H).
  exists y1, y2, id. split; [exact Hg|]. split; [exact Hid|].
  revert H. apply Forall2_impl.
  intros entry r (Hty & _ & _ & _ & _ & Hy). split; assumption.
Defined.

(** ** The DOI normalizer *)

Lemma doi_type_cases (key : value) :
  (to_string key = lit "article-journal" ->
   doi_type key = VStr (lit "article"))
  /\ (to_string key = lit "monograph" -> doi_type key = VStr (lit "book"))
  /\ (to_string key = lit "report" -> doi_type key = VStr (lit "techreport"))
  /\ (to_string key <> lit "article-journal" ->
      to_string key <> lit "monograph" ->
      to_string key <> lit "report" ->
      doi_type key = VUndef).
Proof.
  unfold doi_type. repeat split.
  - intros ->. reflexivity.
  - intros ->. reflexivity.
  - intros ->. reflexivity.
  - intros H1 H2 H3. unfold DOI_TYPE_LOOKUP. cbn [get_own].
    apply not_eq_sym in H1, H2, H3.
    apply jseqb_neq in H1, H2, H3. now rewrite H1, H2, H3.
Qed.

Lemma doi_authors_Ok (items : list value) (authors : list value) :
  mapM doi_author items = Ok authors ->
  Forall2 (fun author o =>
             exists given family,
               get author "given" = Ok given
               /\ get author "family" = Ok family
               /\ o = VObj [(lit "first", given); (lit "last", family)])
          items authors.
Proof.
  intros H. apply mapM_Ok in H. revert H. apply Forall2_impl.
  intros author o H. unfold doi_author in H.
  apply bind_Ok in H as (given & Hg & H).
  apply bind_Ok in H as (family & Hf & H).
  injection H as <-. now exists given, family.
Qed.

(** The claim C7 as the specification words it does not hold: a payload
    whose type the lookup does not know gives a reference whose type is
    [undefined]. *)
Lemma doi_type_not_always_defined :
  ~ (forall identifier payload r,
        doi_suggestion identifier payload = Ok r ->
        exists s, get_own r (lit "type") = VStr s).
Proof.
  intros H.
  destruct (H (VStr (lit "10.1000/182")) ex_doi_payload ex_doi_reference
              eq_refl) as (s & Hs).
  discriminate Hs.
Qed.

(** C7, amended. DOI payload normalization maps every payload on which
    it does not throw into the record shape [title], [authors], [type],
    [year], [doi], in this order, where [type] is what the lookup gives
    for the Crossref type: ['article'] for ['article-journal'], ['book']
    for ['monograph'], ['techreport'] for ['report'], and [undefined] for
    every other type that converts to a property key and is not a name
    that the lookup table inherits from [Object.prototype], such as
    ['constructor']. The fields that depend on the type follow:
    [journal], [volume], [pages], [number] for an article, [publisher]
    for a book, [institution] for a techreport, and none for any other
    type: the reference then has the five keys and no other. *)
Theorem doi_normalization (identifier payload : value) (r : Reference) :
  doi_suggestion identifier payload = Ok r ->
  exists payload_type title authors year,
    get payload "type" = Ok payload_type
    /\ get payload "title" = Ok title
    /\ doi_authors payload authors
    /\ doi_year payload year
    /\ let base := [(lit "title", title);
                    (lit "authors", VArr authors);
                    (lit "type", doi_type payload_type);
                    (lit "year", year);
                    (lit "doi", identifier)] in
       (to_string payload_type = lit "article-journal" ->
        doi_type payload_type = VStr (lit "article")
        /\ exists journal volume page issue,
            get payload "container-title" = Ok journal
            /\ get payload "volume" = Ok volume
            /\ get payload "page" = Ok page
            /\ doi_issue payload issue
            /\ r = base ++ [(lit "journal", journal);
                            (lit "volume", volume);
                            (lit "pages", page);
                            (lit "number", issue)])
       /\ (to_string payload_type = lit "monograph" ->
           doi_type payload_type = VStr (lit "book")
           /\ exists publisher,
               get payload "publisher" = Ok publisher
               /\ r = base ++ [(lit "publisher", publisher)])
       /\ (to_string payload_type = lit "report" ->
           doi_type payload_type = VStr (lit "techreport")
           /\ exists institution,
               get payload "institution" = Ok institution
               /\ r = base ++ [(lit "institution", institution)])
       /\ (to_string payload_type <> lit "article-journal" ->
           to_string payload_type <> lit "monograph" ->
           to_string payload_type <> lit "report" ->
           keys r = [lit "title"; lit "authors"; lit "type"; lit "year";
                     lit "doi"]
           /\ (plain_key payload_type ->
               doi_type payload_type = VUndef /\ r = base)).
Proof.
  unfold doi_suggestion. intros H.
  apply bind_Ok in H as (payload_author & Hpa & H).
  apply bind_Ok in H as (items & Hit & H).
  apply bind_Ok in H as (authors & Hau & H).
  apply bind_Ok in H as (payload_type & Hty & H).
  apply bind_Ok in H as (title & Hti & H).
  apply bind_Ok in H as (issued & His & H).
  apply bind_Ok in H as (date_parts & Hdp & H).
  apply bind_Ok in H as (date_part & Hd0 & H).
  apply bind_Ok in H as (year & Hy & H).
  exists payload_type, title, authors, year.
  split; [exact Hty|]. split; [exact Hti|].
  split; [exists payload_author, items; auto using doi_authors_Ok|].
  split; [now exists issued, date_parts, date_part|].
  cbv zeta.
  destruct (doi_type_cases payload_type) as (Ha & Hb & Ht & Hu).
  unfold doi_type_fields in H. split; [|split; [|split]].
  - intros Hk. split; [auto|]. rewrite (Ha Hk) in H |- *.
    change (loose_eq_word (VStr (lit "article")) "article") with true in H.
    cbv iota in H.
    apply bind_Ok in H as (journal & Hj & H).
    apply bind_Ok in H as (volume & Hv & H).
    apply bind_Ok in H as (page & Hp & H).
    apply bind_Ok in H as (journal_issue & Hji & H).
    apply bind_Ok in H as (issue & Hi & H).
    injection H as <-.
    exists journal, volume, page, issue.
    split; [exact Hj|]. split; [exact Hv|]. split; [exact Hp|].
    split; [now exists journal_issue|reflexivity].
  - intros Hk. split; [auto|]. rewrite (Hb Hk) in H |- *.
    change (loose_eq_word (VStr (lit "book")) "article") with false in H.
    change (loose_eq_word (VStr (lit "book")) "book") with true in H.
    cbv iota in H.
    apply bind_Ok in H as (publisher & Hp & H). injection H as <-.
    now exists publisher.
  - intros Hk. split; [auto|]. rewrite (Ht Hk) in H |- *.
    change (loose_eq_word (VStr (lit "techreport")) "article") with false in H.
    change (loose_eq_word (VStr (lit "techreport")) "book") with false in H.
    change (loose_eq_word (VStr (lit "techreport")) "techreport") with true in H.
    cbv iota in H.
    apply bind_Ok in H as (institution & Hi & H). injection H as <-.
    now exists institution.
  - intros H1 H2 H3. rewrite (Hu H1 H2 H3) in H |- *.
    cbn [loose_eq_word] in H. injection H as <-.
    split; [reflexivity|]. intros _. split; reflexivity.
Qed.

Lemma doi_normalization_witness :
  doi_type (VStr (lit "article-journal")) = VStr (lit "article")
  /\ (exists journal volume page issue,
         get ex_csl_payload "container-title" = Ok journal
         /\ get ex_csl_payload "volume" = Ok volume
         /\ get ex_csl_payload "page" = Ok page
         /\ doi_issue ex_csl_payload issue
         /\ ex_csl_reference
            = [(lit "title", VStr (lit "Notes"));
               (lit "authors", VArr [ex_author]);
               (lit "type", doi_type (VStr (lit "article-journal")));
               (lit "year", VNum (Int 1843));
               (lit "doi", VStr (lit "10.1000/182"))]
              ++ [(lit "journal", journal);
                  (lit "volume", volume);
                  (lit "pages", page);
                  (lit "number", issue)]).
Proof.
  destruct (doi_normalization (VStr (lit "10.1000/182")) ex_csl_payload
              ex_csl_reference eq_refl)
    as (payload_type & title & authors & year & Hty & Hti & Hau & Hy & H).
  injection Hty as <-. injection Hti as <-.
  destruct Hau as (pa & items & Hpa & Hit & Hau).
  injection Hpa as <-. injection Hit as <-.
  destruct Hy as (issued & dp & d0 & His & Hdp & Hd0 & Hy).
  injection His as <-. injection Hdp as <-. injection Hd0 as <-.
  injection Hy as <-.
  destruct H as (H & _). destruct (H eq_refl) as (Hd & j & v & p & i & Hr).
  split; [exact Hd|].
  exists j, v, p, i.
  destruct Hr as (Hj & Hv & Hp & Hi & Hr).
  repeat split; auto.
  rewrite Hr. repeat f_equal.
  inversion Hau as [|a o l l' (g & f & Hg & Hf & ->) Htl]; subst.
  inversion Htl; subst. injection Hg as <-. injection Hf as <-. reflexivity.
Defined.

(** ** The DOI pattern captures a DOI *)

Lemma den_doi_identifier (o1 o2 : regex) (i j : nat) (s s' : jsstring)
      (c' : captures) :
  groupless o1 = true -> groupless o2 = true ->
  den (Seq [Bol; o1; o2;
            Grp "identifier"
                (Seq [Lit "10."; Rep 4 (Cls is_digit); Lit "/";
                      Star true is_dot])]) i s [] j s' c' ->
  exists id, doi_identifier id /\ c' = [("identifier"%string, id)].
Proof.
  intros G1 G2 D. cbn [Seq fold_right den] in D.
  destruct D as (j0 & s0 & c0 & (_ & -> & -> & ->) & D).
  destruct D as (j1 & s1 & c1 & D1 & D).
  apply (den_groupless _ G1) in D1. subst c1.
  destruct D as (j2 & s2 & c2 & D2 & D).
  apply (den_groupless _ G2) in D2. subst c2.
  destruct D as (j3 & s3 & c3 & (c & DG & ->) & (-> & -> & ->)).
  cbn in DG.
  repeat match goal with
         | H : exists _, _ |- _ => destruct H
         | H : _ /\ _ |- _ => destruct H
         end.
  subst.
  repeat match goal with
         | H : is_char _ ?x = true |- _ =>
             unfold is_char in H; apply N.eqb_eq in H; subst x
         end.
  match goal with
  | H : forallb is_dot ?w = true |- context [firstn ?n _] =>
      replace n with (8 + List.length w) by lia
  end.
  cbn [firstn plus]. rewrite firstn_app, firstn_all, Nat.sub_diag.
  cbn [firstn]. rewrite app_nil_r.
  eexists. split; [|reflexivity].
  do 5 eexists. split; [reflexivity|]. split; [|assumption].
  cbn [forallb].
  repeat match goal with
         | H : is_digit _ = true |- _ => rewrite H; clear H
         end.
  reflexivity.
Qed.

Lemma doi_match_identifier (query : jsstring) (m : match_result) :
  str_match query doiPattern = Some m ->
  exists id, doi_identifier id /\ group_value m "identifier" = VStr id.
Proof.
  intros H. apply search_inv in H as (i & s0 & j & s' & c' & D & ->).
  unfold doiPattern in D.
  apply den_doi_identifier in D as (id & Hid & ->); try reflexivity.
  now exists id.
Qed.

(** ** The cache of the last query *)

Lemma is_last_query_cached (this : ReferenceModal) (query : jsstring) :
  is_last_query this query = true <-> cached this query.
Proof.
  unfold is_last_query, cached.
  destruct query as [|c query]; [split; [discriminate|intros [H _]; congruence]|].
  destruct (lastQuery this) as [q|].
  - rewrite jseqb_eq. split.
    + intros <-. split; [discriminate|reflexivity].
    + intros [_ H]. now injection H.
  - split; [discriminate|intros [_ H]; discriminate].
Qed.

Lemma is_last_query_miss (this : ReferenceModal) (query : jsstring) :
  is_last_query this query = false <-> ~ cached this query.
Proof.
  rewrite <- is_last_query_cached.
  destruct (is_last_query this query); split; congruence.
Qed.

(** A miss leaves the two cache fields as they were and returns the empty
    list. *)
Lemma getSuggestions_miss (this : ReferenceModal) (query : jsstring) :
  is_last_query this query = false ->
  returned (getSuggestions this query) = []
  /\ lastQuery (after (getSuggestions this query)) = lastQuery this
  /\ lastSuggestions (after (getSuggestions this query))
     = lastSuggestions this.
Proof.
  intros H. unfold getSuggestions. rewrite H.
  destruct (str_match query arxivPattern);
    destruct (str_match query doiPattern); auto.
Qed.

(** C2. The only state is the cache of the last query.
    [getSuggestions(query)] returns the stored [lastSuggestions] exactly
    when the query is not empty and equal to [lastQuery], and then it
    changes nothing, [emptyStateText] included, and sends nothing; in
    every other case it returns the empty list, at once, and leaves
    [lastQuery] and [lastSuggestions] alone. In the event loop these two
    fields change only when a response is handed to
    [dispatchSuggestions]. *)
Theorem last_query_cache :
  (forall this query,
      (query <> [] /\ lastQuery this = Some query ->
       getSuggestions this query
       = {| returned := lastSuggestions this;
            after := this;
            fetched := None |})
      /\ (~ (query <> [] /\ lastQuery this = Some query) ->
          returned (getSuggestions this query) = []
          /\ lastQuery (after (getSuggestions this query)) = lastQuery this
          /\ lastSuggestions (after (getSuggestions this query))
             = lastSuggestions this))
  /\ (forall w e,
         lastQuery (modal (step w e)) <> lastQuery (modal w)
         \/ lastSuggestions (modal (step w e)) <> lastSuggestions (modal w) ->
         exists n r rq query suggestions,
           e = Fulfil n r
           /\ nth_error (pending w) n = Some rq
           /\ run_callback (then_ rq) r = Ok (query, suggestions)
           /\ modal (step w e)
              = dispatchSuggestions (modal w) query suggestions).
Proof.
  split.
  - intros this query. split.
    + intros H. apply is_last_query_cached in H.
      unfold getSuggestions. now rewrite H.
    + intros H. apply is_last_query_miss in H.
      now apply getSuggestions_miss.
  - intros w [query|n r|n] H.
    + exfalso. cbn [step modal] in H.
      destruct (is_last_query (modal w) query) eqn:E.
      * unfold getSuggestions in H. rewrite E in H. cbn [after] in H.
        destruct H as [H|H]; now apply H.
      * destruct (getSuggestions_miss (modal w) query E) as (_ & Hq & Hs).
        rewrite Hq, Hs in H. destruct H as [H|H]; now apply H.
    + cbn [step] in *.
      destruct (nth_error (pending w) n) as [rq|] eqn:En.
      * destruct (run_callback (then_ rq) r) as [[query suggestions]|err]
          eqn:Er.
        -- now exists n, r, rq, query, suggestions.
        -- exfalso. cbn [modal] in H. destruct H as [H|H]; now apply H.
      * exfalso. destruct H as [H|H]; now apply H.
    + exfalso. cbn [step modal] in H. destruct H as [H|H]; now apply H.
Qed.

Lemma last_query_cache_witness :
  getSuggestions (modal ex_answered) ex_arxiv_query
  = {| returned := [ex_entry_reference];
       after := modal ex_answered;
       fetched := None |}
  /\ returned (getSuggestions (modal ex_answered) ex_second_query) = []
  /\ modal ex_answered
     = dispatchSuggestions ex_modal ex_arxiv_query [ex_entry_reference].
Proof.
  destruct last_query_cache as [Hg Hs].
  destruct (Hg (modal ex_answered) ex_arxiv_query) as [Hhit _].
  destruct (Hg (modal ex_answered) ex_second_query) as [_ Hmiss].
  split; [|split].
  - apply Hhit. split; [discriminate|reflexivity].
  - apply Hmiss. intros [_ H]. discriminate H.
  - destruct (Hs (step (opened (lit "No results found.")) (Call ex_arxiv_query))
                 (Fulfil 0 ex_arxiv_response))
      as (n & r & rq & query & suggestions & He & Hn & Hr & Hm).
    + left. discriminate.
    + injection He as <- <-. injection Hn as <-. injection Hr as <- <-.
      exact Hm.
Defined.

(** ** Classifying the query *)

(** The claim C3 as the specification words it does not hold: a query
    that matches the arXiv pattern sends no request when it is the query
    whose suggestions have just been dispatched. *)
Lemma cached_query_sends_nothing :
  ~ (forall this query,
        str_match query arxivPattern <> None ->
        fetched (getSuggestions this query) <> None).
Proof.
  intros H.
  apply (H (modal ex_answered) ex_arxiv_query); [discriminate|reflexivity].
Qed.

(** C3, amended. For a query that is not answered from the cache (it is
    empty or differs from [lastQuery]), classification uses the two
    patterns, arXiv first and DOI second: a query that matches the arXiv
    pattern sends one request to export.arxiv.org with the identifier
    captured, of the form [YYMM.NNNNN]; a query that does not, and
    matches the DOI pattern, sends one request to data.crossref.org with
    the identifier captured; a query that matches neither sends nothing,
    sets the empty-state text to ['Pattern not recognised'] and leaves
    the cache as it was. Whatever the modal holds, a request that is sent
    goes to one of these two endpoints. *)
Theorem query_classification (this : ReferenceModal) (query : jsstring) :
  (~ (query <> [] /\ lastQuery this = Some query) ->
   match str_match query arxivPattern, str_match query doiPattern with
   | Some m, _ =>
       exists y1 y2 id,
         group_value m "identifier" = VStr id
         /\ arxiv_identifier y1 y2 id
         /\ fetched (getSuggestions this query)
            = Some {| url := lit "https://export.arxiv.org/api/query?id_list="
                             ++ id;
                      accept_header := None;
                      then_ := ArxivCallback query (VStr id) |}
   | None, Some m =>
       exists id,
         group_value m "identifier" = VStr id
         /\ doi_identifier id
         /\ fetched (getSuggestions this query)
            = Some {| url := lit "https://data.crossref.org/" ++ id;
                      accept_header := Some (lit "application/json");
                      then_ := DoiCallback query (VStr id) |}
   | None, None =>
       fetched (getSuggestions this query) = None
       /\ emptyStateText (after (getSuggestions this query))
          = lit "Pattern not recognised"
       /\ lastQuery (after (getSuggestions this query)) = lastQuery this
       /\ lastSuggestions (after (getSuggestions this query))
          = lastSuggestions this
   end)
  /\ (forall rq,
         fetched (getSuggestions this query) = Some rq ->
         startsWith (url rq) arxiv_endpoint = true
         \/ startsWith (url rq) crossref_endpoint = true).
Proof.
  split.
  - intros H. apply is_last_query_miss in H.
    unfold getSuggestions. rewrite H.
    destruct (str_match query arxivPattern) as [m|] eqn:Ea.
    + destruct (arxiv_match_identifier query m Ea) as (y1 & y2 & id & Hid & Hg).
      exists y1, y2, id. rewrite Hg. auto.
    + destruct (str_match query doiPattern) as [m|] eqn:Ed.
      * destruct (doi_match_identifier query m Ed) as (id & Hid & Hg).
        exists id. rewrite Hg. auto.
      * auto.
  - intros rq. unfold getSuggestions.
    destruct (is_last_query this query); [discriminate|].
    destruct (str_match query arxivPattern) as [m|].
    + intros H. injection H as <-. left.
      exact (startsWith_app arxiv_endpoint
               (to_string (group_value m "identifier"))).
    + destruct (str_match query doiPattern) as [m|]; [|discriminate].
      intros H. injection H as <-. right.
      exact (startsWith_app crossref_endpoint
               (to_string (group_value m "identifier"))).
Qed.

Lemma query_classification_witness :
  fetched (getSuggestions ex_modal (lit "hello")) = None
  /\ emptyStateText (after (getSuggestions ex_modal (lit "hello")))
     = lit "Pattern not recognised"
  /\ (startsWith (url ex_arxiv_request) arxiv_endpoint = true
      \/ startsWith (url ex_arxiv_request) crossref_endpoint = true).
Proof.
  destruct (query_classification ex_modal (lit "hello")) as [H _].
  destruct (query_classification ex_modal ex_arxiv_query) as [_ E].
  assert (M : ~ (lit "hello" <> [] /\ lastQuery ex_modal = Some (lit "hello")))
    by (intros [_ M]; discriminate M).
  destruct (H M) as (Hf & He & _).
  split; [exact Hf|]. split; [exact He|].
  apply E. reflexivity.
Defined.

(** ** Requests on their way *)

(** The claim C8 as the specification words it does not hold: two calls
    in a row leave two requests on their way. *)
Lemma two_requests_outstanding :
  ~ (forall es : list event,
        List.length (pending (run (opened (lit "No results found.")) es)) <= 1).
Proof.
  intros H. specialize (H ex_two_calls). vm_compute in H. lia.
Qed.

(** And the response to the earlier query, arriving last, takes the
    cache over from the later one. *)
Lemma stale_response_overwrites :
  lastQuery
    (modal (run (opened (lit "No results found."))
                (ex_two_calls
                 ++ [Fulfil 1 ex_arxiv_response; Fulfil 0 ex_arxiv_response])))
  = Some ex_arxiv_query.
Proof.
  reflexivity.
Qed.

(** C8, amended. Nothing limits the requests on their way: whatever is
    pending, a call of [getSuggestions] whose query is not answered from
    the cache and matches one of the patterns sends one more request,
    and no other call sends any; and a response that arrives, in
    whatever order, puts its own query and suggestions into the cache
    and leaves the other requests pending. *)
Theorem requests_are_not_limited :
  (forall w query,
      ~ (query <> [] /\ lastQuery (modal w) = Some query) ->
      str_match query arxivPattern <> None
      \/ str_match query doiPattern <> None ->
      exists rq,
        fetched (getSuggestions (modal w) query) = Some rq
        /\ pending (step w (Call query)) = pending w ++ [rq])
  /\ (forall w query,
         fetched (getSuggestions (modal w) query) = None ->
         pending (step w (Call query)) = pending w)
  /\ (forall w n r rq query suggestions,
         nth_error (pending w) n = Some rq ->
         run_callback (then_ rq) r = Ok (query, suggestions) ->
         lastQuery (modal (step w (Fulfil n r))) = Some query
         /\ lastSuggestions (modal (step w (Fulfil n r))) = suggestions
         /\ pending (step w (Fulfil n r)) = remove_nth n (pending w)).
Proof.
  split; [|split].
  - intros w query Hmiss Hm. apply is_last_query_miss in Hmiss.
    cbn [step pending]. unfold getSuggestions. rewrite Hmiss.
    destruct (str_match query arxivPattern) as [m|].
    + eexists. split; reflexivity.
    + destruct (str_match query doiPattern) as [m|].
      * eexists. split; reflexivity.
      * exfalso. destruct Hm as [Hm|Hm]; now apply Hm.
  - intros w query H. cbn [step pending]. rewrite H. apply app_nil_r.
  - intros w n r rq query suggestions Hn Hr.
    cbn [step]. rewrite Hn, Hr. auto.
Qed.

Lemma requests_are_not_limited_witness :
  (exists rq,
      fetched (getSuggestions
                 (modal (step (opened (lit "No results found."))
                              (Call ex_arxiv_query)))
                 ex_second_query) = Some rq
      /\ pending (run (opened (lit "No results found.")) ex_two_calls)
         = [ex_arxiv_request] ++ [rq])
  /\ lastQuery
       (modal (step (run (opened (lit "No results found.")) ex_two_calls)
                    (Fulfil 0 ex_arxiv_response)))
     = Some ex_arxiv_query.
Proof.
  destruct requests_are_not_limited as (Hcall & _ & Hfulfil).
  split.
  - apply (Hcall (step (opened (lit "No results found.")) (Call ex_arxiv_query))
                 ex_second_query).
    + intros [_ H]. discriminate H.
    + left. discriminate.
  - apply (Hfulfil (run (opened (lit "No results found.")) ex_two_calls)
                   0 ex_arxiv_response ex_arxiv_request ex_arxiv_query
                   [ex_entry_reference]); reflexivity.
Defined.

(** ** Choosing a suggestion *)

Section VaultFacts.
Variable vault : Type.
Variable getAbstractFileByPath : vault -> jsstring -> option TAbstractFile.
Variable createFolder : vault -> jsstring -> result vault.
Variable create : vault -> jsstring -> jsstring -> result vault.

(** Making sure of the folder creates no note, and leaves the vault as
    it was or as [createFolder] has made it. *)
Lemma ensure_folder_calls (settings : BibliographyPluginSettings) (v : vault) :
  (forall path data,
      ~ In (Create path data)
           (fst (ensure_folder getAbstractFileByPath createFolder settings v)))
  /\ (forall v1,
         snd (ensure_folder getAbstractFileByPath createFolder settings v)
         = Ok v1 ->
         v1 = v \/ createFolder v (bibliographyFolder settings) = Ok v1).
Proof.
  unfold ensure_folder.
  destruct (bibliographyFolder settings) as [|c folderPath].
  - split; [intros path data []|]. intros v1 H. injection H as <-. now left.
  - destruct (getAbstractFileByPath v (c :: folderPath)) as [[|]|].
    + split; [intros path data []|]. intros v1 H. injection H as <-. now left.
    + split; [intros path data [H|[]]; discriminate|]. intros v1 H. now right.
    + split; [intros path data [H|[]]; discriminate|]. intros v1 H. now right.
Qed.

(** The note is created when the folder is there, no file is in the way
    and the reference can be formatted. *)
Lemma note_is_created (settings : BibliographyPluginSettings) (v v1 : vault)
      (reference : Reference) (calls : list vault_call) (formatted : jsstring) :
  ensure_folder getAbstractFileByPath createFolder settings v = (calls, Ok v1) ->
  getAbstractFileByPath v1 (item_path settings reference) <> Some TFile ->
  formatReference reference true = Ok formatted ->
  onChooseSuggestion getAbstractFileByPath createFolder create
                     settings v reference
  = (calls ++ [Create (item_path settings reference) (fenced formatted)],
     create v1 (item_path settings reference) (fenced formatted)).
Proof.
  intros He Hi Hf. unfold onChooseSuggestion, choose_with, create_item.
  rewrite He, Hf.
  destruct (getAbstractFileByPath v1 (item_path settings reference))
    as [[|]|]; try reflexivity.
  now destruct Hi.
Qed.

(** C10. Choosing a suggestion creates a note only when no file already
    exists at the path computed, which is the title followed by ['.md'],
    behind the folder of the settings and a slash unless that folder is
    the empty string; the content of the note created is exactly
    ['^^^\n' + formatReference(reference, true) + '\n^^^']; and the
    [lines] array that the function builds on the way plays no part:
    with any other loop in its place the calls on the vault and their
    result are the same. *)
Theorem note_creation (settings : BibliographyPluginSettings) (v : vault)
        (reference : Reference) (path data : jsstring) :
  In (Create path data)
     (fst (onChooseSuggestion getAbstractFileByPath createFolder create
                              settings v reference)) ->
  path = match bibliographyFolder settings with
         | [] => to_string (get_own reference (lit "title")) ++ lit ".md"
         | folder =>
             folder ++ lit "/"
                    ++ to_string (get_own reference (lit "title")) ++ lit ".md"
         end
  /\ (exists v1,
         (v1 = v \/ createFolder v (bibliographyFolder settings) = Ok v1)
         /\ getAbstractFileByPath v1 path <> Some TFile)
  /\ (exists formatted,
         formatReference reference true = Ok formatted
         /\ data = lit "^^^" ++ [LF] ++ formatted ++ [LF] ++ lit "^^^")
  /\ (forall loop : Reference -> list jsstring,
         choose_with getAbstractFileByPath createFolder create loop
                     settings v reference
         = onChooseSuggestion getAbstractFileByPath createFolder create
                              settings v reference).
Proof.
  unfold onChooseSuggestion, choose_with. intros H.
  destruct (ensure_folder_calls settings v) as [Hnone Hv].
  destruct (ensure_folder getAbstractFileByPath createFolder settings v)
    as [calls [v1|e]] eqn:E; cbn [fst snd] in *.
  - unfold create_item in *.
    destruct (getAbstractFileByPath v1 (item_path settings reference))
      as [[|]|] eqn:Ei;
      try (destruct (formatReference reference true) as [formatted|e] eqn:Ef);
      cbn [fst] in H; apply in_app_or in H as [H|H];
      try (now apply Hnone in H); try (now destruct H);
      destruct H as [H|[]]; injection H as <- <-;
      (split; [reflexivity|]);
      (split; [exists v1; split; [now apply Hv|congruence]|]);
      (split; [now exists formatted|]); reflexivity.
  - now apply Hnone in H.
Qed.
End VaultFacts.

Lemma note_creation_witness :
  fst (onChooseSuggestion ex_getAbstractFileByPath ex_createFolder ex_create
                          DEFAULT_SETTINGS [] ex_reference)
  = [CreateFolder (lit "bibliography");
     Create (lit "bibliography/Notes.md") (fenced ex_formatted)]
  /\ (exists formatted,
         formatReference ex_reference true = Ok formatted
         /\ fenced ex_formatted
            = lit "^^^" ++ [LF] ++ formatted ++ [LF] ++ lit "^^^").
Proof.
  split; [reflexivity|].
  apply (note_creation ex_vault ex_getAbstractFileByPath ex_createFolder
           ex_create DEFAULT_SETTINGS [] ex_reference
           (lit "bibliography/Notes.md") (fenced ex_formatted)).
  right. left. reflexivity.
Defined.

(* ================================================================== *)
(** * Further properties *)

(** ** The fences, for every text *)

(** A text splits into its leading white space and a rest that
    [trimStart] returns. *)
Lemma trimStart_span (s : jsstring) :
  exists w, s = w ++ trimStart s
            /\ forallb is_space w = true
            /\ starts_clean (trimStart s) = true.
Proof.
  induction s as [|c s (w & E & Hw & Hc)]; [now exists []|].
  simpl. destruct (is_space c) eqn:Hs.
  - exists (c :: w). simpl. rewrite Hs, Hw. repeat split; auto. now f_equal.
  - exists []. simpl. now rewrite Hs.
Qed.

Lemma trimEnd_span (s : jsstring) :
  exists w, s = trimEnd s ++ w
            /\ forallb is_space w = true
            /\ ends_clean (trimEnd s) = true.
Proof.
  destruct (trimStart_span (rev s)) as (w & E & Hw & Hc).
  exists (rev w). unfold trimEnd, ends_clean. rewrite rev_involutive.
  repeat split; auto.
  - rewrite <- rev_app_distr, <- E. now rewrite rev_involutive.
  - rewrite forallb_forall in *. intros x Hx. apply Hw. now apply in_rev.
Qed.

Lemma startsWith_inv (s p : jsstring) :
  startsWith s p = true -> exists t, s = p ++ t.
Proof.
  revert s. induction p as [|x p IH]; intros s H; [now exists s|].
  destruct s as [|y s]; [discriminate|]. simpl in H.
  apply andb_true_iff in H as [Hx H]. apply N.eqb_eq in Hx. subst y.
  destruct (IH s H) as (t & ->). now exists t.
Qed.

Lemma endsWith_inv (s p : jsstring) :
  endsWith s p = true -> exists t, s = t ++ p.
Proof.
  unfold endsWith. intros H. apply startsWith_inv in H as (t & H).
  exists (rev t). apply (f_equal (@rev N)) in H.
  now rewrite rev_involutive, rev_app_distr, rev_involutive in H.
Qed.

(** The search finds nothing where the pattern matches nowhere. *)
Lemma search_none (r : regex) (s : jsstring) (i : nat) :
  (forall a c, s = a ++ c ->
               rmatch r (i + List.length a) c [] (accept (i + List.length a))
               = None) ->
  search r i s = None.
Proof.
  revert i. induction s as [|x s IH]; intros i H.
  - simpl. specialize (H [] [] eq_refl). simpl in H.
    rewrite Nat.add_0_r in H. now rewrite H.
  - assert (H0 := H [] (x :: s) eq_refl). simpl in H0.
    rewrite Nat.add_0_r in H0. cbn [search]. rewrite H0. apply IH.
    intros a c ->. specialize (H (x :: a) c eq_refl). simpl in H.
    now rewrite Nat.add_succ_r in H.
Qed.

(** Cutting the opening fence is trimming what follows the carets. *)
Lemma open_is_trimStart (t : jsstring) :
  replace_empty (carets ++ t) fenceOpenPattern = trimStart t.
Proof.
  destruct (trimStart_span t) as (w & E & Hw & Hc).
  rewrite E at 1. now apply strip_open.
Qed.

(** Cutting the closing fence is [drop_close]. *)
Lemma close_is_drop_close (u : jsstring) :
  replace_empty u fenceClosePattern = drop_close u.
Proof.
  unfold drop_close. destruct (endsWith u (lit "^^^")) eqn:He.
  - apply endsWith_inv in He as (u0 & ->).
    rewrite length_app. simpl List.length.
    replace (List.length u0 + 3 - 3) with (List.length u0) by lia.
    rewrite firstn_app, firstn_all, Nat.sub_diag. cbn [firstn].
    rewrite app_nil_r.
    destruct (trimEnd_span u0) as (w & E & Hw & Hc).
    rewrite E at 1. rewrite <- app_assoc. now apply strip_close.
  - unfold replace_empty. rewrite search_none; [reflexivity|].
    intros a c ->. apply close_fails. intros w ->.
    change carets with (lit "^^^") in He. rewrite app_assoc in He.
    now rewrite (endsWith_app (a ++ w) (lit "^^^")) in He.
Qed.

(** X1. For every text that starts with [^^^], the two replacements of
    the post-processor do this and nothing else: take the three carets
    and the white space after them off the front, and then, if what is
    left still ends in [^^^], take these carets and the white space
    before them off the end. *)
Theorem strip_fence_is_trimming (t : jsstring) :
  startsWith t (lit "^^^") = true ->
  strip_fence t = drop_close (trimStart (skipn 3 t)).
Proof.
  intros H. apply startsWith_inv in H as (t' & ->).
  change (skipn 3 (lit "^^^" ++ t')) with t'.
  unfold strip_fence. change (lit "^^^" ++ t') with (carets ++ t').
  rewrite (open_is_trimStart t'). apply close_is_drop_close.
Qed.

Lemma strip_fence_is_trimming_witness :
  strip_fence (lit "^^^^") = lit "^"
  /\ strip_fence (lit "^^^ a ^^^ ") = lit "a ^^^ ".
Proof.
  split.
  - now rewrite (strip_fence_is_trimming (lit "^^^^") eq_refl).
  - now rewrite (strip_fence_is_trimming (lit "^^^ a ^^^ ") eq_refl).
Defined.

(** ** Splitting a section into lines *)

Lemma split_lines_from_nonempty (cur s : jsstring) :
  split_lines_from cur s <> [].
Proof.
  revert cur. induction s as [|c s IH]; intros cur; simpl; [discriminate|].
  destruct (N.eqb c LF); [discriminate|].
  destruct (N.eqb c CR); [|apply IH].
  destruct s as [|d s]; [apply IH|].
  destruct (N.eqb d LF); [discriminate|apply IH].
Qed.

Lemma join_cons (sep x : jsstring) (l : list jsstring) :
  l <> [] -> join sep (x :: l) = x ++ sep ++ join sep l.
Proof.
  destruct l; [congruence|reflexivity].
Qed.

Lemma split_join_from (n : nat) :
  forall s cur,
    List.length s <= n ->
    join [LF] (split_lines_from cur s) = rev cur ++ normalize_newlines s.
Proof.
  induction n as [|n IH]; intros s cur Hn.
  - destruct s; [|simpl in Hn; lia]. simpl. now rewrite app_nil_r.
  - destruct s as [|c s]; [simpl; now rewrite app_nil_r|].
    simpl in Hn. cbn [split_lines_from normalize_newlines].
    destruct (N.eqb c LF) eqn:El.
    + apply N.eqb_eq in El. subst c.
      rewrite join_cons by apply split_lines_from_nonempty.
      rewrite IH by lia. reflexivity.
    + destruct (N.eqb c CR) eqn:Ec.
      * destruct s as [|d s].
        -- reflexivity.
        -- destruct (N.eqb d LF) eqn:Ed.
           ++ rewrite join_cons by apply split_lines_from_nonempty.
              rewrite IH by (simpl in Hn; lia). reflexivity.
           ++ rewrite IH by lia. cbn [rev]. now rewrite <- app_assoc.
      * rewrite IH by lia. cbn [rev]. now rewrite <- app_assoc.
Qed.

Lemma normalize_newlines_plain (s : jsstring) :
  has_crlf s = false -> normalize_newlines s = s.
Proof.
  induction s as [|c s IH]; [reflexivity|]. intros H.
  cbn [has_crlf] in H. cbn [normalize_newlines].
  destruct s as [|d s]; [now destruct (N.eqb c CR)|].
  apply orb_false_iff in H as [H1 H2].
  destruct (N.eqb c CR); [|now rewrite IH].
  simpl in H1. rewrite H1. now rewrite IH.
Qed.

Lemma split_lines_no_LF (n : nat) :
  forall s cur,
    List.length s <= n -> ~ In LF cur ->
    Forall (fun line => ~ In LF line) (split_lines_from cur s).
Proof.
  assert (Hrev : forall cur, ~ In LF cur -> ~ In LF (rev cur)).
  { intros cur H Hin. apply H. now apply in_rev. }
  induction n as [|n IH]; intros s cur Hn Hcur.
  - destruct s; [|simpl in Hn; lia]. simpl. constructor; auto.
  - destruct s as [|c s]; [simpl; constructor; auto|].
    simpl in Hn. cbn [split_lines_from].
    destruct (N.eqb c LF) eqn:El.
    + constructor; [auto|]. apply IH; [lia|intros []].
    + apply N.eqb_neq in El.
      assert (Hc : ~ In LF (c :: cur)) by (intros [E|E]; congruence).
      destruct (N.eqb c CR) eqn:Ec; [|apply IH; [lia|exact Hc]].
      destruct s as [|d s]; [apply IH; [lia|exact Hc]|].
      destruct (N.eqb d LF).
      * constructor; [auto|]. apply IH; [simpl in Hn; lia|intros []].
      * apply IH; [lia|exact Hc].
Qed.

(** X2. Splitting a text at [/\r?\n/] and joining the lines with line
    feeds, as the post-processor does with the lines of a section, gives
    the text back with every carriage-return-line-feed pair turned into a
    line feed, so a text without such a pair comes back unchanged; and
    no line of the split holds a line feed. *)
Theorem split_join_lines (s : jsstring) :
  join [LF] (split_lines s) = normalize_newlines s
  /\ (has_crlf s = false -> join [LF] (split_lines s) = s)
  /\ Forall (fun line => ~ In LF line) (split_lines s).
Proof.
  assert (E : join [LF] (split_lines s) = normalize_newlines s).
  { unfold split_lines. now rewrite (split_join_from (List.length s)). }
  split; [exact E|]. split.
  - intros H. rewrite E. now apply normalize_newlines_plain.
  - apply (split_lines_no_LF (List.length s)); [lia|intros []].
Qed.

Lemma split_join_lines_witness :
  join [LF] (split_lines (lit "a" ++ [LF] ++ lit "b" ++ [CR]))
  = lit "a" ++ [LF] ++ lit "b" ++ [CR].
Proof.
  apply (split_join_lines (lit "a" ++ [LF] ++ lit "b" ++ [CR])).
  reflexivity.
Defined.

(** ** From the note written to the note shown *)

Lemma normalize_newlines_cons2 (a b : N) (s : jsstring) :
  normalize_newlines (a :: b :: s)
  = if N.eqb a CR
    then if N.eqb b LF
         then LF :: normalize_newlines s
         else a :: normalize_newlines (b :: s)
    else a :: normalize_newlines (b :: s).
Proof.
  reflexivity.
Qed.

Lemma normalize_newlines_app (n : nat) :
  forall x y,
    List.length x <= n ->
    (forall x', x <> x' ++ [CR]) ->
    normalize_newlines (x ++ y) = normalize_newlines x ++ normalize_newlines y.
Proof.
  induction n as [|n IH]; intros x y Hn Hx.
  - destruct x; [reflexivity|simpl in Hn; lia].
  - destruct x as [|a [|b x]]; [reflexivity| |].
    + assert (Ha : N.eqb a CR = false).
      { apply N.eqb_neq. intros ->. now apply (Hx []). }
      cbn [app normalize_newlines]. now rewrite Ha.
    + assert (H1 : forall x', b :: x <> x' ++ [CR]).
      { intros x' E. apply (Hx (a :: x')). simpl. now f_equal. }
      assert (H2 : forall x', x <> x' ++ [CR]).
      { intros x' E. apply (Hx (a :: b :: x')). simpl. now do 2 f_equal. }
      simpl in Hn.
      change ((a :: b :: x) ++ y) with (a :: b :: (x ++ y)).
      rewrite !normalize_newlines_cons2.
      change (b :: x ++ y) with ((b :: x) ++ y).
      rewrite (IH x y) by (auto; lia).
      rewrite (IH (b :: x) y) by (auto; simpl; lia).
      destruct (N.eqb a CR); [destruct (N.eqb b LF)|]; reflexivity.
Qed.

(** A formatted reference is still one, as far as its two ends go, once
    its line breaks have been normalized. *)
Lemma normalize_formatted_clean (r : Reference) (link : bool) (s : jsstring) :
  formatReference r link = Ok s ->
  starts_clean (normalize_newlines s) = true
  /\ ends_clean (normalize_newlines s) = true
  /\ forall y,
       normalize_newlines (s ++ y)
       = normalize_newlines s ++ normalize_newlines y.
Proof.
  intros H. apply formatReference_lines in H as (authors & _ & ->).
  set (J := join _ _).
  assert (EJ : exists J', J = 64%N :: J').
  { unfold J. cbn [join app lit list_ascii_of_string map]. eauto. }
  destruct EJ as (J' & EJ). clearbody J. subst J.
  split; [reflexivity|].
  change [LF; 125%N] with ([LF] ++ [125%N]). rewrite app_assoc.
  split.
  - rewrite (normalize_newlines_app
               (List.length ((64%N :: J') ++ [LF]))
               ((64%N :: J') ++ [LF]) [125%N]); [|lia|].
    + change (normalize_newlines [125%N]) with [125%N].
      now rewrite ends_clean_snoc.
    + intros x' E. apply app_inj_tail in E as [_ E]. discriminate.
  - intros y.
    apply (normalize_newlines_app
             (List.length (((64%N :: J') ++ [LF]) ++ [125%N]))); [lia|].
    intros x' E. apply app_inj_tail in E as [_ E]. discriminate.
Qed.

(** X3. From the note written to the note shown: when the body that
    [onChooseSuggestion] writes for a reference,
    ['^^^\n' + formatReference(reference, true) + '\n^^^'], is the text of
    a section that covers all of its lines, the post-processor shows the
    formatted reference, with every carriage-return-line-feed pair in it
    turned into a line feed, in one [pre] holding one [code]. *)
Theorem written_note_is_shown (r : Reference) (formatted : jsstring)
        (el : node) (last : nat) :
  formatReference r true = Ok formatted ->
  List.length (split_lines (fenced formatted)) <= last + 1 ->
  postprocessor el (Some {| text := fenced formatted;
                            lineStart := 0;
                            lineEnd := last |})
  = set_children el (code_block (normalize_newlines formatted)).
Proof.
  intros Hf Hl.
  destruct (normalize_formatted_clean r true formatted Hf) as (Hs & He & Happ).
  assert (E : section_text {| text := fenced formatted;
                              lineStart := 0;
                              lineEnd := last |}
              = carets ++ [LF] ++ normalize_newlines formatted
                       ++ [LF] ++ carets).
  { unfold section_text, slice. cbn [text lineStart lineEnd skipn].
    rewrite firstn_all2 by lia.
    unfold split_lines.
    rewrite (split_join_from (List.length (fenced formatted))) by lia.
    cbn [rev app].
    unfold fenced. cbn [lit list_ascii_of_string map app normalize_newlines].
    rewrite Happ. reflexivity. }
  unfold postprocessor. rewrite E.
  rewrite (startsWith_app (lit "^^^")).
  replace (endsWith (carets ++ [LF] ++ normalize_newlines formatted
                            ++ [LF] ++ carets) (lit "^^^")) with true
    by (symmetry; rewrite !app_assoc; apply endsWith_app).
  cbn [negb orb].
  now rewrite (strip_fence_body [LF] (normalize_newlines formatted) [LF]).
Qed.

Lemma written_note_is_shown_witness :
  postprocessor ex_el (Some {| text := fenced ex_formatted;
                               lineStart := 0;
                               lineEnd := 9 |})
  = Element (lit "div")
      [Element (lit "pre") [Element (lit "code") [Text ex_formatted]]].
Proof.
  apply (written_note_is_shown ex_reference ex_formatted ex_el 9).
  - reflexivity.
  - vm_compute. lia.
Defined.

(** ** The spellings the patterns accept *)

(** Running the matcher on an input whose characters are known, or are
    known to be in their class: the call is reduced at its head up to the
    next test of a character, and the test is decided, by computing it,
    by a hypothesis, or by cases. *)
Ltac head_step :=
  match goal with
  | |- ?l = ?r =>
      let l' := eval lazy head beta iota zeta
                     delta -[is_char is_char_i is_digit is_word is_dot
                             is_space is_nonspace star_greedy star_lazy
                             app List.length] in l in
      change (l' = r)
  end.

Ltac test_step :=
  match goal with
  | H : ?t = true |- context [if ?t then _ else _] => rewrite H
  | H : ?t = false |- context [if ?t then _ else _] => rewrite H
  | |- context [if ?b then _ else _] =>
      let v := eval vm_compute in b in
      match v with
      | true => change b with true
      | false => change b with false
      end
  | |- context [if ?b then _ else _] => destruct b eqn:?
  end.

Ltac run_matcher :=
  cbn [app lit map list_ascii_of_string];
  head_step; repeat (test_step; head_step).

Lemma arxiv_spellings (y1 y2 : N) (id p x : jsstring) :
  arxiv_identifier y1 y2 id -> arxiv_prefix p -> pdf_suffix x ->
  exists m,
    str_match (p ++ id ++ x) arxivPattern = Some m
    /\ group_value m "identifier" = VStr id.
Proof.
  intros (m1 & m2 & n1 & n2 & n3 & n4 & n5 & -> & Hd) Hp Hx.
  cbn [forallb] in Hd.
  repeat match type of Hd with
         | _ && _ = true => apply andb_true_iff in Hd as [? Hd]
         end.
  clear Hd.
  assert (S : forall s m, rmatch arxivPattern 0 s [] (accept 0) = Some m ->
                          group_value m "identifier"
                          = VStr [y1; y2; m1; m2; 46%N; n1; n2; n3; n4; n5] ->
                          exists m, str_match s arxivPattern = Some m
                                    /\ group_value m "identifier"
                                       = VStr [y1; y2; m1; m2; 46%N;
                                               n1; n2; n3; n4; n5]).
  { intros s m Hm Hg. exists m. split; [|exact Hg].
    now apply search_found. }
  destruct Hp as [->|[->|(a & b & c & Hw & [->| ->])]];
    try (cbn [forallb] in Hw;
         repeat match type of Hw with
                | _ && _ = true => apply andb_true_iff in Hw as [? Hw]
                end; clear Hw);
    destruct Hx as [->|(d & Hdot & ->)];
    destruct (digit_cases y1 ltac:(assumption))
      as [->|[->|[->|[->|[->|[->|[->|[->|[->| ->]]]]]]]]];
    (eapply S; [run_matcher; reflexivity|reflexivity]).
Qed.

(** X4. The spellings of an arXiv identifier: for an identifier of the
    form [YYMM.NNNNN], written bare, behind [arXiv:], or as the address
    [http(s)://arxiv.org/xxx/] of a page, and followed by nothing or by
    one character and [pdf], a call of [getSuggestions] that is not
    answered from the cache sends the request for exactly that
    identifier to the arXiv endpoint. *)
Theorem arxiv_spellings_are_fetched
        (this : ReferenceModal) (y1 y2 : N) (id p x : jsstring) :
  arxiv_identifier y1 y2 id -> arxiv_prefix p -> pdf_suffix x ->
  ~ (p ++ id ++ x <> [] /\ lastQuery this = Some (p ++ id ++ x)) ->
  fetched (getSuggestions this (p ++ id ++ x))
  = Some {| url := lit "https://export.arxiv.org/api/query?id_list=" ++ id;
            accept_header := None;
            then_ := ArxivCallback (p ++ id ++ x) (VStr id) |}.
Proof.
  intros Hid Hp Hx Hmiss. apply is_last_query_miss in Hmiss.
  destruct (arxiv_spellings y1 y2 id p x Hid Hp Hx) as (m & Hm & Hg).
  unfold getSuggestions. rewrite Hmiss, Hm. cbn [fetched].
  now rewrite Hg.
Qed.

Lemma arxiv_spellings_are_fetched_witness :
  fetched (getSuggestions ex_modal
             (lit "http://arxiv.org/pdf/" ++ lit "2101.00001" ++ lit ".pdf"))
  = Some {| url := lit "https://export.arxiv.org/api/query?id_list="
                   ++ lit "2101.00001";
            accept_header := None;
            then_ := ArxivCallback
                       (lit "http://arxiv.org/pdf/" ++ lit "2101.00001"
                            ++ lit ".pdf")
                       (VStr (lit "2101.00001")) |}.
Proof.
  apply (arxiv_spellings_are_fetched ex_modal 50 49 (lit "2101.00001")
           (lit "http://arxiv.org/pdf/") (lit ".pdf")).
  - exists 48%N, 49%N, 48%N, 48%N, 48%N, 48%N, 49%N. split; reflexivity.
  - right. right. exists 112%N, 100%N, 102%N. split; [reflexivity|].
    right. reflexivity.
  - right. exists 46%N. split; reflexivity.
  - intros [_ H]. discriminate H.
Defined.

(** A pattern that starts with [^] matches at the start or nowhere. *)
Lemma search_bol_later (r : regex) (s : jsstring) (i : nat) :
  search (Cat Bol r) (S i) s = None.
Proof.
  revert i. induction s as [|c s IH]; intros i; simpl; [reflexivity|apply IH].
Qed.

Lemma search_bol_none (r : regex) (s : jsstring) :
  rmatch (Cat Bol r) 0 s [] (accept 0) = None ->
  search (Cat Bol r) 0 s = None.
Proof.
  intros H. destruct s as [|c s]; cbn [search]; rewrite H; [reflexivity|].
  apply search_bol_later.
Qed.

Lemma doi_spellings (d1 d2 d3 d4 : N) (p rest t : jsstring) :
  doi_prefix p ->
  forallb is_digit [d1; d2; d3; d4] = true ->
  forallb is_dot rest = true ->
  match t with c :: _ => is_dot c = false | [] => True end ->
  str_match (p ++ [49; 48; 46; d1; d2; d3; d4; 47]%N ++ rest ++ t) arxivPattern
  = None
  /\ exists m,
      str_match (p ++ [49; 48; 46; d1; d2; d3; d4; 47]%N ++ rest ++ t)
                doiPattern = Some m
      /\ group_value m "identifier"
         = VStr ([49; 48; 46; d1; d2; d3; d4; 47]%N ++ rest).
Proof.
  intros Hp Hd Hrest Ht. cbn [forallb] in Hd.
  repeat match type of Hd with
         | _ && _ = true => apply andb_true_iff in Hd as [? Hd]
         end.
  clear Hd. unfold doi_prefix in Hp. cbn [In] in Hp.
  split.
  - apply (search_bol_none _ _).
    destruct Hp as [<-|[<-|[<-|[<-|[<-|[<-|[]]]]]]];
      run_matcher; reflexivity.
  - destruct Hp as [<-|[<-|[<-|[<-|[<-|[<-|[]]]]]]];
      (eexists; split;
       [apply search_found; run_matcher;
        erewrite star_greedy_longest;
        [reflexivity|exact Hrest|exact Ht|reflexivity]
       |cbn [group_value m_groups group String.eqb Ascii.eqb Bool.eqb];
        f_equal;
        match goal with
        | |- firstn ?n _ = _ =>
            replace n with (8 + List.length rest) by lia
        end;
        cbn [firstn plus app];
        rewrite firstn_app, firstn_all, Nat.sub_diag;
        cbn [firstn]; now rewrite app_nil_r]).
Qed.

(** X5. The spellings of a DOI: for [10.], four digits, a slash and a
    rest of the line, written bare, behind [doi:], or as an address at
    [doi.org] or [dx.doi.org], a call of [getSuggestions] that is not
    answered from the cache does not take the query for an arXiv
    identifier, and sends the request for the DOI, up to the end of the
    query or its first line terminator, to the Crossref endpoint with
    [Accept: application/json]. *)
Theorem doi_spellings_are_fetched
        (this : ReferenceModal) (d1 d2 d3 d4 : N) (p rest t : jsstring) :
  doi_prefix p ->
  forallb is_digit [d1; d2; d3; d4] = true ->
  forallb is_dot rest = true ->
  match t with c :: _ => is_dot c = false | [] => True end ->
  let id := [49; 48; 46; d1; d2; d3; d4; 47]%N ++ rest in
  ~ (p ++ id ++ t <> [] /\ lastQuery this = Some (p ++ id ++ t)) ->
  fetched (getSuggestions this (p ++ id ++ t))
  = Some {| url := lit "https://data.crossref.org/" ++ id;
            accept_header := Some (lit "application/json");
            then_ := DoiCallback (p ++ id ++ t) (VStr id) |}.
Proof.
  intros Hp Hd Hrest Ht id Hmiss. apply is_last_query_miss in Hmiss.
  unfold id in *. rewrite <- !app_assoc in *.
  destruct (doi_spellings d1 d2 d3 d4 p rest t Hp Hd Hrest Ht)
    as (Ha & m & Hm & Hg).
  unfold getSuggestions. rewrite Hmiss.
  cbn [app] in Ha, Hm |- *. rewrite Ha, Hm. cbn [fetched].
  now rewrite Hg.
Qed.

Lemma doi_spellings_are_fetched_witness :
  fetched (getSuggestions ex_modal
             (lit "https://dx.doi.org/"
                  ++ (lit "10.1000/" ++ lit "182") ++ [LF] ++ lit "x"))
  = Some {| url := lit "https://data.crossref.org/"
                   ++ (lit "10.1000/" ++ lit "182");
            accept_header := Some (lit "application/json");
            then_ := DoiCallback
                       (lit "https://dx.doi.org/"
                            ++ (lit "10.1000/" ++ lit "182")
                            ++ [LF] ++ lit "x")
                       (VStr (lit "10.1000/" ++ lit "182")) |}.
Proof.
  apply (doi_spellings_are_fetched ex_modal 49 48 48 48
           (lit "https://dx.doi.org/") (lit "182") ([LF] ++ lit "x")).
  - right. right. right. right. left. reflexivity.
  - reflexivity.
  - reflexivity.
  - reflexivity.
  - intros [_ H]. discriminate H.
Defined.

(** ** No query is both an arXiv identifier and a DOI *)

(** A match found by the search, with the place where it was found. *)
Lemma search_inv_at (r : regex) (s : jsstring) :
  forall (i : nat) (m : match_result),
    search r i s = Some m ->
    exists pre s0 j s' c',
      s = pre ++ s0
      /\ den r (i + List.length pre) s0 [] j s' c'
      /\ m = MatchResult (i + List.length pre) j c'.
Proof.
  induction s as [|ch s IH]; intros i m H; simpl in H.
  - destruct (rmatch r i [] [] (accept i)) eqn:E; [|discriminate].
    injection H as ->. apply rmatch_inv in E as (j & s' & c' & D & E).
    injection E as <-. exists [], [], j, s', c'. simpl.
    rewrite Nat.add_0_r. auto.
  - destruct (rmatch r i (ch :: s) [] (accept i)) eqn:E.
    + injection H as ->. apply rmatch_inv in E as (j & s' & c' & D & E).
      injection E as <-. exists [], (ch :: s), j, s', c'. simpl.
      rewrite Nat.add_0_r. auto.
    + apply IH in H as (pre & s0 & j & s' & c' & -> & D & ->).
      exists (ch :: pre), s0, j, s', c'. simpl.
      rewrite Nat.add_succ_r. auto.
Qed.

(** A match of a pattern that starts with [^] is a match of the whole
    query from its start. *)
Lemma anchored_match (r : regex) (q : jsstring) (m : match_result) :
  str_match q (Cat Bol r) = Some m ->
  exists j s' c', den r 0 q [] j s' c'.
Proof.
  intros H. apply search_inv_at in H as (pre & s0 & j & s' & c' & -> & D & _).
  cbn [den] in D. destruct D as (j1 & s1 & c1 & (Hi & -> & -> & ->) & D).
  simpl in Hi. destruct pre; [|discriminate]. now exists j, s', c'.
Qed.

Ltac open_den H :=
  cbn in H;
  repeat match goal with
         | H : exists _, _ |- _ => destruct H
         | H : _ /\ _ |- _ => destruct H
         | H : _ \/ _ |- _ => destruct H
         end.

Ltac clash :=
  repeat match goal with
         | H : is_char _ _ = true |- _ =>
             unfold is_char in H; apply N.eqb_eq in H
         end;
  subst;
  repeat (match goal with
          | H : _ :: _ = _ :: _ |- _ => injection H as ? ?
          end; subst);
  try match goal with
      | H : ?t = true |- _ =>
          let v := eval vm_compute in t in
          match v with false => vm_compute in H; discriminate H end
      end.

(** A sequence of patterns matches part by part. *)
Lemma den_Seq_app (l1 l2 : list regex) :
  forall i s c j s' c',
    den (Seq (l1 ++ l2)) i s c j s' c' ->
    exists j1 s1 c1,
      den (Seq l1) i s c j1 s1 c1 /\ den (Seq l2) j1 s1 c1 j s' c'.
Proof.
  induction l1 as [|r l1 IH]; intros i s c j s' c' D.
  - exists i, s, c. simpl. auto.
  - cbn [app Seq fold_right den] in D.
    destruct D as (j0 & s0 & c0 & D0 & D).
    apply IH in D as (j1 & s1 & c1 & D1 & D2).
    exists j1, s1, c1. split; [|exact D2].
    cbn [Seq fold_right den]. now exists j0, s0, c0.
Qed.

Lemma prefixes_clash (q : jsstring) ja sa ca j1 s1 c1 jd sd cd j2 s2 c2 :
  den (Seq [Opt (Seq [Opt (Liti ":"); Liti "http"; Opt (Liti "s");
                 Liti "://arxiv.org/"; Rep 3 (Cls is_word); Liti "/"]);
            Opt (Seq [Opt (Liti ":"); Liti "arXiv:"])]) 0 q [] ja sa ca ->
  den (Seq [Rep 4 (Cls is_digit); Liti "."]) ja sa ca j1 s1 c1 ->
  den (Seq [Opt (Seq [Lit "http"; Opt (Lit "s"); Lit "://"; Opt (Lit "dx.");
                      Lit "doi.org/"]);
            Opt (Lit "doi:")]) 0 q [] jd sd cd ->
  den (Seq [Lit "10."]) jd sd cd j2 s2 c2 ->
  False.
Proof.
  intros A1 A2 D1 D2.
  open_den D2; open_den D1; clash; open_den A2; open_den A1; clash.
Qed.

(** X6. No query matches both patterns, so the order in which
    [getSuggestions] tries them, arXiv before DOI, never decides
    anything: a query that the arXiv pattern matches is not matched by
    the DOI pattern. *)
Theorem patterns_are_disjoint (q : jsstring) (m : match_result) :
  str_match q arxivPattern = Some m ->
  str_match q doiPattern = None.
Proof.
  intros Ha. destruct (str_match q doiPattern) as [m'|] eqn:Hd;
    [exfalso|reflexivity].
  apply anchored_match in Ha as (j1 & s1 & c1 & A).
  apply anchored_match in Hd as (j2 & s2 & c2 & D).
  apply (den_Seq_app [_; _] [_; _; _]) in A as (ja & sa & ca & A1 & A).
  apply (den_Seq_app [_; _] [_]) in D as (jd & sd & cd & D1 & D).
  cbn [Seq fold_right den] in A, D.
  destruct A as (j3 & s3 & c3 & (c4 & A & _) & _).
  destruct A as (j4 & s4 & c5 & A2 & j5 & s5 & c6 & A3 & _).
  destruct D as (j6 & s6 & c7 & (c8 & D & _) & _).
  destruct D as (j7 & s7 & c9 & D2 & _).
  apply (prefixes_clash q ja sa ca j5 s5 c6 jd sd cd j7 s7 c9 A1); auto.
  - cbn [Seq fold_right den]. exists j4, s4, c5. split; [exact A2|].
    exists j5, s5, c6. auto.
  - cbn [Seq fold_right den]. exists j7, s7, c9. auto.
Qed.

Lemma patterns_are_disjoint_witness :
  str_match ex_arxiv_query doiPattern = None.
Proof.
  apply (patterns_are_disjoint ex_arxiv_query ex_arxiv_match).
  reflexivity.
Defined.

(** ** The names of arXiv authors *)

(** A lazy star stops at the first place where what follows matches. *)
Lemma star_lazy_first (A : Type) (p : N -> bool)
      (k : nat -> jsstring -> option A) (w t : jsstring) (x : A) :
  forall i,
    forallb p w = true ->
    (forall a b, w = a ++ b -> b <> [] ->
                 k (i + List.length a) (b ++ t) = None) ->
    k (i + List.length w) t = Some x ->
    star_lazy p i (w ++ t) k = Some x.
Proof.
  induction w as [|c w IH]; intros i Hw Hnone Hk.
  - simpl in *. rewrite Nat.add_0_r in Hk.
    destruct t; simpl; now rewrite Hk.
  - simpl in Hw. apply andb_true_iff in Hw as [Hc Hw].
    assert (H0 := Hnone [] (c :: w) eq_refl ltac:(discriminate)).
    simpl in H0. rewrite Nat.add_0_r in H0.
    cbn [app star_lazy]. rewrite H0, Hc. apply IH; auto.
    + intros a b -> Hb. specialize (Hnone (c :: a) b eq_refl Hb).
      simpl in Hnone. now rewrite Nat.add_succ_r in Hnone.
    + simpl in Hk. now rewrite Nat.add_succ_r in Hk.
Qed.

(** White space and then a word cannot hold a character that is none
    before one that is. *)
Lemma space_then_word (A B pre post : jsstring) (e s0 : N) :
  forallb is_space A = true -> forallb is_nonspace B = true ->
  A ++ B = pre ++ e :: s0 :: post ->
  is_space e = false -> is_space s0 = true -> False.
Proof.
  revert A. induction pre as [|x pre IH]; intros A HA HB E He Hs.
  - destruct A as [|a A]; simpl in E.
    + subst B. simpl in HB. unfold is_nonspace in HB at 2.
      rewrite Hs in HB. simpl in HB. now rewrite andb_false_r in HB.
    + injection E as -> _. simpl in HA. now rewrite He in HA.
  - destruct A as [|a A]; simpl in E.
    + subst B. cbn [forallb] in HB. apply andb_true_iff in HB as [_ HB].
      rewrite forallb_app in HB. apply andb_true_iff in HB as [_ HB].
      simpl in HB. unfold is_nonspace in HB at 2. rewrite Hs in HB.
      simpl in HB. now rewrite andb_false_r in HB.
    + injection E as _ E. simpl in HA. apply andb_true_iff in HA as [_ HA].
      now apply (IH A).
Qed.

(** The rest of the author pattern matches white space and a word. *)
Lemma author_rest_matches (j : nat) (ws last : jsstring) (caps : captures) :
  ws <> [] -> forallb is_space ws = true ->
  last <> [] -> forallb is_nonspace last = true ->
  rmatch author_rest j (ws ++ last) caps (accept 0)
  = Some (MatchResult 0 (j + List.length ws + List.length last)
                      (("last"%string, last) :: caps)).
Proof.
  intros Hws Hs Hlast Hn.
  destruct ws as [|s0 ws]; [congruence|].
  destruct last as [|l0 last]; [congruence|].
  cbn [forallb] in Hs, Hn.
  apply andb_true_iff in Hs as [Hs0 Hs].
  apply andb_true_iff in Hn as [Hl0 Hn].
  assert (Hl0' : is_space l0 = false)
    by (unfold is_nonspace in Hl0; now apply negb_true_iff in Hl0).
  change (rmatch author_rest j ((s0 :: ws) ++ l0 :: last) caps (accept 0))
    with (if is_space s0
          then star_greedy is_space (S j) (ws ++ l0 :: last)
                 (fun j2 s2 =>
                    match s2 with
                    | c :: s3 =>
                        if is_nonspace c
                        then star_greedy is_nonspace (S j2) s3
                               (fun j3 s4 =>
                                  match s4 with
                                  | [] =>
                                      Some (MatchResult 0 j3
                                              (("last"%string,
                                                firstn (j3 - j2) s2) :: caps))
                                  | _ :: _ => None
                                  end)
                        else None
                    | [] => None
                    end)
          else None).
  rewrite Hs0.
  erewrite star_greedy_longest; [reflexivity|exact Hs|exact Hl0'|].
  cbv beta iota. rewrite Hl0.
  rewrite <- (app_nil_r last) at 1.
  erewrite star_greedy_longest; [reflexivity|exact Hn|exact I|].
  cbv beta iota. f_equal. f_equal; [simpl; lia|]. do 2 f_equal.
  replace (S (S j + List.length ws) + List.length last
           - (S j + List.length ws)) with (S (List.length last)) by lia.
  cbn [firstn]. now rewrite firstn_all.
Qed.

Lemma ends_clean_app (a b : jsstring) :
  b <> [] -> ends_clean (a ++ b) = ends_clean b.
Proof.
  intros Hb. destruct (exists_last Hb) as (b' & x & ->).
  now rewrite app_assoc, !ends_clean_snoc.
Qed.

(** It does not match where a character that is no white space comes
    before the white space. *)
Lemma author_rest_fails (j : nat) (b ws last : jsstring) (caps : captures) :
  b <> [] -> ends_clean b = true ->
  ws <> [] -> forallb is_space ws = true ->
  rmatch author_rest j (b ++ ws ++ last) caps (accept 0) = None.
Proof.
  intros Hb He Hws Hs.
  destruct (rmatch author_rest j (b ++ ws ++ last) caps (accept 0)) as [m|] eqn:E;
    [exfalso|reflexivity].
  apply rmatch_inv in E as (j' & s' & c' & D & _).
  cbn in D.
  repeat match goal with
         | H : exists _, _ |- _ => destruct H
         | H : _ /\ _ |- _ => destruct H
         end.
  subst.
  destruct (exists_last Hb) as (b' & e & ->).
  rewrite ends_clean_snoc in He. apply negb_true_iff in He.
  destruct ws as [|s0 ws]; [congruence|].
  cbn [forallb] in Hs. apply andb_true_iff in Hs as [Hs0 Hs].
  match goal with
  | H : (b' ++ [e]) ++ (s0 :: ws) ++ last = ?sp :: ?w1 ++ ?ns :: ?w2 ++ [] |- _ =>
      apply (space_then_word (sp :: w1) (ns :: w2) b' (ws ++ last) e s0)
  end; auto.
  - cbn [forallb]. apply andb_true_iff. auto.
  - cbn [forallb]. apply andb_true_iff. auto.
  - rewrite app_nil_r in *. rewrite <- app_assoc in *. simpl in *. congruence.
Qed.

Lemma author_pattern_splits (first ws last : jsstring) :
  first <> [] -> forallb is_dot first = true -> ends_clean first = true ->
  ws <> [] -> forallb is_space ws = true ->
  last <> [] -> forallb is_nonspace last = true ->
  str_match (first ++ ws ++ last) arxivAuthorPattern
  = Some (MatchResult 0 (List.length first + List.length ws + List.length last)
                      [("last"%string, last); ("first"%string, first)]).
Proof.
  intros Hf Hdot He Hws Hs Hlast Hn.
  destruct first as [|f0 first]; [congruence|].
  cbn [forallb] in Hdot. apply andb_true_iff in Hdot as [Hf0 Hdot].
  apply search_found.
  change (rmatch arxivAuthorPattern 0 ((f0 :: first) ++ ws ++ last) []
            (accept 0))
    with (if is_dot f0
          then star_lazy is_dot 1 (first ++ ws ++ last)
                 (fun j s' =>
                    rmatch author_rest j s'
                      [("first"%string,
                        firstn (j - 0) (f0 :: first ++ ws ++ last))]
                      (accept 0))
          else None).
  rewrite Hf0.
  erewrite star_lazy_first; [reflexivity|exact Hdot| |].
  - intros a b -> Hb. apply author_rest_fails; auto.
    rewrite app_comm_cons in He. now rewrite ends_clean_app in He.
  - rewrite author_rest_matches by assumption.
    replace (1 + List.length first - 0) with (S (List.length first)) by lia.
    cbn [firstn]. rewrite firstn_app, firstn_all, Nat.sub_diag.
    cbn [firstn]. rewrite app_nil_r. reflexivity.
Qed.

(** X7. The author pattern splits a name at its last run of white
    space: for an [author] element whose trimmed text is a first part
    that holds no line terminator and does not end in white space, then
    white space, then a last word without white space, the arXiv
    normalizer stores the first part as [first] and the last word as
    [last]. *)
Theorem arxiv_author_splits (author : node) (first ws last : jsstring) :
  trim (textContent author) = first ++ ws ++ last ->
  first <> [] -> forallb is_dot first = true -> ends_clean first = true ->
  ws <> [] -> forallb is_space ws = true ->
  last <> [] -> forallb is_nonspace last = true ->
  arxiv_author author
  = VObj [(lit "first", VStr first); (lit "last", VStr last)].
Proof.
  intros Ht Hf Hdot He Hws Hs Hlast Hn. unfold arxiv_author.
  rewrite Ht, (author_pattern_splits first ws last) by assumption.
  reflexivity.
Qed.

Lemma arxiv_author_splits_witness :
  arxiv_author
    (Element (lit "author")
       [Text [LF; 32%N];
        Element (lit "name") [Text (lit "Johann  van der" ++ [LF] ++ lit "Waals")];
        Text [LF]])
  = VObj [(lit "first", VStr (lit "Johann  van der"));
          (lit "last", VStr (lit "Waals"))].
Proof.
  apply (arxiv_author_splits _ (lit "Johann  van der") [LF] (lit "Waals"));
    try reflexivity; discriminate.
Defined.

(** X8. A name without white space in it is no name to the arXiv
    normalizer: when the trimmed text of an [author] element holds no
    white space (one word, or nothing at all), the author pattern does
    not match and the normalizer stores [null] for this author. *)
Theorem arxiv_author_one_word (author : node) :
  forallb is_nonspace (trim (textContent author)) = true ->
  arxiv_author author = VNull.
Proof.
  intros H. unfold arxiv_author.
  destruct (str_match (trim (textContent author)) arxivAuthorPattern)
    as [m|] eqn:E; [exfalso|reflexivity].
  apply anchored_match in E as (j & s' & c' & D).
  cbn in D.
  repeat match goal with
         | H : exists _, _ |- _ => destruct H
         | H : _ /\ _ |- _ => destruct H
         end.
  subst.
  match goal with
  | E : trim (textContent author) = _ |- _ => rewrite E in H
  end.
  cbn [forallb] in H. rewrite forallb_app in H. cbn [forallb] in H.
  match goal with
  | Hs : is_space ?c = true |- _ =>
      unfold is_nonspace in H at 3; rewrite Hs in H
  end.
  simpl in H. repeat rewrite andb_false_r in H. discriminate.
Qed.

Lemma arxiv_author_one_word_witness :
  arxiv_author ex_mononym = VNull.
Proof.
  apply (arxiv_author_one_word ex_mononym). reflexivity.
Defined.

(** ** When formatReference returns *)

Lemma format_author_returns (author : value) :
  author <> VNull -> author <> VUndef -> exists t, format_author author = Ok t.
Proof.
  destruct author; cbn; intros H1 H2; try congruence; eauto.
Qed.

(** It returns when no author is [null] or [undefined]. *)
Lemma formatReference_returns (r : Reference) (link : bool)
      (authors : list value) :
  get_own r (lit "authors") = VArr authors ->
  ~ In VNull authors -> ~ In VUndef authors ->
  exists s, formatReference r link = Ok s.
Proof.
  intros Ha Hn Hu. unfold formatReference. rewrite Ha.
  cbn [format_authors].
  destruct (mapM_total _ _ format_author authors) as (names & ->).
  - apply Forall_forall. intros a Hin. apply format_author_returns.
    + intros ->. contradiction.
    + intros ->. contradiction.
  - cbn [bind]. eauto.
Qed.

(** X9. [formatReference] returns only when [reference.authors] is an
    array none of whose elements is [null] or [undefined]; and then it
    does return, if every value that it prints converts to a string, that
    is, if none of them holds an object with an own property
    [toString]. *)
Theorem formatReference_returns_iff (r : Reference) (link : bool) :
  ((exists s, formatReference r link = Ok s) ->
   exists authors,
     get_own r (lit "authors") = VArr authors
     /\ ~ In VNull authors /\ ~ In VUndef authors)
  /\ (Forall (fun v => convertible v = true) (printed r) ->
      (exists authors,
          get_own r (lit "authors") = VArr authors
          /\ ~ In VNull authors /\ ~ In VUndef authors) ->
      exists s, formatReference r link = Ok s).
Proof.
  split.
  - intros (s & H).
    apply formatReference_lines in H as (formatted & Ha & _).
    destruct (get_own r (lit "authors")) as [| | | | |l|]; try discriminate.
    exists l. split; [reflexivity|].
    simpl in Ha. apply mapM_Ok in Ha.
    split; intros Hin;
      (induction Ha as [|a t l ts Hat _ IH]; [destruct Hin|];
       destruct Hin as [->|Hin]; [discriminate|auto]).
  - intros _ (authors & Ha & Hn & Hu).
    now apply (formatReference_returns r link authors).
Qed.

(** ** Linking and the keys of the reference *)

Lemma field_lines_unlinked (r : Reference) (l1 l2 : bool) (ks : list jsstring) :
  (forall key, In key ks -> contains LINKED_FIELDS key = false) ->
  field_lines r l1 ks = field_lines r l2 ks.
Proof.
  induction ks as [|key ks IH]; intros H; [reflexivity|].
  cbn [field_lines]. unfold field_line, field_value.
  rewrite (H key (or_introl eq_refl)), !andb_false_r.
  rewrite IH by (intros k Hk; apply H; now right).
  reflexivity.
Qed.

(** X10. Linking touches nothing but [journal] and [publisher]: for a
    reference with neither key, [formatReference] gives the same text,
    or throws alike, with and without linking. *)
Theorem formatReference_link_irrelevant (r : Reference) :
  ~ In (lit "journal") (keys r) -> ~ In (lit "publisher") (keys r) ->
  formatReference r true = formatReference r false.
Proof.
  intros Hj Hp. unfold formatReference.
  rewrite (field_lines_unlinked r true false (keys r)); [reflexivity|].
  intros key Hin. destruct (contains LINKED_FIELDS key) eqn:E; [|reflexivity].
  apply contains_linked in E as [-> | ->]; contradiction.
Qed.

Lemma formatReference_link_irrelevant_witness :
  formatReference ex_doi_reference true = formatReference ex_doi_reference false.
Proof.
  apply (formatReference_link_irrelevant ex_doi_reference).
  - vm_compute. intuition discriminate.
  - vm_compute. intuition discriminate.
Defined.

Lemma formatReference_returns_iff_witness :
  exists s, formatReference ex_reference true = Ok s.
Proof.
  apply (formatReference_returns_iff ex_reference true).
  - repeat constructor.
  - exists [ex_author]. split; [reflexivity|].
    split; intros [H|[]]; discriminate H.
Defined.

(** ** DOI suggestions can always be written *)

(** The authors and the type of the reference that the DOI normalizer
    builds. *)
Lemma doi_suggestion_authors_type (identifier payload : value) (r : Reference) :
  doi_suggestion identifier payload = Ok r ->
  exists payload_type authors,
    get payload "type" = Ok payload_type
    /\ get_own r (lit "type") = doi_type payload_type
    /\ get_own r (lit "authors") = VArr authors
    /\ Forall (fun o => exists given family,
                   o = VObj [(lit "first", given); (lit "last", family)])
              authors.
Proof.
  unfold doi_suggestion. intros H.
  apply bind_Ok in H as (payload_author & Hpa & H).
  apply bind_Ok in H as (items & Hit & H).
  apply bind_Ok in H as (authors & Hau & H).
  apply bind_Ok in H as (payload_type & Hty & H).
  apply bind_Ok in H as (title & Hti & H).
  apply bind_Ok in H as (issued & His & H).
  apply bind_Ok in H as (date_parts & Hdp & H).
  apply bind_Ok in H as (date_part & Hd0 & H).
  apply bind_Ok in H as (year & Hy & H).
  exists payload_type, authors. split; [exact Hty|].
  assert (HA : Forall (fun o => exists given family,
                           o = VObj [(lit "first", given); (lit "last", family)])
                      authors).
  { apply doi_authors_Ok in Hau. clear - Hau.
    induction Hau as [|a o l l' (g & f & _ & _ & ->) _ IH]; constructor; eauto. }
  unfold doi_type_fields in H.
  destruct (loose_eq_word (doi_type payload_type) "article").
  - apply bind_Ok in H as (journal & Hj & H).
    apply bind_Ok in H as (volume & Hv & H).
    apply bind_Ok in H as (page & Hp & H).
    apply bind_Ok in H as (journal_issue & Hji & H).
    apply bind_Ok in H as (issue & Hi & H).
    injection H as <-. repeat split; auto.
  - destruct (loose_eq_word (doi_type payload_type) "book").
    + apply bind_Ok in H as (publisher & Hp & H). injection H as <-.
      repeat split; auto.
    + destruct (loose_eq_word (doi_type payload_type) "techreport").
      * apply bind_Ok in H as (institution & Hi & H). injection H as <-.
        repeat split; auto.
      * injection H as <-. repeat split; auto.
Qed.

(** X11. A suggestion of the DOI normalizer never fails on its authors:
    if the values that [formatReference] prints convert to strings, it
    returns on the suggestion, with and without linking. For a Crossref
    type that reads the lookup table itself (it is no name that the table
    inherits), the text starts with [@], the type that the lookup gave,
    and [{CITEKEY], which for a type outside the table is
    [@undefined{CITEKEY]. *)
Theorem doi_suggestion_formats (identifier payload payload_type : value)
        (r : Reference) (link : bool) :
  doi_suggestion identifier payload = Ok r ->
  get payload "type" = Ok payload_type ->
  Forall (fun v => convertible v = true) (printed r) ->
  exists s,
    formatReference r link = Ok s
    /\ (plain_key payload_type ->
        startsWith s (lit "@" ++ to_string (doi_type payload_type)
                          ++ lit "{CITEKEY") = true
        /\ (to_string payload_type <> lit "article-journal" ->
            to_string payload_type <> lit "monograph" ->
            to_string payload_type <> lit "report" ->
            startsWith s (lit "@undefined{CITEKEY") = true)).
Proof.
  intros H Hty _.
  destruct (doi_suggestion_authors_type identifier payload r H)
    as (payload_type' & authors & Hty' & Ht & Ha & HA).
  rewrite Hty in Hty'. injection Hty' as <-.
  destruct (formatReference_returns r link authors Ha) as (s & Hs).
  { rewrite Forall_forall in HA.
    intros Hin. apply HA in Hin as (g & f & Hin). discriminate Hin. }
  { rewrite Forall_forall in HA.
    intros Hin. apply HA in Hin as (g & f & Hin). discriminate Hin. }
  exists s. split; [exact Hs|].
  apply formatReference_lines in Hs as (names & _ & ->).
  rewrite Ht.
  assert (E : startsWith
                (join [44%N; LF; 32%N; 32%N]
                   ((lit "@" ++ to_string (doi_type payload_type)
                         ++ lit "{CITEKEY")
                    :: (lit "author = { " ++ join (lit " and ") names
                            ++ lit " }")
                    :: field_lines r link (keys r)) ++ [LF; 125%N])
                (lit "@" ++ to_string (doi_type payload_type)
                     ++ lit "{CITEKEY") = true).
  { cbn [join]. rewrite <- !app_assoc.
    rewrite (app_assoc (lit "@")), (app_assoc (lit "@" ++ _)).
    apply startsWith_app. }
  intros _. split; [exact E|].
  intros H1 H2 H3.
  destruct (doi_type_cases payload_type) as (_ & _ & _ & Hu).
  rewrite (Hu H1 H2 H3) in E |- *. exact E.
Qed.

Lemma doi_suggestion_formats_witness :
  exists s,
    formatReference ex_doi_reference true = Ok s
    /\ startsWith s (lit "@undefined{CITEKEY") = true.
Proof.
  destruct (doi_suggestion_formats (VStr (lit "10.1000/182")) ex_doi_payload
              (VStr (lit "journal-article")) ex_doi_reference true
              eq_refl eq_refl)
    as (s & Hs & Hu).
  - repeat constructor.
  - exists s. split; [exact Hs|]. apply Hu; try discriminate.
    split; [reflexivity|].
    vm_compute. intuition discriminate.
Defined.

(** ** The note of an arXiv entry *)

Lemma year_string (y1 y2 : N) :
  is_digit y1 = true -> is_digit y2 = true ->
  number_to_string (number_add (Int 2000) (parseInt [y1; y2]))
  = lit "20" ++ [y1; y2].
Proof.
  intros H1 H2.
  destruct (digit_cases _ H1) as [->|[->|[->|[->|[->|[->|[->|[->|[->| ->]]]]]]]]];
    destruct (digit_cases _ H2) as [->|[->|[->|[->|[->|[->|[->|[->|[->| ->]]]]]]]]];
    reflexivity.
Qed.

Lemma arxiv_authors_format (authors : list node) :
  Forall (fun a => str_match (trim (textContent a)) arxivAuthorPattern <> None)
         authors ->
  mapM format_author (map arxiv_author authors) = Ok (map author_link authors).
Proof.
  induction 1 as [|a l Ha _ IH]; [reflexivity|].
  cbn [map mapM]. rewrite IH.
  unfold arxiv_author, author_link.
  destruct (str_match (trim (textContent a)) arxivAuthorPattern); [|congruence].
  reflexivity.
Qed.

(** The text for a reference with the keys of an arXiv suggestion. *)
Lemma arxiv_reference_lines (authors : list value) (year : value)
      (title id : jsstring) :
  formatReference
    [(lit "type", VStr (lit "article"));
     (lit "authors", VArr authors);
     (lit "year", year);
     (lit "title", VStr title);
     (lit "journal", VStr (lit "arXiv"));
     (lit "arxiv", VStr id);
     (lit "pages", VStr id)] true
  = bind (mapM format_author authors)
      (fun names =>
         Ok (join [44; LF; 32; 32]%N
               [lit "@article{CITEKEY";
                lit "author = { " ++ join (lit " and ") names ++ lit " }";
                lit "year = { " ++ to_string year ++ lit " }";
                lit "title = { " ++ title ++ lit " }";
                lit "journal = { [[arXiv]] }";
                lit "arxiv = { " ++ id ++ lit " }";
                lit "pages = { " ++ id ++ lit " }"]
             ++ [LF; 125%N])).
Proof.
  reflexivity.
Qed.

(** The reference that the arXiv normalizer builds for an entry. *)
Lemma arxiv_entry_shape (id : jsstring) (entry : node) (r : Reference)
      (title : node) (titles : list node) :
  arxiv_entry (VStr id) entry = Ok r ->
  getElementsByTagName entry "title" = title :: titles ->
  r = [(lit "type", VStr (lit "article"));
       (lit "authors",
        VArr (map arxiv_author (getElementsByTagName entry "author")));
       (lit "year", VNum (number_add (Int 2000) (parseInt (substring id 0 2))));
       (lit "title", VStr (textContent title));
       (lit "journal", VStr (lit "arXiv"));
       (lit "arxiv", VStr id);
       (lit "pages", VStr id)].
Proof.
  unfold arxiv_entry. intros H Ht. rewrite Ht in H.
  now injection H as <-.
Qed.

(** X12. The note of an arXiv entry: for an entry with a title whose
    authors all match the author pattern, the text that
    [formatReference] gives, with linking, for the reference that the
    arXiv normalizer builds is the header [@article{CITEKEY], the
    authors as ['[[last, first]]'] joined by [' and '], and then, in
    this order, the year spelled [20YY], the title, the journal as
    ['[[arXiv]]'], and the identifier as [arxiv] and as [pages]. *)
Theorem arxiv_note_text (y1 y2 : N) (id : jsstring) (entry : node)
        (r : Reference) (title : node) (titles : list node) :
  arxiv_identifier y1 y2 id ->
  arxiv_entry (VStr id) entry = Ok r ->
  getElementsByTagName entry "title" = title :: titles ->
  Forall (fun a => str_match (trim (textContent a)) arxivAuthorPattern <> None)
         (getElementsByTagName entry "author") ->
  formatReference r true
  = Ok (join [44; LF; 32; 32]%N
          [lit "@article{CITEKEY";
           lit "author = { "
               ++ join (lit " and ")
                       (map author_link (getElementsByTagName entry "author"))
               ++ lit " }";
           lit "year = { " ++ lit "20" ++ [y1; y2] ++ lit " }";
           lit "title = { " ++ textContent title ++ lit " }";
           lit "journal = { [[arXiv]] }";
           lit "arxiv = { " ++ id ++ lit " }";
           lit "pages = { " ++ id ++ lit " }"]
        ++ [LF; 125%N]).
Proof.
  intros (m1 & m2 & n1 & n2 & n3 & n4 & n5 & -> & Hd) H Ht Ha.
  cbn [forallb] in Hd.
  apply andb_true_iff in Hd as [Hy1 Hd]. apply andb_true_iff in Hd as [Hy2 _].
  rewrite (arxiv_entry_shape _ entry r title titles H Ht).
  change (substring [y1; y2; m1; m2; 46%N; n1; n2; n3; n4; n5] 0 2)
    with [y1; y2].
  rewrite arxiv_reference_lines, (arxiv_authors_format _ Ha). cbn [bind].
  change (to_string (VNum (number_add (Int 2000) (parseInt [y1; y2]))))
    with (number_to_string (number_add (Int 2000) (parseInt [y1; y2]))).
  now rewrite (year_string y1 y2 Hy1 Hy2).
Qed.

Lemma arxiv_note_text_witness :
  exists s,
    formatReference
      [(lit "type", VStr (lit "article"));
       (lit "authors", VArr [ex_author]);
       (lit "year", VNum (Int 2021));
       (lit "title", VStr (lit "Notes"));
       (lit "journal", VStr (lit "arXiv"));
       (lit "arxiv", VStr (lit "2101.00001"));
       (lit "pages", VStr (lit "2101.00001"))] true = Ok s
    /\ startsWith s (lit "@article{CITEKEY") = true.
Proof.
  eexists. split.
  - apply (arxiv_note_text 50 49 (lit "2101.00001")
             (Element (lit "entry")
                [Element (lit "title") [Text (lit "Notes")];
                 Element (lit "author") [Text (lit "Ada Lovelace")]])
             _ (Element (lit "title") [Text (lit "Notes")]) []).
    + exists 48%N, 49%N, 48%N, 48%N, 48%N, 48%N, 49%N. split; reflexivity.
    + reflexivity.
    + reflexivity.
    + repeat constructor. discriminate.
  - reflexivity.
Defined.

(** ** The year of an arXiv suggestion *)

Lemma digit_of_range (c : N) :
  is_digit c = true -> (0 <= digit_of c <= 9)%Z.
Proof.
  unfold is_digit, digit_of. intros H. apply andb_true_iff in H as [H1 H2].
  apply N.leb_le in H1, H2. lia.
Qed.

Lemma Forall2_Forall_r (A B : Type) (R : A -> B -> Prop) (P : B -> Prop)
      (l : list A) (l' : list B) :
  (forall a b, R a b -> P b) -> Forall2 R l l' -> Forall P l'.
Proof.
  intros H. induction 1; constructor; eauto.
Qed.

(** X13. The year of an arXiv suggestion is a number from 2000 to 2099,
    never [NaN]: whatever the response, every reference that the arXiv
    callback hands on for a query that matched the arXiv pattern has
    such a year. *)
Theorem arxiv_year_range (query : jsstring) (m : match_result)
        (payload : node) (suggestions : list Reference) :
  str_match query arxivPattern = Some m ->
  arxiv_suggestions (group_value m "identifier") payload = Ok suggestions ->
  Forall (fun r => exists y,
              get_own r (lit "year") = VNum (Int y)
              /\ (2000 <= y <= 2099)%Z)
         suggestions.
Proof.
  intros Hm H.
  destruct (arxiv_match_identifier query m Hm) as (y1 & y2 & id & Hid & Hg).
  rewrite Hg in H. apply mapM_Ok in H.
  assert (Hy : (2000 <= 2000 + (10 * digit_of y1 + digit_of y2) <= 2099)%Z).
  { destruct Hid as (m1 & m2 & n1 & n2 & n3 & n4 & n5 & _ & Hd).
    cbn [forallb] in Hd.
    apply andb_true_iff in Hd as [Hy1 Hd].
    apply andb_true_iff in Hd as [Hy2 _].
    pose proof (digit_of_range y1 Hy1).
    pose proof (digit_of_range y2 Hy2). lia. }
  revert H. apply Forall2_Forall_r. intros entry r Hr.
  exists (2000 + (10 * digit_of y1 + digit_of y2))%Z. split; [|exact Hy].
  apply (arxiv_entry_fields y1 y2 id entry r Hid Hr).
Qed.

Lemma arxiv_year_range_witness :
  Forall (fun r => exists y,
              get_own r (lit "year") = VNum (Int y)
              /\ (2000 <= y <= 2099)%Z)
         [ex_entry_reference].
Proof.
  apply (arxiv_year_range ex_arxiv_query ex_arxiv_match
           (document ex_arxiv_response) [ex_entry_reference]); reflexivity.
Defined.

(** ** Responses that dispatch nothing *)

Lemma mapM_Throw (A B : Type) (f : A -> result B) (l : list A) (x : A) :
  In x l -> (exists e, f x = Throw e) -> exists e, mapM f l = Throw e.
Proof.
  induction l as [|a l IH]; intros Hin Hx; [destruct Hin|].
  cbn [mapM]. destruct (f a) as [y|e] eqn:Ea; [|cbn; eauto].
  destruct Hin as [->|Hin].
  - destruct Hx as (e & Hx). congruence.
  - destruct (IH Hin Hx) as (e & ->). cbn. eauto.
Qed.

(** What a response that makes the callback throw leaves behind. *)
Lemma step_Fulfil_Throw (w : world) (n : nat) (resp : response)
      (rq : request) (e : error) :
  nth_error (pending w) n = Some rq ->
  run_callback (then_ rq) resp = Throw e ->
  step w (Fulfil n resp)
  = {| modal := modal w;
       pending := remove_nth n (pending w);
       input_events := input_events w |}.
Proof.
  intros Hn Hr. cbn [step]. now rewrite Hn, Hr.
Qed.

(** X14. One entry without a title loses the whole response: when the
    document of an arXiv response holds an [entry] element without a
    [title] element below it, the callback throws before it dispatches
    anything, so the request is gone from the pending ones while the
    modal, its cache and its empty-state text included, stays as it was
    and no [input] event is sent. *)
Theorem arxiv_untitled_entry (w : world) (n : nat) (resp : response)
        (rq : request) (query id : jsstring) (entry : node) :
  nth_error (pending w) n = Some rq ->
  then_ rq = ArxivCallback query (VStr id) ->
  In entry (getElementsByTagName (document resp) "entry") ->
  getElementsByTagName entry "title" = [] ->
  step w (Fulfil n resp)
  = {| modal := modal w;
       pending := remove_nth n (pending w);
       input_events := input_events w |}.
Proof.
  intros Hn Ht Hin Hnone.
  destruct (mapM_Throw _ _ (arxiv_entry (VStr id))
              (getElementsByTagName (document resp) "entry") entry Hin)
    as (e & He).
  { exists TypeError. unfold arxiv_entry. cbn [substring_of bind].
    now rewrite Hnone. }
  apply (step_Fulfil_Throw w n resp rq e Hn).
  rewrite Ht. cbn [run_callback]. unfold arxiv_suggestions. now rewrite He.
Qed.

(** X15. An article without an issue loses the response: when the
    payload of a Crossref response has a type that the lookup maps to
    ['article'] and no ['journal-issue'] (or a [null] one), the callback
    throws before it dispatches anything, whatever else the payload
    holds; the request is gone from the pending ones and the modal stays
    as it was. *)
Theorem doi_article_without_issue (w : world) (n : nat) (resp : response)
        (rq : request) (query : jsstring)
        (identifier payload payload_type journal_issue : value) :
  nth_error (pending w) n = Some rq ->
  then_ rq = DoiCallback query identifier ->
  json resp = Ok payload ->
  get payload "type" = Ok payload_type ->
  to_string payload_type = lit "article-journal" ->
  get payload "journal-issue" = Ok journal_issue ->
  journal_issue = VUndef \/ journal_issue = VNull ->
  step w (Fulfil n resp)
  = {| modal := modal w;
       pending := remove_nth n (pending w);
       input_events := input_events w |}.
Proof.
  intros Hn Ht Hj Hty Hk Hji Hnull.
  destruct (run_callback (then_ rq) resp) as [[q s]|e] eqn:E;
    [exfalso|now apply (step_Fulfil_Throw w n resp rq e)].
  rewrite Ht in E. cbn [run_callback] in E. rewrite Hj in E. cbn [bind] in E.
  apply bind_Ok in E as (l & E & _). unfold doi_suggestions in E.
  apply bind_Ok in E as (r & E & _). unfold doi_suggestion in E.
  apply bind_Ok in E as (payload_author & Hpa & E).
  apply bind_Ok in E as (items & Hit & E).
  apply bind_Ok in E as (authors & Hau & E).
  apply bind_Ok in E as (payload_type' & Hty' & E).
  rewrite Hty in Hty'. injection Hty' as <-.
  apply bind_Ok in E as (title & Hti & E).
  apply bind_Ok in E as (issued & His & E).
  apply bind_Ok in E as (date_parts & Hdp & E).
  apply bind_Ok in E as (date_part & Hd0 & E).
  apply bind_Ok in E as (year & Hy & E).
  unfold doi_type_fields in E.
  rewrite (proj1 (doi_type_cases payload_type) Hk) in E.
  change (loose_eq_word (VStr (lit "article")) "article") with true in E.
  cbv iota in E.
  apply bind_Ok in E as (journal & _ & E).
  apply bind_Ok in E as (volume & _ & E).
  apply bind_Ok in E as (page & _ & E).
  apply bind_Ok in E as (ji & Hji' & E).
  rewrite Hji in Hji'. injection Hji' as <-.
  apply bind_Ok in E as (issue & Hi & _).
  destruct Hnull as [-> | ->]; discriminate Hi.
Qed.

Lemma arxiv_untitled_entry_witness :
  step ex_pending (Fulfil 0 ex_untitled_response)
  = {| modal := modal ex_pending; pending := []; input_events := 0 |}.
Proof.
  apply (arxiv_untitled_entry ex_pending 0 ex_untitled_response
           ex_arxiv_request ex_arxiv_query (lit "2101.00001")
           ex_untitled_entry).
  - reflexivity.
  - reflexivity.
  - right. left. reflexivity.
  - reflexivity.
Defined.

Lemma doi_article_without_issue_witness :
  step ex_doi_pending
       (Fulfil 0 {| document := Text []; json := Ok ex_issueless_payload |})
  = {| modal := modal ex_doi_pending; pending := []; input_events := 0 |}.
Proof.
  apply (doi_article_without_issue ex_doi_pending 0
           {| document := Text []; json := Ok ex_issueless_payload |}
           ex_doi_request ex_doi_query (VStr (lit "10.1000/182"))
           ex_issueless_payload (VStr (lit "article-journal")) VUndef);
    try reflexivity.
  now left.
Defined.

(** ** The worlds that can be reached *)

Lemma Forall_remove_nth (A : Type) (P : A -> Prop) (n : nat) (l : list A) :
  Forall P l -> Forall P (remove_nth n l).
Proof.
  intros H. revert n. induction H as [|x l Hx Hl IH]; intros n.
  - destruct n; constructor.
  - destruct n; simpl; [assumption|]. constructor; auto.
Qed.

Lemma Forall_nth_error (A : Type) (P : A -> Prop) (n : nat) (l : list A) (x : A) :
  Forall P l -> nth_error l n = Some x -> P x.
Proof.
  intros H Hn. rewrite Forall_forall in H. apply H.
  now apply nth_error_In with n.
Qed.

Lemma getSuggestions_cache (this : ReferenceModal) (query : jsstring) :
  lastQuery (after (getSuggestions this query)) = lastQuery this
  /\ lastSuggestions (after (getSuggestions this query)) = lastSuggestions this.
Proof.
  destruct (is_last_query this query) eqn:E.
  - unfold getSuggestions. rewrite E. auto.
  - now destruct (getSuggestions_miss this query E) as (_ & H1 & H2).
Qed.

Lemma getSuggestions_request_sound (this : ReferenceModal) (query : jsstring)
      (rq : request) :
  fetched (getSuggestions this query) = Some rq -> request_sound rq.
Proof.
  unfold getSuggestions. destruct (is_last_query this query); [discriminate|].
  destruct (str_match query arxivPattern) as [m|] eqn:Ea.
  - intros H. injection H as <-. unfold request_sound. cbn [then_ url accept_header].
    destruct (arxiv_match_identifier query m Ea) as (y1 & y2 & id & Hid & Hg).
    exists m, y1, y2, id. rewrite Hg. repeat split; auto.
  - destruct (str_match query doiPattern) as [m|] eqn:Ed; [|discriminate].
    intros H. injection H as <-. unfold request_sound. cbn [then_ url accept_header].
    destruct (doi_match_identifier query m Ed) as (id & Hid & Hg).
    exists m, id. rewrite Hg. repeat split; auto.
Qed.

Lemma run_callback_query (cb : callback) (resp : response)
      (query : jsstring) (suggestions : list Reference) :
  run_callback cb resp = Ok (query, suggestions) -> query = callback_query cb.
Proof.
  destruct cb as [q id|q id]; cbn [run_callback callback_query]; intros H.
  - apply bind_Ok in H as (l & _ & H). now injection H as <- _.
  - apply bind_Ok in H as (p & _ & H). apply bind_Ok in H as (l & _ & H).
    now injection H as <- _.
Qed.

Lemma request_sound_query (rq : request) :
  request_sound rq ->
  str_match (callback_query (then_ rq)) arxivPattern <> None
  \/ str_match (callback_query (then_ rq)) doiPattern <> None.
Proof.
  unfold request_sound. destruct (then_ rq) as [q id|q id]; cbn [callback_query].
  - intros (m & y1 & y2 & i & Hm & _). left. congruence.
  - intros (m & i & _ & Hm & _). right. congruence.
Qed.

Lemma step_sound (w : world) (e : event) : world_sound w -> world_sound (step w e).
Proof.
  intros [Hp Hc]. destruct e as [query|n resp|n]; cbn [step].
  - split; cbn [pending modal].
    + apply Forall_app. split; [exact Hp|].
      destruct (fetched (getSuggestions (modal w) query)) as [rq|] eqn:E;
        constructor; [|constructor].
      now apply (getSuggestions_request_sound (modal w) query).
    + unfold cache_sound in *.
      destruct (getSuggestions_cache (modal w) query) as [-> ->]. exact Hc.
  - destruct (nth_error (pending w) n) as [rq|] eqn:En; [|now split].
    destruct (run_callback (then_ rq) resp) as [[query suggestions]|err] eqn:Er.
    + split; cbn [pending modal]; [now apply Forall_remove_nth|].
      unfold cache_sound, dispatchSuggestions. cbn [lastQuery].
      rewrite (run_callback_query _ _ _ _ Er).
      apply request_sound_query. now apply (Forall_nth_error _ _ n (pending w)).
    + split; cbn [pending modal]; [now apply Forall_remove_nth|exact Hc].
  - split; cbn [pending modal]; [now apply Forall_remove_nth|exact Hc].
Qed.

Lemma run_sound (es : list event) :
  forall w, world_sound w -> world_sound (run w es).
Proof.
  induction es as [|e es IH]; intros w H; [exact H|].
  cbn [run fold_left]. apply IH. now apply step_sound.
Qed.

(** X16. What the event loop keeps: however calls of [getSuggestions]
    and responses, failures and thrown callbacks interleave after the
    modal has been opened, every request on its way is one for a query
    that matches the pattern of its callback, sent to the endpoint of
    that pattern for the identifier captured, and the cache is empty or
    holds the suggestions of a query that matches one of the two
    patterns. *)
Theorem reachable_worlds_are_sound (emptyText : jsstring) (es : list event) :
  Forall request_sound (pending (run (opened emptyText) es))
  /\ cache_sound (modal (run (opened emptyText) es)).
Proof.
  apply (run_sound es (opened emptyText)). split; [constructor|reflexivity].
Qed.

Lemma matched_query_nonempty (query : jsstring) :
  str_match query arxivPattern <> None \/ str_match query doiPattern <> None ->
  query <> [].
Proof.
  intros [H|H] ->; now apply H.
Qed.

(** X17. What is dispatched is what is served: in every world that can
    be reached, once a response has been normalized and dispatched, the
    call of [getSuggestions] for the query of that request (the call that
    the [input] event is sent for) returns exactly the suggestions
    dispatched, sends no request and leaves the modal as it is, with
    ['No results found'] as its empty-state text. *)
Theorem dispatched_is_served (emptyText : jsstring) (es : list event)
        (n : nat) (resp : response) (rq : request)
        (query : jsstring) (suggestions : list Reference) :
  let w := run (opened emptyText) es in
  nth_error (pending w) n = Some rq ->
  run_callback (then_ rq) resp = Ok (query, suggestions) ->
  let w' := step w (Fulfil n resp) in
  getSuggestions (modal w') query
  = {| returned := suggestions; after := modal w'; fetched := None |}
  /\ emptyStateText (modal w') = lit "No results found"
  /\ input_events w' = S (input_events w).
Proof.
  intros w Hn Hr w'. unfold w'. cbn [step]. rewrite Hn, Hr. cbn [modal input_events].
  split; [|split; reflexivity].
  assert (Hq : query <> []).
  { apply matched_query_nonempty.
    rewrite (run_callback_query _ _ _ _ Hr).
    apply request_sound_query.
    apply (Forall_nth_error _ _ n (pending w)); [|exact Hn].
    apply (run_sound es (opened emptyText)).
    split; [constructor|reflexivity]. }
  unfold getSuggestions.
  assert (E : is_last_query (dispatchSuggestions (modal w) query suggestions)
                            query = true).
  { apply is_last_query_cached. split; [exact Hq|reflexivity]. }
  now rewrite E.
Qed.

Lemma dispatched_is_served_witness :
  getSuggestions (modal ex_answered) ex_arxiv_query
  = {| returned := [ex_entry_reference];
       after := modal ex_answered;
       fetched := None |}.
Proof.
  apply (dispatched_is_served (lit "No results found.") [Call ex_arxiv_query]
           0 ex_arxiv_response ex_arxiv_request ex_arxiv_query
           [ex_entry_reference]); reflexivity.
Defined.

(** ** The calls on the vault *)

Section VaultMoreFacts.
Variable vault : Type.
Variable getAbstractFileByPath : vault -> jsstring -> option TAbstractFile.
Variable createFolder : vault -> jsstring -> result vault.
Variable create : vault -> jsstring -> jsstring -> result vault.

(** X18. A reference with a [null] author is never written: whatever the
    vault and the settings, [onChooseSuggestion] calls [create] for no
    path; and where the folder is there or has been created and no file
    is in the way, the calls it has made are those for the folder and it
    ends in a [TypeError]. *)
Theorem null_author_is_not_written
        (settings : BibliographyPluginSettings) (v : vault)
        (reference : Reference) (authors : list value) :
  get_own reference (lit "authors") = VArr authors ->
  In VNull authors ->
  (forall path data,
      ~ In (Create path data)
           (fst (onChooseSuggestion getAbstractFileByPath createFolder create
                                    settings v reference)))
  /\ (forall calls v1,
         ensure_folder getAbstractFileByPath createFolder settings v
         = (calls, Ok v1) ->
         getAbstractFileByPath v1 (item_path settings reference)
         <> Some TFile ->
         onChooseSuggestion getAbstractFileByPath createFolder create
                            settings v reference
         = (calls, Throw TypeError)).
Proof.
  intros Ha Hin.
  assert (Hf : formatReference reference true = Throw TypeError).
  { unfold formatReference. rewrite Ha. cbn [format_authors].
    now rewrite (mapM_format_author_null _ Hin). }
  unfold onChooseSuggestion, choose_with, create_item. rewrite Hf.
  destruct (ensure_folder_calls vault getAbstractFileByPath createFolder
              settings v) as [Hnone _].
  destruct (ensure_folder getAbstractFileByPath createFolder settings v)
    as [calls [v1|e]]; cbn [fst] in *.
  - split.
    + intros path data H.
      destruct (getAbstractFileByPath v1 (item_path settings reference))
        as [[|]|]; cbn [fst] in H; rewrite app_nil_r in H;
        now apply Hnone in H.
    + intros calls' v1' E Hfile. injection E as <- <-.
      destruct (getAbstractFileByPath v1 (item_path settings reference))
        as [[|]|]; first [now destruct Hfile|now rewrite app_nil_r].
  - split; [exact Hnone|]. intros calls' v1' E. discriminate E.
Qed.

End VaultMoreFacts.

Lemma null_author_is_not_written_witness :
  onChooseSuggestion ex_getAbstractFileByPath ex_createFolder ex_create
                     DEFAULT_SETTINGS [] ex_entry_reference
  = ([CreateFolder (lit "bibliography")], Throw TypeError).
Proof.
  destruct (null_author_is_not_written ex_vault ex_getAbstractFileByPath
              ex_createFolder ex_create DEFAULT_SETTINGS []
              ex_entry_reference [ex_author; VNull] eq_refl
              (or_intror (or_introl eq_refl))) as [_ H].
  apply (H [CreateFolder (lit "bibliography")]
           [(lit "bibliography", TFolder)]).
  - reflexivity.
  - discriminate.
Defined.


(** ** Loading the settings *)

Lemma get_set_own_same (o : object) (k : jsstring) (v : value) :
  get_own (set_own o k v) k = v.
Proof.
  induction o as [|[k' v'] o IH]; simpl.
  - now rewrite jseqb_refl.
  - destruct (jseqb k' k) eqn:E; simpl; rewrite E; auto.
Qed.

Lemma has_own_set_own (o : object) (k : jsstring) (v : value) :
  has_own (set_own o k v) k = true.
Proof.
  induction o as [|[k' v'] o IH]; simpl.
  - now rewrite jseqb_refl.
  - destruct (jseqb k' k) eqn:E; simpl; rewrite E; auto.
Qed.

Lemma keys_set_own (o : object) (k : jsstring) (v : value) :
  keys (set_own o k v) = if has_own o k then keys o else keys o ++ [k].
Proof.
  induction o as [|[k' v'] o IH]; [reflexivity|].
  cbn [set_own has_own]. destruct (jseqb k' k) eqn:E; cbn [orb keys map fst].
  - reflexivity.
  - fold (keys (set_own o k v)). rewrite IH.
    now destruct (has_own o k).
Qed.

Lemma has_own_keys (o : object) (k : jsstring) :
  has_own o k = true <-> In k (keys o).
Proof.
  induction o as [|[k' v'] o IH]; simpl; [split; [discriminate|tauto]|].
  rewrite orb_true_iff, jseqb_eq, IH. tauto.
Qed.

Lemma NoDup_keys_set_own (o : object) (k : jsstring) (v : value) :
  NoDup (keys o) -> NoDup (keys (set_own o k v)).
Proof.
  intros Hd. rewrite keys_set_own.
  destruct (has_own o k) eqn:E; [exact Hd|].
  apply NoDup_app; auto.
  - repeat constructor. intros [].
  - intros x Hx [<-|[]]. apply has_own_keys in Hx. congruence.
Qed.

Lemma jseqb_sym (a b : jsstring) : jseqb a b = jseqb b a.
Proof.
  destruct (jseqb b a) eqn:E.
  - apply jseqb_eq in E. subst. apply jseqb_refl.
  - apply jseqb_neq in E. apply jseqb_neq. congruence.
Qed.

(** What [Object.assign] leaves under a key after one source. *)
Lemma assign_entries (entries : object) :
  forall (t : properties) (k : jsstring),
    NoDup (keys entries) ->
    fold_left (fun t kv => assign_property t (fst kv) (snd kv)) entries t k
    = if jseqb k (lit "__proto__") then t k
      else if has_own entries k then Some (get_own entries k) else t k.
Proof.
  induction entries as [|[k0 v0] entries IH]; intros t k Hd.
  - cbn [fold_left has_own]. now destruct (jseqb k (lit "__proto__")).
  - cbn [fold_left fst snd keys map] in *.
    inversion Hd as [|? ? Hnin Hd']; subst.
    rewrite IH by assumption. cbn [has_own get_own].
    destruct (jseqb k (lit "__proto__")) eqn:Ep.
    + unfold assign_property.
      destruct (jseqb k0 (lit "__proto__")) eqn:E0; [reflexivity|].
      unfold define_property.
      destruct (jseqb k0 k) eqn:E; [|reflexivity].
      apply jseqb_eq in E. subst k0. congruence.
    + destruct (jseqb k0 k) eqn:E.
      * apply jseqb_eq in E. subst k0. cbn [orb].
        assert (Hh : has_own entries k = false).
        { destruct (has_own entries k) eqn:Hh; [|reflexivity].
          apply has_own_keys in Hh. contradiction. }
        rewrite Hh. unfold assign_property, define_property.
        now rewrite Ep, jseqb_refl.
      * cbn [orb]. destruct (has_own entries k); [reflexivity|].
        unfold assign_property, define_property.
        destruct (jseqb k0 (lit "__proto__")); [reflexivity|].
        now rewrite E.
Qed.

(** Whatever is assigned, a property the target has stays one. *)
Lemma assign_entries_keeps (entries : object) :
  forall (t : properties) (k : jsstring) (v : value),
    t k = Some v ->
    exists v',
      fold_left (fun t kv => assign_property t (fst kv) (snd kv)) entries t k
      = Some v'.
Proof.
  induction entries as [|[k0 v0] entries IH]; intros t k v Ht; [now exists v|].
  cbn [fold_left fst snd].
  assert (H : exists v1, assign_property t k0 v0 k = Some v1).
  { unfold assign_property, define_property.
    destruct (jseqb k0 (lit "__proto__")); [now exists v|].
    destruct (jseqb k0 k); [now exists v0|now exists v]. }
  destruct H as (v1 & H). now apply (IH _ k v1).
Qed.

(** X20. Loading the settings: a property that the saved data holds
    becomes a property of the settings, and wins over the default, unless
    its key is [__proto__], which gives the settings no property; the
    default stays where the data has none. With [null] for the data
    (nothing was saved yet) the settings are the defaults,
    [bibliographyFolder] being ['bibliography']. Whatever was saved, the
    settings have a [bibliographyFolder] of their own. And a folder set
    on the settings, as the settings tab sets it before it saves them, is
    the folder of the settings loaded from what was saved. *)
Theorem loadSettings_merges (data : object) (key : jsstring) :
  NoDup (keys data) ->
  loadSettings (VObj data) key
  = (if jseqb key (lit "__proto__") then None
     else if has_own data key then Some (get_own data key)
     else if jseqb key (lit "bibliographyFolder")
          then Some (VStr (lit "bibliography"))
          else None)
  /\ (forall k,
         loadSettings VNull k
         = if jseqb k (lit "bibliographyFolder")
           then Some (VStr (lit "bibliography"))
           else None)
  /\ (forall saved : value,
         exists folder,
           loadSettings saved (lit "bibliographyFolder") = Some folder)
  /\ forall folder,
       loadSettings (VObj (set_own data (lit "bibliographyFolder") folder))
                    (lit "bibliographyFolder")
       = Some folder.
Proof.
  assert (G : forall o k, NoDup (keys o) ->
                loadSettings (VObj o) k
                = (if jseqb k (lit "__proto__") then None
                   else if has_own o k then Some (get_own o k)
                   else if jseqb k (lit "bibliographyFolder")
                        then Some (VStr (lit "bibliography"))
                        else None)).
  { intros o k Hd. unfold loadSettings, Object_assign. cbn [fold_left].
    unfold assign_from at 1. cbn [own_properties].
    rewrite assign_entries by assumption.
    destruct (jseqb k (lit "__proto__")) eqn:Ep.
    - apply jseqb_eq in Ep. subst k. reflexivity.
    - destruct (has_own o k); [reflexivity|].
      cbn. rewrite jseqb_sym. reflexivity. }
  intros Hd. split; [now apply G|].
  split; [intros k; cbn; now rewrite jseqb_sym|].
  split.
  - intros saved. unfold loadSettings, Object_assign. cbn [fold_left].
    apply (assign_entries_keeps _ _ _ (VStr (lit "bibliography"))).
    reflexivity.
  - intros folder. rewrite G by now apply NoDup_keys_set_own.
    change (jseqb (lit "bibliographyFolder") (lit "__proto__")) with false.
    cbv iota. rewrite has_own_set_own. now rewrite get_set_own_same.
Qed.

Lemma loadSettings_merges_witness :
  loadSettings (VObj [(lit "__proto__", VNull);
                      (lit "bibliographyFolder", VStr (lit "papers"))])
               (lit "bibliographyFolder")
  = Some (VStr (lit "papers")).
Proof.
  apply (loadSettings_merges
           [(lit "__proto__", VNull);
            (lit "bibliographyFolder", VStr (lit "papers"))]
           (lit "bibliographyFolder")).
  repeat constructor.
  - intros [H|[]]. discriminate H.
  - intros [].
Defined.

(* ================================================================== *)
(** ** The lines of a section *)

(** Splitting goes through a line feed that no carriage return
    precedes: the text before it is split on its own. *)
Lemma split_lines_from_LF (n : nat) :
  forall a b cur,
    List.length a <= n ->
    (forall a', a <> a' ++ [CR]) ->
    split_lines_from cur (a ++ LF :: b)
    = split_lines_from cur a ++ split_lines b.
Proof.
  induction n as [|n IH]; intros a b cur Hn Ha.
  - destruct a; [|simpl in Hn; lia]. reflexivity.
  - destruct a as [|c a]; [reflexivity|]. simpl in Hn.
    assert (Ha1 : forall a', a <> a' ++ [CR]).
    { intros a' E. apply (Ha (c :: a')). simpl. now f_equal. }
    cbn [app split_lines_from].
    destruct (N.eqb c LF) eqn:El.
    + rewrite (IH a b []) by (auto; lia). reflexivity.
    + destruct (N.eqb c CR) eqn:Ec.
      * destruct a as [|d a].
        -- exfalso. apply N.eqb_eq in Ec. subst c. now apply (Ha []).
        -- cbn [app]. destruct (N.eqb d LF) eqn:Ed.
           ++ assert (Ha2 : forall a', a <> a' ++ [CR]).
              { intros a' E. apply (Ha1 (d :: a')). simpl. now f_equal. }
              rewrite (IH a b []) by (auto; simpl in Hn; lia). reflexivity.
           ++ change (d :: a ++ LF :: b) with ((d :: a) ++ LF :: b).
              now rewrite (IH (d :: a) b (c :: cur)) by (auto; lia).
      * now rewrite (IH a b (c :: cur)) by (auto; lia).
Qed.

Lemma split_lines_LF (a b : jsstring) :
  (forall a', a <> a' ++ [CR]) ->
  split_lines (a ++ LF :: b) = split_lines a ++ split_lines b.
Proof.
  intros Ha. apply (split_lines_from_LF (List.length a)); auto.
Qed.

(** The same for a carriage return and a line feed. *)
Lemma split_lines_from_CRLF (n : nat) :
  forall a b cur,
    List.length a <= n ->
    split_lines_from cur (a ++ CR :: LF :: b)
    = split_lines_from cur a ++ split_lines b.
Proof.
  induction n as [|n IH]; intros a b cur Hn.
  - destruct a; [|simpl in Hn; lia]. reflexivity.
  - destruct a as [|c a]; [reflexivity|]. simpl in Hn.
    cbn [app split_lines_from].
    destruct (N.eqb c LF) eqn:El.
    + rewrite (IH a b []) by lia. reflexivity.
    + destruct (N.eqb c CR) eqn:Ec.
      * destruct a as [|d a].
        -- cbn [app]. change (N.eqb CR LF) with false. cbv iota.
           apply (IH [] b (c :: cur)). simpl. lia.
        -- cbn [app]. destruct (N.eqb d LF) eqn:Ed.
           ++ rewrite (IH a b []) by (simpl in Hn; lia). reflexivity.
           ++ change (d :: a ++ CR :: LF :: b) with ((d :: a) ++ CR :: LF :: b).
              now rewrite (IH (d :: a) b (c :: cur)) by lia.
      * now rewrite (IH a b (c :: cur)) by lia.
Qed.

(** A line break ends the last line of the text before it and starts
    the first line of the text after it. *)
Lemma split_lines_break (a sep b : jsstring) :
  line_break a sep ->
  split_lines (a ++ sep ++ b) = split_lines a ++ split_lines b.
Proof.
  intros [[-> Ha]| ->].
  - now apply split_lines_LF.
  - apply (split_lines_from_CRLF (List.length a)); auto.
Qed.

(** X21. The post-processor sees the lines of its section and no others:
    in a document made of a part before, a line break, the section, a
    line break and a part after, the text that it tests and strips, for
    the line numbers of the section, is the text of the section with
    every carriage-return-line-feed pair turned into a line feed. *)
Theorem section_text_is_the_section
        (before sep1 body sep2 after : jsstring) :
  line_break before sep1 ->
  line_break body sep2 ->
  let first := List.length (split_lines before) in
  let count := List.length (split_lines body) in
  section_text {| text := before ++ sep1 ++ body ++ sep2 ++ after;
                  lineStart := first;
                  lineEnd := first + count - 1 |}
  = normalize_newlines body.
Proof.
  intros Hb Hs. cbv zeta. unfold section_text, slice.
  cbn [text lineStart lineEnd].
  rewrite (split_lines_break before sep1 _ Hb),
          (split_lines_break body sep2 after Hs).
  rewrite skipn_app, skipn_all, Nat.sub_diag. cbn [skipn app].
  assert (Hc : List.length (split_lines body) <> 0).
  { unfold split_lines.
    pose proof (split_lines_from_nonempty [] body) as H.
    destruct (split_lines_from [] body); [congruence|discriminate]. }
  replace (List.length (split_lines before)
           + List.length (split_lines body) - 1 + 1
           - List.length (split_lines before))
    with (List.length (split_lines body)) by lia.
  rewrite firstn_app, firstn_all, Nat.sub_diag.
  cbn [firstn]. rewrite app_nil_r.
  unfold split_lines. rewrite (split_join_from (List.length body)) by lia.
  reflexivity.
Qed.

Lemma section_text_is_the_section_witness :
  section_text ex_fence_section
  = lit "^^^  " ++ [LF] ++ lit "a b" ++ [LF] ++ lit " ^^^".
Proof.
  apply (section_text_is_the_section
           (lit "intro") [CR; LF]
           (lit "^^^  " ++ [LF] ++ lit "a b" ++ [LF] ++ lit " ^^^")
           [LF] (lit "outro")).
  - right. reflexivity.
  - left. split; [reflexivity|].
    intros a' E. apply (f_equal (fun l => last l 0%N)) in E.
    rewrite last_last in E. vm_compute in E. discriminate E.
Defined.

(** ** The note of a journal article *)

Lemma doi_authors_format (items authors : list value) :
  mapM doi_author items = Ok authors ->
  mapM format_author authors = Ok (map doi_author_link items).
Proof.
  revert authors. induction items as [|a items IH]; intros authors H.
  - injection H as <-. reflexivity.
  - cbn [mapM] in H. apply bind_Ok in H as (o & Ho & H).
    apply bind_Ok in H as (os & Hos & H). injection H as <-.
    cbn [mapM map]. rewrite (IH os Hos).
    unfold doi_author in Ho.
    apply bind_Ok in Ho as (given & Hg & Ho).
    apply bind_Ok in Ho as (family & Hf & Ho). injection Ho as <-.
    unfold doi_author_link. rewrite Hg, Hf. reflexivity.
Qed.

(** The text for a reference with the keys of an article of the DOI
    normalizer. *)
Lemma doi_article_lines (authors : list value)
      (title year identifier journal volume page issue : value) :
  formatReference
    [(lit "title", title);
     (lit "authors", VArr authors);
     (lit "type", VStr (lit "article"));
     (lit "year", year);
     (lit "doi", identifier);
     (lit "journal", journal);
     (lit "volume", volume);
     (lit "pages", page);
     (lit "number", issue)] true
  = bind (mapM format_author authors)
      (fun names =>
         Ok (join [44; LF; 32; 32]%N
               [lit "@article{CITEKEY";
                lit "author = { " ++ join (lit " and ") names ++ lit " }";
                lit "title = { " ++ to_string title ++ lit " }";
                lit "year = { " ++ to_string year ++ lit " }";
                lit "doi = { " ++ to_string identifier ++ lit " }";
                lit "journal = { "
                    ++ (lit "[[" ++ to_string journal ++ lit "]]")
                    ++ lit " }";
                lit "volume = { " ++ to_string volume ++ lit " }";
                lit "pages = { " ++ to_string page ++ lit " }";
                lit "number = { " ++ to_string issue ++ lit " }"]
             ++ [LF; 125%N])).
Proof.
  reflexivity.
Qed.

(** X22. The note of a journal article: for a Crossref payload of type
    ['article-journal'] on which the DOI callback does not throw, and a
    reference built from it whose printed values print as [to_string]
    has them (no object with an own [toString], no number beyond the
    safe integers), the text that [formatReference] gives, with linking,
    is the header [@article{CITEKEY], the authors as
    ['[[family, given]]'] joined by [' and '], and then, in this order,
    the lines for [title], [year], [doi], [journal] (the container title,
    linked), [volume], [pages] (the page of the payload) and [number]
    (the issue of its journal issue). *)
Theorem doi_article_note_text (identifier payload : value) (r : Reference)
        (payload_type : value) :
  doi_suggestion identifier payload = Ok r ->
  get payload "type" = Ok payload_type ->
  to_string payload_type = lit "article-journal" ->
  Forall (fun v => printable v = true) (printed r) ->
  exists payload_author items title year journal volume page issue,
    get payload "author" = Ok payload_author
    /\ iterate payload_author = Ok items
    /\ get payload "title" = Ok title
    /\ doi_year payload year
    /\ get payload "container-title" = Ok journal
    /\ get payload "volume" = Ok volume
    /\ get payload "page" = Ok page
    /\ doi_issue payload issue
    /\ formatReference r true
       = Ok (join [44; LF; 32; 32]%N
               [lit "@article{CITEKEY";
                lit "author = { "
                    ++ join (lit " and ") (map doi_author_link items)
                    ++ lit " }";
                lit "title = { " ++ to_string title ++ lit " }";
                lit "year = { " ++ to_string year ++ lit " }";
                lit "doi = { " ++ to_string identifier ++ lit " }";
                lit "journal = { "
                    ++ (lit "[[" ++ to_string journal ++ lit "]]")
                    ++ lit " }";
                lit "volume = { " ++ to_string volume ++ lit " }";
                lit "pages = { " ++ to_string page ++ lit " }";
                lit "number = { " ++ to_string issue ++ lit " }"]
             ++ [LF; 125%N]).
Proof.
  unfold doi_suggestion. intros H Hty Hk _.
  apply bind_Ok in H as (payload_author & Hpa & H).
  apply bind_Ok in H as (items & Hit & H).
  apply bind_Ok in H as (authors & Hau & H).
  apply bind_Ok in H as (payload_type' & Hty' & H).
  rewrite Hty in Hty'. injection Hty' as <-.
  apply bind_Ok in H as (title & Hti & H).
  apply bind_Ok in H as (issued & His & H).
  apply bind_Ok in H as (date_parts & Hdp & H).
  apply bind_Ok in H as (date_part & Hd0 & H).
  apply bind_Ok in H as (year & Hy & H).
  unfold doi_type_fields in H.
  rewrite (proj1 (doi_type_cases payload_type) Hk) in H.
  change (loose_eq_word (VStr (lit "article")) "article") with true in H.
  cbv iota in H.
  apply bind_Ok in H as (journal & Hj & H).
  apply bind_Ok in H as (volume & Hv & H).
  apply bind_Ok in H as (page & Hp & H).
  apply bind_Ok in H as (journal_issue & Hji & H).
  apply bind_Ok in H as (issue & Hi & H).
  assert (Hr : r = [(lit "title", title);
                    (lit "authors", VArr authors);
                    (lit "type", VStr (lit "article"));
                    (lit "year", year);
                    (lit "doi", identifier);
                    (lit "journal", journal);
                    (lit "volume", volume);
                    (lit "pages", page);
                    (lit "number", issue)])
    by now injection H as <-.
  exists payload_author, items, title, year, journal, volume, page, issue.
  repeat (split; [assumption|]).
  split; [now exists issued, date_parts, date_part|].
  repeat (split; [assumption|]).
  split; [now exists journal_issue|].
  rewrite Hr, doi_article_lines, (doi_authors_format items authors Hau).
  reflexivity.
Qed.

Lemma doi_article_note_text_witness :
  exists s,
    formatReference ex_csl_reference true = Ok s
    /\ startsWith s (lit "@article{CITEKEY") = true.
Proof.
  destruct (doi_article_note_text (VStr (lit "10.1000/182")) ex_csl_payload
              ex_csl_reference (VStr (lit "article-journal"))
              eq_refl eq_refl eq_refl)
    as (pa & items & title & year & j & v & p & i & _ & _ & _ & _ & _ & _ & _
        & _ & H).
  - repeat constructor.
  - eexists. split; [exact H|reflexivity].
Defined.
